(** * CropCart: request handlers of the produce platform, embedded in Rocq

    The development follows the JavaScript sources:
    - the blog-post admin function (bearer token, UUID validation,
      ownership check, PATCH/DELETE against the hosted [blog_posts] table);
    - the older blog-post function (POST/DELETE only);
    - the browser-side farm helpers [updateFarm] / [deleteFarm];
    - the Express server: [/api/produce], [/api/search], [/api/waitlist]
      and the CSV export.

    JavaScript strings are modelled by [string]; one [ascii] stands for one
    code unit, so the texts are those whose code units are below 256 (Basic
    Latin and the Latin-1 supplement).  Values read from JSON bodies are
    modelled by [jsval], which keeps the distinction between [undefined],
    [null], booleans and strings that the handlers' truthiness tests
    depend on.

    The Express server is embedded twice.  The modules [Catalog], [Routes],
    [Waitlist], [Signups] and [CsvExport] are its routes on well-typed
    input: query parameters that are strings, bodies whose fields are
    [jsval]s, data files whose entries have the shape that the forms write.
    The module [Server] is the same routes on whatever reaches them:
    repeated or bracketed query parameters and every JSON value
    ([Json.value]) in the bodies and in the files.  There a handler can
    throw, and the error middleware answers. *)

From Stdlib Require Import String Ascii List Bool ZArith Lia Arith.
Import ListNotations.

Local Open Scope string_scope.
Local Open Scope list_scope.

(* ================================================================== *)
(** * JavaScript values and string primitives *)

Module Js.

Inductive jsval : Type :=
| JUndefined
| JNull
| JBool (b : bool)
| JString (s : string).

Definition jsval_eqb (a b : jsval) : bool :=
  match a, b with
  | JUndefined, JUndefined => true
  | JNull, JNull => true
  | JBool x, JBool y => Bool.eqb x y
  | JString x, JString y => String.eqb x y
  | _, _ => false
  end.

(** [if (v)] *)
Definition truthy (v : jsval) : bool :=
  match v with
  | JUndefined | JNull => false
  | JBool b => b
  | JString s => negb (String.eqb s "")
  end.

(** [a || b] *)
Definition js_or (a b : jsval) : jsval := if truthy a then a else b.

(** [String(v)] *)
Definition js_String (v : jsval) : string :=
  match v with
  | JUndefined => "undefined"
  | JNull => "null"
  | JBool true => "true"
  | JBool false => "false"
  | JString s => s
  end.

(** Environment variables and HTTP headers are a string or absent. *)
Definition truthy_opt (o : option string) : bool :=
  match o with
  | Some s => negb (String.eqb s "")
  | None => false
  end.

Definition opt_or (a b : option string) : option string :=
  if truthy_opt a then a else b.

Definition newline : string := String (ascii_of_nat 10) EmptyString.
Definition dquote : string := String (ascii_of_nat 34) EmptyString.

(** The capital letters among the code units below 256: A to Z, and in the
    Latin-1 supplement U+00C0 to U+00D6 and U+00D8 to U+00DE. *)
Definition is_upper (c : ascii) : bool :=
  (65 <=? nat_of_ascii c)%nat && (nat_of_ascii c <=? 90)%nat
  || (192 <=? nat_of_ascii c)%nat && (nat_of_ascii c <=? 214)%nat
  || (216 <=? nat_of_ascii c)%nat && (nat_of_ascii c <=? 222)%nat.

Definition lower_char (c : ascii) : ascii :=
  if is_upper c then ascii_of_nat (nat_of_ascii c + 32) else c.

(** [s.toLowerCase()]: each capital letter is replaced by its small letter,
    32 code units further; no other code unit below 256 changes. *)
Fixpoint toLowerCase (s : string) : string :=
  match s with
  | EmptyString => EmptyString
  | String c r => String (lower_char c) (toLowerCase r)
  end.

Fixpoint startsWith (p s : string) : bool :=
  match p, s with
  | EmptyString, _ => true
  | String a p', String b s' => Ascii.eqb a b && startsWith p' s'
  | String _ _, EmptyString => false
  end.

(** [s.includes(needle)] *)
Fixpoint includes (s needle : string) : bool :=
  startsWith needle s
  || match s with
     | EmptyString => false
     | String _ r => includes r needle
     end.

Fixpoint drop (n : nat) (s : string) : string :=
  match n, s with
  | O, _ => s
  | S n', String _ r => drop n' r
  | S _, EmptyString => EmptyString
  end.

(** [s.replace(pat, rep)] with a string pattern: the first occurrence only. *)
Fixpoint replace_first (pat rep s : string) : string :=
  if startsWith pat s then rep ++ drop (String.length pat) s
  else match s with
       | EmptyString => EmptyString
       | String c r => String c (replace_first pat rep r)
       end.

(** [s.replace(/c/g, rep)] for a one-character pattern. *)
Fixpoint replace_all_char (c : ascii) (rep : string) (s : string) : string :=
  match s with
  | EmptyString => EmptyString
  | String a r =>
      (if Ascii.eqb a c then rep else String a EmptyString)
        ++ replace_all_char c rep r
  end.

(** [parts.join(sep)] *)
Fixpoint join (sep : string) (parts : list string) : string :=
  match parts with
  | [] => EmptyString
  | [p] => p
  | p :: rest => p ++ sep ++ join sep rest
  end.

(** A plain object with scalar properties; the first binding of a key is
    the one in force. *)
Definition JsObject : Type := list (string * jsval).

(** [o[k]] *)
Fixpoint get (k : string) (o : JsObject) : jsval :=
  match o with
  | [] => JUndefined
  | (k', v) :: r => if String.eqb k' k then v else get k r
  end.

(** [{ ...a, ...b }] *)
Definition spread (a b : JsObject) : JsObject := b ++ a.

End Js.

(* ================================================================== *)
(** * UUID validation *)

Module Uuid.

Inductive cls : Type := Hex | Dash | Four | Variant.

Definition in_range (lo hi : nat) (c : ascii) : bool :=
  (lo <=? nat_of_ascii c)%nat && (nat_of_ascii c <=? hi)%nat.

(** [[0-9a-f]] under the [i] flag *)
Definition is_hex (c : ascii) : bool :=
  in_range 48 57 c || in_range 97 102 c || in_range 65 70 c.

(** [[89ab]] under the [i] flag *)
Definition is_variant (c : ascii) : bool :=
  in_range 56 57 c || in_range 97 98 c || in_range 65 66 c.

Definition matches (k : cls) (c : ascii) : bool :=
  match k with
  | Hex => is_hex c
  | Dash => Ascii.eqb c "-"
  | Four => Ascii.eqb c "4"
  | Variant => is_variant c
  end.

(** [^[0-9a-f]{8}-[0-9a-f]{4}-4[0-9a-f]{3}-[89ab][0-9a-f]{3}-[0-9a-f]{12}$] *)
Definition uuidRegex : list cls :=
  repeat Hex 8 ++ [Dash] ++ repeat Hex 4 ++ [Dash]
    ++ [Four] ++ repeat Hex 3 ++ [Dash]
    ++ [Variant] ++ repeat Hex 3 ++ [Dash] ++ repeat Hex 12.

Fixpoint test (shape : list cls) (s : string) : bool :=
  match shape, s with
  | [], EmptyString => true
  | k :: shape', String c s' => matches k c && test shape' s'
  | _, _ => false
  end.

Definition isValidUUID (str : string) : bool := test uuidRegex str.

End Uuid.

(* ================================================================== *)
(** * The hosted [blog_posts] table, reached over REST *)

Module Store.
Import Js.

Record Post : Type := mkPost {
  post_id : string;
  post_title : jsval;
  post_category : jsval;
  post_content : jsval;
  post_read_time : jsval;
  post_owner_id : jsval;
  post_created_at : string;
  post_updated_at : string
}.

(** Body of a PATCH: only the columns present are written. *)
Record Patch : Type := mkPatch {
  patch_title : option jsval;
  patch_category : option jsval;
  patch_content : option jsval;
  patch_read_time : option jsval;
  patch_updated_at : string
}.

(** One call of [fetch] against the table URL. *)
Inductive Request : Type :=
| SelectOwner (id : string)   (* GET ?id=eq.ID&select=owner_id *)
| SelectById (id : string)    (* GET ?id=eq.ID *)
| SelectAll                   (* GET ?order=created_at.desc *)
| Insert (row : Post)         (* POST, Prefer: return=representation *)
| Update (id : string) (payload : Patch)  (* PATCH ?id=eq.ID *)
| Remove (id : string).       (* DELETE ?id=eq.ID *)

(** The table and the trace of the calls made against it. *)
Record World : Type := mkWorld {
  table : list Post;
  log : list Request
}.

(** How the service behaves on one call: it serves the request, answers
    with a non-2xx status, or cannot be reached ([fetch] rejects). *)
Inductive Upstream : Type :=
| Serves
| Refuses (status : Z) (text : string)
| Unreachable (message : string).

Inductive Reply : Type :=
| Ok (status : Z) (rows : list Post)
| NotOk (status : Z) (text : string)
| Thrown (message : string).

Definition has_id (i : string) (p : Post) : bool := String.eqb (post_id p) i.

Definition apply_opt (o : option jsval) (old : jsval) : jsval :=
  match o with Some v => v | None => old end.

Definition apply_patch (q : Patch) (p : Post) : Post :=
  {| post_id := post_id p;
     post_title := apply_opt (patch_title q) (post_title p);
     post_category := apply_opt (patch_category q) (post_category p);
     post_content := apply_opt (patch_content q) (post_content p);
     post_read_time := apply_opt (patch_read_time q) (post_read_time p);
     post_owner_id := post_owner_id p;
     post_created_at := post_created_at p;
     post_updated_at := patch_updated_at q |}.

Fixpoint insert_desc (p : Post) (l : list Post) : list Post :=
  match l with
  | [] => [p]
  | x :: t =>
      if String.leb (post_created_at x) (post_created_at p)
      then p :: l else x :: insert_desc p t
  end.

Definition order_desc (l : list Post) : list Post :=
  fold_right insert_desc [] l.

(** What the table does with a request it serves: the new contents, the
    status and the rows of the representation.  Ids are compared as text. *)
Definition exec (r : Request) (t : list Post) : list Post * (Z * list Post) :=
  match r with
  | SelectOwner i | SelectById i => (t, (200%Z, filter (has_id i) t))
  | SelectAll => (t, (200%Z, order_desc t))
  | Insert row => (t ++ [row], (201%Z, [row]))
  | Update i q =>
      (map (fun p => if has_id i p then apply_patch q p else p) t,
       (200%Z, map (apply_patch q) (filter (has_id i) t)))
  | Remove i => (filter (fun p => negb (has_id i p)) t, (204%Z, []))
  end.

(** [await fetch(url, {method, headers, body})] *)
Definition fetch (r : Request) (u : Upstream) (w : World) : Reply * World :=
  match u with
  | Serves =>
      let '(t', (st, rows)) := exec r (table w) in
      (Ok st rows, {| table := t'; log := log w ++ [r] |})
  | Refuses st text =>
      (NotOk st text, {| table := table w; log := log w ++ [r] |})
  | Unreachable m =>
      (Thrown m, {| table := table w; log := log w ++ [r] |})
  end.

End Store.

(* ================================================================== *)
(** * The blog-post admin function *)

Module BlogAdmin.
Import Js Store.

Record Env : Type := mkEnv {
  SUPABASE_URL : option string;
  SUPABASE_SERVICE_ROLE_KEY : option string;
  ADMIN_API_KEY : option string
}.

(** The fields destructured from [JSON.parse(event.body || '{}')]. *)
Record Fields : Type := mkFields {
  id : jsval;
  title : jsval;
  category : jsval;
  content : jsval;
  read_time : jsval;
  owner_id : jsval
}.

Inductive Body : Type :=
| Malformed (message : string)   (* [JSON.parse] throws *)
| Parsed (f : Fields).

Record Event : Type := mkEvent {
  httpMethod : string;
  header_authorization : option string;   (* event.headers['authorization'] *)
  header_Authorization : option string;   (* event.headers['Authorization'] *)
  body : Body;
  query_id : option string                (* event.queryStringParameters?.id *)
}.

(** What one invocation reads from outside: the behaviour of the service
    on its k-th call, the k-th reading of the clock, the generated UUID. *)
Record Oracle : Type := mkOracle {
  upstream : nat -> Upstream;
  now : nat -> string;
  randomUUID : string
}.

Inductive ResponseBody : Type :=
| NoBody
| Error (message : string)       (* JSON.stringify({ error }) *)
| Text (raw : string)            (* text of a non-2xx reply *)
| Rows (rows : list Post)        (* text of a 2xx reply *)
| Deleted (id : string).         (* { message: 'Deleted successfully', id } *)

Record Response : Type := mkResponse {
  statusCode : Z;
  response_body : ResponseBody
}.

Record AuthResult : Type := mkAuth {
  authorized : bool;
  error : option string
}.

(** [token !== ADMIN_API_KEY] is [negb (opt_eqb (Some token) key)]. *)
Definition opt_eqb (a b : option string) : bool :=
  match a, b with
  | Some x, Some y => String.eqb x y
  | None, None => true
  | _, _ => false
  end.

Definition verifyAdminAuth (env : Env) (event : Event) : AuthResult :=
  let authHeader :=
    opt_or (header_authorization event) (header_Authorization event) in
  match authHeader with
  | Some h =>
      if negb (truthy_opt authHeader)
      then {| authorized := false;
              error := Some "Missing Authorization header" |}
      else
        let token := replace_first "Bearer " "" h in
        if negb (truthy_opt (ADMIN_API_KEY env))
           || negb (opt_eqb (Some token) (ADMIN_API_KEY env))
        then {| authorized := false;
                error := Some "Invalid or unauthorized API key" |}
        else {| authorized := true; error := None |}
  | None => {| authorized := false;
               error := Some "Missing Authorization header" |}
  end.

Definition mutating (m : string) : bool :=
  existsb (String.eqb m) ["POST"; "PUT"; "DELETE"].

Definition respond (st : Z) (b : ResponseBody) (w : World) : Response * World :=
  ({| statusCode := st; response_body := b |}, w).

(** [text || JSON.stringify({ error: fallback })] *)
Definition text_or (text fallback : string) : ResponseBody :=
  if String.eqb text "" then Error fallback else Text text.

(** The [catch (err)] of the handler. *)
Definition caught (m : string) (w : World) : Response * World :=
  respond 500 (Error (if String.eqb m "" then "Server error" else m)) w.

(** Outcome of the ownership check that precedes PATCH and DELETE. *)
Inductive Gate : Type :=
| Proceed (next : nat)      (* the mutation is the [next]-th call *)
| Denied
| Crashed (message : string).

(** [if (owner_id) { checkResponse = await fetch(...); if (checkResponse.ok)
    { ... return 403 ... } }], the same text in the PUT and DELETE
    branches. *)
Definition ownership_check (o : Oracle) (pid : string) (owner : jsval)
    (w : World) : Gate * World :=
  if truthy owner then
    match fetch (SelectOwner pid) (upstream o 0) w with
    | (Ok _ (existing :: _), w1) =>
        if truthy (post_owner_id existing)
           && negb (jsval_eqb (post_owner_id existing) owner)
        then (Denied, w1) else (Proceed 1, w1)
    | (Ok _ [], w1) => (Proceed 1, w1)
    | (NotOk _ _, w1) => (Proceed 1, w1)
    | (Thrown m, w1) => (Crashed m, w1)
    end
  else (Proceed 0, w).

Definition access_denied : string :=
  "Access denied. You do not own this resource.".

Definition when_truthy (v : jsval) : option jsval :=
  if truthy v then Some v else None.

Definition updatePayload (o : Oracle) (f : Fields) : Patch :=
  {| patch_title := when_truthy (title f);
     patch_category := when_truthy (category f);
     patch_content := when_truthy (content f);
     patch_read_time :=
       match read_time f with JUndefined => None | v => Some v end;
     patch_updated_at := now o 0 |}.

Definition do_post (o : Oracle) (f : Fields) (w : World) : Response * World :=
  if negb (truthy (title f)) || negb (truthy (category f))
     || negb (truthy (content f))
  then respond 400 (Error "title, category, and content are required.") w
  else
    let payload :=
      {| post_id := randomUUID o;
         post_title := title f;
         post_category := category f;
         post_content := content f;
         post_read_time := js_or (read_time f) JNull;
         post_owner_id := js_or (owner_id f) JNull;
         post_created_at := now o 0;
         post_updated_at := now o 1 |} in
    match fetch (Insert payload) (upstream o 0) w with
    | (Ok _ rows, w1) => respond 201 (Rows rows) w1
    | (NotOk st text, w1) => respond st (text_or text "Insert failed.") w1
    | (Thrown m, w1) => caught m w1
    end.

Definition do_put (o : Oracle) (f : Fields) (w : World) : Response * World :=
  if negb (truthy (id f))
  then respond 400 (Error "id is required to update.") w
  else if negb (Uuid.isValidUUID (js_String (id f)))
  then respond 400 (Error "Invalid UUID format for id.") w
  else
    let pid := js_String (id f) in
    match ownership_check o pid (owner_id f) w with
    | (Denied, w1) => respond 403 (Error access_denied) w1
    | (Crashed m, w1) => caught m w1
    | (Proceed k, w1) =>
        match fetch (Update pid (updatePayload o f)) (upstream o k) w1 with
        | (Ok _ rows, w2) => respond 200 (Rows rows) w2
        | (NotOk st text, w2) => respond st (text_or text "Update failed.") w2
        | (Thrown m, w2) => caught m w2
        end
    end.

Definition do_delete (o : Oracle) (f : Fields) (w : World) : Response * World :=
  if negb (truthy (id f))
  then respond 400 (Error "id is required to delete.") w
  else if negb (Uuid.isValidUUID (js_String (id f)))
  then respond 400 (Error "Invalid UUID format for id.") w
  else
    let pid := js_String (id f) in
    match ownership_check o pid (owner_id f) w with
    | (Denied, w1) => respond 403 (Error access_denied) w1
    | (Crashed m, w1) => caught m w1
    | (Proceed k, w1) =>
        match fetch (Remove pid) (upstream o k) w1 with
        | (Ok _ _, w2) => respond 200 (Deleted pid) w2
        | (NotOk st text, w2) => respond st (text_or text "Delete failed.") w2
        | (Thrown m, w2) => caught m w2
        end
    end.

Definition do_get (o : Oracle) (qid : option string) (w : World)
    : Response * World :=
  let after (r : Reply * World) :=
    match r with
    | (Ok _ rows, w1) => respond 200 (Rows rows) w1
    | (NotOk st text, w1) => respond st (text_or text "Fetch failed.") w1
    | (Thrown m, w1) => caught m w1
    end in
  match qid with
  | Some i =>
      if truthy_opt (Some i) then
        if negb (Uuid.isValidUUID i)
        then respond 400 (Error "Invalid UUID format for id.") w
        else after (fetch (SelectById i) (upstream o 0) w)
      else after (fetch SelectAll (upstream o 0) w)
  | None => after (fetch SelectAll (upstream o 0) w)
  end.

(** The body of a mutating request is parsed inside the [try]. *)
Definition with_body (event : Event)
    (k : Fields -> World -> Response * World) (w : World)
    : Response * World :=
  match body event with
  | Malformed m => caught m w
  | Parsed f => k f w
  end.

Definition handler (env : Env) (o : Oracle) (event : Event) (w : World)
    : Response * World :=
  let m := httpMethod event in
  if String.eqb m "OPTIONS" then respond 200 NoBody w
  else if negb (truthy_opt (SUPABASE_URL env))
          || negb (truthy_opt (SUPABASE_SERVICE_ROLE_KEY env))
  then respond 500
         (Error "Missing SUPABASE_URL or SUPABASE_SERVICE_ROLE_KEY env vars.") w
  else if mutating m && negb (authorized (verifyAdminAuth env event))
  then respond 401
         (Error (match error (verifyAdminAuth env event) with
                 | Some e => e | None => "" end)) w
  else if String.eqb m "POST" then with_body event (do_post o) w
  else if String.eqb m "PUT" then with_body event (do_put o) w
  else if String.eqb m "DELETE" then with_body event (do_delete o) w
  else if String.eqb m "GET" then do_get o (query_id event) w
  else respond 405 (Error "Method Not Allowed") w.

End BlogAdmin.

(* ================================================================== *)
(** * The older blog-post function (POST and DELETE only) *)

Module BlogLegacy.
Import Js Store.
Import BlogAdmin (Env, Event, Fields, Oracle, Response, Body).

Definition respond (st : Z) (text : string) (w : World) : Response * World :=
  BlogAdmin.respond st (BlogAdmin.Text text) w.

Definition caught (m : string) (w : World) : Response * World :=
  respond 500 (if String.eqb m "" then "Server error" else m) w.

(** The payload carries no [id], [owner_id] or [updated_at]: the table
    fills them with its column defaults, for which the generated UUID and
    the second clock reading of the oracle stand. *)
Definition do_post (o : Oracle) (f : Fields) (w : World) : Response * World :=
  if negb (truthy (BlogAdmin.title f)) || negb (truthy (BlogAdmin.category f))
     || negb (truthy (BlogAdmin.content f))
  then respond 400 "title, category, and content are required." w
  else
    let payload :=
      {| post_id := BlogAdmin.randomUUID o;
         post_title := BlogAdmin.title f;
         post_category := BlogAdmin.category f;
         post_content := BlogAdmin.content f;
         post_read_time := js_or (BlogAdmin.read_time f) JNull;
         post_owner_id := JNull;
         post_created_at := BlogAdmin.now o 0;
         post_updated_at := BlogAdmin.now o 1 |} in
    match fetch (Insert payload) (BlogAdmin.upstream o 0) w with
    | (Ok _ rows, w1) => BlogAdmin.respond 200 (BlogAdmin.Rows rows) w1
    | (NotOk st text, w1) =>
        respond st (if String.eqb text "" then "Insert failed." else text) w1
    | (Thrown m, w1) => caught m w1
    end.

(** The id goes to the table as it came. *)
Definition do_delete (o : Oracle) (f : Fields) (w : World) : Response * World :=
  if negb (truthy (BlogAdmin.id f))
  then respond 400 "id is required to delete." w
  else
    match fetch (Remove (js_String (BlogAdmin.id f)))
                (BlogAdmin.upstream o 0) w with
    | (Ok _ _, w1) => respond 200 "Deleted" w1
    | (NotOk st text, w1) =>
        respond st (if String.eqb text "" then "Delete failed." else text) w1
    | (Thrown m, w1) => caught m w1
    end.

Definition with_body (event : Event)
    (k : Fields -> World -> Response * World) (w : World)
    : Response * World :=
  match BlogAdmin.body event with
  | BlogAdmin.Malformed m => caught m w
  | BlogAdmin.Parsed f => k f w
  end.

Definition handler (env : Env) (o : Oracle) (event : Event) (w : World)
    : Response * World :=
  let m := BlogAdmin.httpMethod event in
  if String.eqb m "OPTIONS" then BlogAdmin.respond 200 BlogAdmin.NoBody w
  else if negb (truthy_opt (BlogAdmin.SUPABASE_URL env))
          || negb (truthy_opt (BlogAdmin.SUPABASE_SERVICE_ROLE_KEY env))
  then respond 500
         "Missing SUPABASE_URL or SUPABASE_SERVICE_ROLE_KEY env vars." w
  else if String.eqb m "POST" then with_body event (do_post o) w
  else if String.eqb m "DELETE" then with_body event (do_delete o) w
  else respond 405 "Method Not Allowed" w.

End BlogLegacy.

(* ================================================================== *)
(** * Browser-side farm helpers: [api.updateFarm], [api.deleteFarm] *)

Module FarmClient.
Import Js.

Inductive Data : Type :=
| DNull
| DRows (l : list JsObject).

(** [{ data, error }] *)
Record Result : Type := mkResult {
  data : Data;
  error : option string     (* error.message *)
}.

(** The service serves a query or returns an error object. *)
Inductive Upstream : Type :=
| Serves
| Fails (message : string).

Record Oracle : Type := mkOracle {
  upstream : nat -> Upstream;
  now : string;
  user : option string      (* (await supabase.auth.getUser()).data.user?.id *)
}.

Definition has_id (i : string) (r : JsObject) : bool :=
  jsval_eqb (get "id" r) (JString i).

(** [user?.id || null] *)
Definition getCurrentUserId (o : Oracle) : jsval :=
  match user o with
  | Some u => js_or (JString u) JNull
  | None => JNull
  end.

Definition not_single : string :=
  "JSON object requested, multiple (or no) rows returned".

(** Outcome of a [.single()] query: [{ data: row, error: null }] or
    [{ data: null, error }]. *)
Inductive Single : Type :=
| Found (row : JsObject)
| Failed (message : string).

(** [.from('farms').select('owner_id').eq('id', farmId).single()] *)
Definition select_owner_single (u : Upstream) (farmId : string)
    (farms : list JsObject) : Single :=
  match u with
  | Fails m => Failed m
  | Serves =>
      match filter (has_id farmId) farms with
      | [r] => Found [("owner_id", get "owner_id" r)]
      | _ => Failed not_single
      end
  end.

Definition invalid_uuid : Result :=
  {| data := DNull; error := Some "Invalid UUID format" |}.

Definition access_denied : Result :=
  {| data := DNull;
     error := Some "Access denied. You do not own this resource." |}.

Definition updateFarm (o : Oracle) (farmId : string) (farmData : JsObject)
    (farms : list JsObject) : Result * list JsObject :=
  if negb (Uuid.isValidUUID farmId) then (invalid_uuid, farms)
  else
    let owner_id := getCurrentUserId o in
    match select_owner_single (upstream o 0) farmId farms with
    | Failed fetchError => ({| data := DNull; error := Some fetchError |}, farms)
    | Found existing =>
        if truthy (get "owner_id" existing)
           && negb (jsval_eqb (get "owner_id" existing) owner_id)
        then (access_denied, farms)
        else
          let payload := spread farmData [("updated_at", JString (now o))] in
          match upstream o 1 with
          | Fails m => ({| data := DNull; error := Some m |}, farms)
          | Serves =>
              ({| data := DRows (map (fun r => spread r payload)
                                     (filter (has_id farmId) farms));
                  error := None |},
               map (fun r => if has_id farmId r then spread r payload else r)
                   farms)
          end
    end.

Definition deleteFarm (o : Oracle) (farmId : string)
    (farms : list JsObject) : Result * list JsObject :=
  if negb (Uuid.isValidUUID farmId) then (invalid_uuid, farms)
  else
    let owner_id := getCurrentUserId o in
    match select_owner_single (upstream o 0) farmId farms with
    | Failed fetchError => ({| data := DNull; error := Some fetchError |}, farms)
    | Found existing =>
        if truthy (get "owner_id" existing)
           && negb (jsval_eqb (get "owner_id" existing) owner_id)
        then (access_denied, farms)
        else
          match upstream o 1 with
          | Fails m => ({| data := DNull; error := Some m |}, farms)
          | Serves =>
              ({| data := DNull; error := None |},
               filter (fun r => negb (has_id farmId r)) farms)
          end
    end.

End FarmClient.

(* ================================================================== *)
(** * Anchored regular expressions ([/^...$/.test(s)]) *)

Module Regex.

Inductive re : Type :=
| Void
| Eps
| Class (p : ascii -> bool)
| Seq (a b : re)
| Alt (a b : re)
| Star (a : re).

(** [a+] *)
Definition Plus (a : re) : re := Seq a (Star a).

Fixpoint nullable (r : re) : bool :=
  match r with
  | Void => false
  | Eps => true
  | Class _ => false
  | Seq a b => nullable a && nullable b
  | Alt a b => nullable a || nullable b
  | Star _ => true
  end.

Fixpoint deriv (c : ascii) (r : re) : re :=
  match r with
  | Void | Eps => Void
  | Class p => if p c then Eps else Void
  | Seq a b =>
      if nullable a then Alt (Seq (deriv c a) b) (deriv c b)
      else Seq (deriv c a) b
  | Alt a b => Alt (deriv c a) (deriv c b)
  | Star a => Seq (deriv c a) (Star a)
  end.

Fixpoint test (r : re) (s : string) : bool :=
  match s with
  | EmptyString => nullable r
  | String c s' => test (deriv c r) s'
  end.

End Regex.

(* ================================================================== *)
(** * The Express server: catalogue queries

    [get_produce] and [get_search] here take parameters that are strings or
    absent; [Server.get_produce] and [Server.get_search] take any
    parameter and agree with them on strings. *)

Module Catalog.
Import Js.

Record Item : Type := mkItem {
  item_id : string;
  item_name : string;
  item_season : string
}.

Record Category : Type := mkCategory {
  cat_id : string;
  cat_name : string;
  cat_items : list Item
}.

(** [{ ...item, category: cat.name, categoryId: cat.id }] *)
Record Listing : Type := mkListing {
  listing_item : Item;
  category : string;
  categoryId : string
}.

Record Farm : Type := mkFarm {
  farm_id : string;
  farm_name : string;
  farm_location : string;
  farm_specialties : list string
}.

Definition listing (cat : Category) (item : Item) : Listing :=
  {| listing_item := item; category := cat_name cat; categoryId := cat_id cat |}.

Record ProduceResponse : Type := mkProduce {
  produce_count : nat;
  produce_items : list Listing
}.

(** The predicate of the season filter. *)
Definition in_season (season : string) (l : Listing) : bool :=
  includes (toLowerCase (item_season (listing_item l))) (toLowerCase season)
  || String.eqb (toLowerCase (item_season (listing_item l))) "year-round".

(** [!category || cat.id === category] *)
Definition category_selected (category : option string) (cat : Category) : bool :=
  negb (truthy_opt category)
  || match category with
     | Some c => String.eqb (cat_id cat) c
     | None => false
     end.

(** [app.get('/api/produce', ...)], with [req.query.category] and
    [req.query.season]. *)
Definition get_produce (categories : list Category)
    (category season : option string) : ProduceResponse :=
  let items :=
    flat_map (fun cat =>
                if category_selected category cat
                then map (listing cat) (cat_items cat) else [])
             categories in
  let items :=
    match season with
    | Some s => if truthy_opt (Some s) then filter (in_season s) items else items
    | None => items
    end in
  {| produce_count := List.length items; produce_items := items |}.

Record SearchResults : Type := mkResults {
  results_produce : list Listing;
  results_farms : list Farm
}.

Inductive SearchResponse : Type :=
| BadRequest (status : Z) (error : string)
| Found (query : string) (count : nat) (results : SearchResults).

Definition produce_hit (query : string) (cat : Category) (item : Item) : bool :=
  includes (toLowerCase (item_name item)) query
  || includes (toLowerCase (cat_name cat)) query.

Definition farm_hit (query : string) (farm : Farm) : bool :=
  includes (toLowerCase (farm_name farm)) query
  || includes (toLowerCase (farm_location farm)) query
  || existsb (fun s => includes (toLowerCase s) query) (farm_specialties farm).

(** [app.get('/api/search', ...)], with [req.query.q]. *)
Definition get_search (categories : list Category) (farms : list Farm)
    (q : option string) : SearchResponse :=
  match q with
  | None => BadRequest 400 "Search query must be at least 2 characters"
  | Some q =>
      if negb (truthy_opt (Some q)) || (String.length q <? 2)%nat
      then BadRequest 400 "Search query must be at least 2 characters"
      else
        let query := toLowerCase q in
        let produce :=
          flat_map (fun cat =>
                      map (listing cat)
                          (filter (produce_hit query cat) (cat_items cat)))
                   categories in
        let farms := filter (farm_hit query) farms in
        Found q (List.length produce + List.length farms)
              {| results_produce := produce; results_farms := farms |}
  end.

End Catalog.

(* ================================================================== *)
(** * The Express server: waitlist signup and CSV export

    On bodies whose fields are [jsval]s and on a file of entries as the
    form writes them, with string addresses: nothing throws after the
    duplicate test.  [Server.post_waitlist] and [Server.get_export] are the
    routes on any body and any file. *)

Module Waitlist.
Import Js.

(** [\s] over one-byte code units *)
Definition is_space (c : ascii) : bool :=
  existsb (Nat.eqb (nat_of_ascii c)) [9; 10; 11; 12; 13; 32; 160]%nat.

(** [[^\s@]] *)
Definition not_space_at (c : ascii) : bool :=
  negb (is_space c || Ascii.eqb c "@").

(** [/^[^\s@]+@[^\s@]+\.[^\s@]+$/] *)
Definition emailRegex : Regex.re :=
  Regex.Seq (Regex.Plus (Regex.Class not_space_at))
    (Regex.Seq (Regex.Class (Ascii.eqb "@"))
       (Regex.Seq (Regex.Plus (Regex.Class not_space_at))
          (Regex.Seq (Regex.Class (Ascii.eqb "."))
             (Regex.Plus (Regex.Class not_space_at))))).

Record Entry : Type := mkEntry {
  entry_id : string;
  entry_email : string;
  entry_name : jsval;
  entry_businessType : jsval;
  entry_location : jsval;
  entry_newsletterConsent : jsval;
  entry_joinedAt : string
}.

(** [waitlist.json]: absent or unreadable, or an array of entries. *)
Definition File : Type := option (list Entry).

(** [loadJSON(waitlistFile, [])] *)
Definition loadJSON (file : File) : list Entry :=
  match file with Some l => l | None => [] end.

(** The two servers differ in one field of the entry. *)
Inductive Server : Type :=
| Original    (* backend/server.js *)
| Current.    (* with [newsletterConsent] and notification mail *)

Record Submission : Type := mkSubmission {
  email : jsval;
  name : jsval;
  businessType : jsval;
  location : jsval;
  newsletterConsent : jsval
}.

(** What one request reads from outside: the clock, and whether
    [fs.writeFileSync] succeeds. *)
Record Oracle : Type := mkOracle {
  date_now : string;       (* `${Date.now()}` *)
  iso_now : string;        (* new Date().toISOString() *)
  write_ok : bool
}.

Inductive Payload : Type :=
| Error (message : string)
| Joined (position : nat).

Record Response : Type := mkResponse {
  status : Z;
  payload : Payload
}.

(** [saveJSON(waitlistFile, data)] *)
Definition saveJSON (o : Oracle) (file : File) (data : list Entry)
    : bool * File :=
  if write_ok o then (true, Some data) else (false, file).

Definition same_email (email : string) (entry : Entry) : bool :=
  String.eqb (toLowerCase (entry_email entry)) (toLowerCase email).

(** [app.post('/api/waitlist', ...)].  The notification mail of the current
    server is sent once the entry is saved: on the fields of a [jsval] body
    its text always builds, and a failure to send is swallowed. *)
Definition post_waitlist (srv : Server) (o : Oracle) (body : Submission)
    (file : File) : Response * File :=
  if negb (truthy (email body))
  then ({| status := 400; payload := Error "Email is required" |}, file)
  else if negb (Regex.test emailRegex (js_String (email body)))
  then ({| status := 400; payload := Error "Invalid email address" |}, file)
  else
    let waitlist := loadJSON file in
    match email body with
    | JString e =>
        if existsb (same_email e) waitlist
        then ({| status := 400; payload := Error "Email already on waitlist" |},
              file)
        else
          let entry :=
            {| entry_id := "wait_" ++ date_now o;
               entry_email := e;
               entry_name := js_or (name body) (JString "");
               entry_businessType := js_or (businessType body) (JString "");
               entry_location := js_or (location body) (JString "");
               entry_newsletterConsent :=
                 match srv with
                 | Current => JBool (truthy (newsletterConsent body))
                 | Original => JUndefined
                 end;
               entry_joinedAt := iso_now o |} in
          let waitlist := waitlist ++ [entry] in
          match saveJSON o file waitlist with
          | (true, file') =>
              ({| status := 201; payload := Joined (List.length waitlist) |},
               file')
          | (false, file') =>
              ({| status := 500;
                  payload := Error "Failed to save waitlist entry" |}, file')
          end
    | _ =>
        (* [email.toLowerCase] is not a function: the error middleware *)
        ({| status := 500; payload := Error "Something went wrong!" |}, file)
    end.

End Waitlist.

Module CsvExport.
Import Js.

(** [r[h]] on a stored waitlist entry *)
Definition field (r : Waitlist.Entry) (h : string) : jsval :=
  if String.eqb h "id" then JString (Waitlist.entry_id r)
  else if String.eqb h "email" then JString (Waitlist.entry_email r)
  else if String.eqb h "name" then Waitlist.entry_name r
  else if String.eqb h "businessType" then Waitlist.entry_businessType r
  else if String.eqb h "location" then Waitlist.entry_location r
  else if String.eqb h "newsletterConsent" then Waitlist.entry_newsletterConsent r
  else if String.eqb h "joinedAt" then JString (Waitlist.entry_joinedAt r)
  else JUndefined.

Definition waitlist_headers : list string :=
  ["id"; "name"; "email"; "businessType"; "location"; "phone"; "notes";
   "newsletterConsent"; "position"; "createdAt"].

Definition early_headers : list string :=
  ["id"; "name"; "email"; "businessType"; "location"; "phone"; "notes";
   "requestedAt"].

Definition newsletter_headers : list string := ["id"; "email"; "createdAt"].

Definition quote : ascii := ascii_of_nat 34.

(** [const escape = (val) => ...] *)
Definition escape (val : jsval) : string :=
  match val with
  | JUndefined | JNull => ""
  | _ =>
      let str := replace_all_char quote (dquote ++ dquote) (js_String val) in
      if includes str "," || includes str newline
      then dquote ++ str ++ dquote else str
  end.

(** [[headers.join(',')].concat(rows.map(r => headers.map(h =>
    escape(r[h])).join(','))).join('\n')] *)
Definition csv {Row : Type} (prop : Row -> string -> jsval)
    (headers : list string) (rows : list Row) : string :=
  join newline
       (join "," headers
        :: map (fun r => join "," (map (fun h => escape (prop r h)) headers))
               rows).

(** The three JSON files the export reads. *)
Record Disk : Type := mkDisk {
  waitlistFile : Waitlist.File;
  earlyAccessFile : option (list JsObject);
  newsletterFile : option (list JsObject)
}.

Definition load (file : option (list JsObject)) : list JsObject :=
  match file with Some l => l | None => [] end.

Inductive Response : Type :=
| Failure (status : Z) (error : string)
| Attachment (filename : string) (body : string).

(** Keys that [sources[type]] finds on [Object.prototype]: the lookup is
    truthy, [headers] is undefined and [headers.join] throws. *)
Definition inherited : list string :=
  ["constructor"; "__proto__"; "hasOwnProperty"; "isPrototypeOf";
   "propertyIsEnumerable"; "toLocaleString"; "toString"; "valueOf";
   "__defineGetter__"; "__defineSetter__"; "__lookupGetter__";
   "__lookupSetter__"].

(** [app.get('/api/admin/export/:type', ...)] *)
Definition get_export (type : string) (disk : Disk) : Response :=
  if String.eqb type "waitlist"
  then Attachment (type ++ "-export.csv")
         (csv field waitlist_headers (Waitlist.loadJSON (waitlistFile disk)))
  else if String.eqb type "early"
  then Attachment (type ++ "-export.csv")
         (csv (fun r h => get h r) early_headers (load (earlyAccessFile disk)))
  else if String.eqb type "newsletter"
  then Attachment (type ++ "-export.csv")
         (csv (fun r h => get h r) newsletter_headers
              (load (newsletterFile disk)))
  else if existsb (String.eqb type) inherited
  then Failure 500 "Something went wrong!"
  else Failure 400
         "Unsupported export type. Use waitlist, early, or newsletter.".

End CsvExport.

(* ================================================================== *)
(** * Vocabulary of the statements *)

Import Js.

(** "[s] contains [q], case-insensitively". *)
Definition contains_ci (s q : string) : Prop :=
  exists pre post, toLowerCase s = (pre ++ toLowerCase q ++ post)%string.

(** The season filter as a predicate on listings: it lets everything
    through when the parameter is absent or empty. *)
Definition season_keeps (season : option string) (l : Catalog.Listing) : bool :=
  match season with
  | Some s => if truthy_opt (Some s) then Catalog.in_season s l else true
  | None => true
  end.

(** The token the admin function compares with its key: the
    [Authorization] header less its first ["Bearer "]; none when the header
    is absent or empty. *)
Definition bearer_token (event : BlogAdmin.Event) : option string :=
  match opt_or (BlogAdmin.header_authorization event)
               (BlogAdmin.header_Authorization event) with
  | Some h => if truthy_opt (Some h)
              then Some (replace_first "Bearer " "" h) else None
  | None => None
  end.

(** The table URL and the service key are set. *)
Definition configured (env : BlogAdmin.Env) : Prop :=
  truthy_opt (BlogAdmin.SUPABASE_URL env) = true
  /\ truthy_opt (BlogAdmin.SUPABASE_SERVICE_ROLE_KEY env) = true.

(** The world after one more call against the table that changed nothing. *)
Definition logged (r : Store.Request) (w : Store.World) : Store.World :=
  {| Store.table := Store.table w; Store.log := (Store.log w ++ [r])%list |}.

(** The table after a served PATCH of the rows with id [pid]. *)
Definition patched (pid : string) (q : Store.Patch) (t : list Store.Post)
    : list Store.Post :=
  map (fun p => if Store.has_id pid p then Store.apply_patch q p else p) t.

(** The same request with no [Authorization] header at all. *)
Definition anonymous (event : BlogAdmin.Event) : BlogAdmin.Event :=
  {| BlogAdmin.httpMethod := BlogAdmin.httpMethod event;
     BlogAdmin.header_authorization := None;
     BlogAdmin.header_Authorization := None;
     BlogAdmin.body := BlogAdmin.body event;
     BlogAdmin.query_id := BlogAdmin.query_id event |}.

(** The same deployment with no admin key configured. *)
Definition without_admin_key (e : BlogAdmin.Env) : BlogAdmin.Env :=
  {| BlogAdmin.SUPABASE_URL := BlogAdmin.SUPABASE_URL e;
     BlogAdmin.SUPABASE_SERVICE_ROLE_KEY := BlogAdmin.SUPABASE_SERVICE_ROLE_KEY e;
     BlogAdmin.ADMIN_API_KEY := None |}.

(** Every character class of [r] gives the same answer on [c] and [f c]. *)
Fixpoint respects (f : ascii -> ascii) (r : Regex.re) : Prop :=
  match r with
  | Regex.Void | Regex.Eps => True
  | Regex.Class p => forall c, p (f c) = p c
  | Regex.Seq a b | Regex.Alt a b => respects f a /\ respects f b
  | Regex.Star a => respects f a
  end.

Fixpoint map_string (f : ascii -> ascii) (s : string) : string :=
  match s with
  | EmptyString => EmptyString
  | String c r => String (f c) (map_string f r)
  end.

(** A submission answered 400 that leaves the file as it was. *)
Definition rejected (srv : Waitlist.Server) (o : Waitlist.Oracle)
    (b : Waitlist.Submission) (file : Waitlist.File) : Prop :=
  Waitlist.status (fst (Waitlist.post_waitlist srv o b file)) = 400%Z
  /\ snd (Waitlist.post_waitlist srv o b file) = file.

Module Csv.
Import CsvExport.

Definition nl : ascii := ascii_of_nat 10.

(** [s] with every double quote written twice. *)
Definition doubled (s : string) : string :=
  replace_all_char quote (dquote ++ dquote) s.

Fixpoint has_char (c : ascii) (s : string) : bool :=
  match s with
  | EmptyString => false
  | String a r => Ascii.eqb c a || has_char c r
  end.

Fixpoint count (c : ascii) (s : string) : nat :=
  match s with
  | EmptyString => 0
  | String a r => (if Ascii.eqb a c then 1 else 0) + count c r
  end.

(** Reading back a text whose quotes were doubled: a quote that follows a
    quote just kept is dropped. *)
Fixpoint undouble (skip : bool) (s : string) : string :=
  match s with
  | EmptyString => EmptyString
  | String c r =>
      if Ascii.eqb c quote
      then if skip then undouble false r else String c (undouble true r)
      else String c (undouble false r)
  end.

(** Reading a text with a CSV reader's eye: a double quote flips between
    outside and inside a quoted stretch, and a delimiter met outside ends
    the text.  [scan] gives the state at the end, if no delimiter did. *)
Fixpoint scan (delim : ascii) (inq : bool) (t : string) : option bool :=
  match t with
  | EmptyString => Some inq
  | String c r =>
      if Ascii.eqb c quote then scan delim (negb inq) r
      else if Ascii.eqb c delim && negb inq then None
      else scan delim inq r
  end.

(** Cutting a text at the delimiters that are outside quoted stretches. *)
Fixpoint split_unquoted (delim : ascii) (inq : bool) (cur : string)
    (s : string) : list string :=
  match s with
  | EmptyString => [cur]
  | String c r =>
      if Ascii.eqb c quote
      then split_unquoted delim (negb inq) (cur ++ String c EmptyString) r
      else if Ascii.eqb c delim && negb inq
      then cur :: split_unquoted delim false EmptyString r
      else split_unquoted delim inq (cur ++ String c EmptyString) r
  end.

Definition records (body : string) : list string :=
  split_unquoted nl false EmptyString body.

Definition cells (record : string) : list string :=
  split_unquoted "," false EmptyString record.

(** One line of the export: the escaped cells of an entry. *)
Definition row (r : Waitlist.Entry) : string :=
  join "," (map (fun h => escape (field r h)) waitlist_headers).

End Csv.

(** [s] between double quotes, its own quotes doubled. *)
Definition wrapped (s : string) : string :=
  (dquote ++ Csv.doubled s ++ dquote)%string.

Definition needs_quotes (s : string) : bool :=
  Csv.has_char "," s || Csv.has_char Csv.nl s.

Definition is_nullish (v : jsval) : bool :=
  match v with
  | JUndefined | JNull => true
  | _ => false
  end.

(* ================================================================== *)
(** * Sample data *)

Module CatalogDemo.
Import Catalog.

Definition mango : Item :=
  {| item_id := "mango"; item_name := "Mango"; item_season := "March-July" |}.
Definition cassava : Item :=
  {| item_id := "cassava"; item_name := "Cassava";
     item_season := "Year-round" |}.
Definition fruits : Category :=
  {| cat_id := "fruits"; cat_name := "Tropical Fruits"; cat_items := [mango] |}.
Definition roots : Category :=
  {| cat_id := "roots"; cat_name := "Root Vegetables";
     cat_items := [cassava] |}.
Definition categories : list Category := [fruits; roots].

Definition green_valley : Farm :=
  {| farm_id := "1"; farm_name := "Green Valley Organic Farm";
     farm_location := "Accra";
     farm_specialties := ["Tomatoes"; "Lettuce"; "Mangoes"] |}.
Definition kumasi : Farm :=
  {| farm_id := "2"; farm_name := "Kumasi Cooperative";
     farm_location := "Kumasi";
     farm_specialties := ["Cocoa"; "Plantains"; "Cassava"] |}.
Definition farms : list Farm := [green_valley; kumasi].

End CatalogDemo.

Module BlogDemo.
Import Store BlogAdmin.

Definition env : Env :=
  {| SUPABASE_URL := Some "https://db.example";
     SUPABASE_SERVICE_ROLE_KEY := Some "service-role";
     ADMIN_API_KEY := Some "s3cret" |}.

Definition unconfigured : Env :=
  {| SUPABASE_URL := None;
     SUPABASE_SERVICE_ROLE_KEY := None;
     ADMIN_API_KEY := Some "s3cret" |}.

Definition pid : string := "123e4567-e89b-42d3-a456-426614174000".

Definition post : Post :=
  {| post_id := pid;
     post_title := JString "Harvest";
     post_category := JString "news";
     post_content := JString "Text";
     post_read_time := JNull;
     post_owner_id := JString "user-a";
     post_created_at := "2024-01-01T00:00:00.000Z";
     post_updated_at := "2024-01-01T00:00:00.000Z" |}.

Definition world : World := {| table := [post]; log := [] |}.

Definition clock (k : nat) : string := "2024-02-02T00:00:00.000Z".

(** The service answers every call. *)
Definition serving : Oracle :=
  {| upstream := fun _ => Serves; now := clock;
     randomUUID := "9b2f0c1e-1111-4222-8333-444455556666" |}.

(** The first call is answered 503, the later ones are served. *)
Definition lookup_down : Oracle :=
  {| upstream := fun k => match k with
                          | O => Refuses 503 "Service Unavailable"
                          | _ => Serves
                          end;
     now := clock;
     randomUUID := "9b2f0c1e-1111-4222-8333-444455556666" |}.

Definition fields (i owner : jsval) : Fields :=
  {| id := i; title := JString "Late harvest"; category := JUndefined;
     content := JUndefined; read_time := JUndefined; owner_id := owner |}.

Definition request (method : string) (auth : option string)
    (i owner : jsval) (q : option string) : Event :=
  {| httpMethod := method;
     header_authorization := auth;
     header_Authorization := None;
     body := Parsed (fields i owner);
     query_id := q |}.

Definition bearer : option string := Some "Bearer s3cret".

(** The first call cannot be made, the later ones are served. *)
Definition lookup_unreachable : Oracle :=
  {| upstream := fun k => match k with
                          | O => Unreachable "fetch failed"
                          | _ => Serves
                          end;
     now := clock;
     randomUUID := "9b2f0c1e-1111-4222-8333-444455556666" |}.

Definition renamed : Post :=
  {| post_id := pid;
     post_title := JString "Late harvest";
     post_category := JString "news";
     post_content := JString "Text";
     post_read_time := JNull;
     post_owner_id := JString "user-a";
     post_created_at := "2024-01-01T00:00:00.000Z";
     post_updated_at := "2024-02-02T00:00:00.000Z" |}.

End BlogDemo.

Module WaitlistDemo.
Import Waitlist.

Definition at_noon : Oracle :=
  {| date_now := "1706788800000"; iso_now := "2024-02-01T12:00:00.000Z";
     write_ok := true |}.

Definition disk_full : Oracle :=
  {| date_now := "1706788800000"; iso_now := "2024-02-01T12:00:00.000Z";
     write_ok := false |}.

Definition signup (e : string) : Submission :=
  {| email := JString e; name := JString "Ama, K."; businessType := JUndefined;
     location := JString "Accra"; newsletterConsent := JBool true |}.

Definition ama : Entry :=
  {| entry_id := "wait_1706788800000";
     entry_email := "Ama@Farm.gh";
     entry_name := JString "Ama, K.";
     entry_businessType := JString "";
     entry_location := JString "Accra";
     entry_newsletterConsent := JBool true;
     entry_joinedAt := "2024-02-01T12:00:00.000Z" |}.

End WaitlistDemo.

Module ExportDemo.

Definition disk : CsvExport.Disk :=
  {| CsvExport.waitlistFile := Some [WaitlistDemo.ama];
     CsvExport.earlyAccessFile := None;
     CsvExport.newsletterFile := None |}.

Definition header_line : string :=
  "id,name,email,businessType,location,phone,notes,newsletterConsent,position,createdAt".

Definition ama_line : string :=
  ("wait_1706788800000," ++ dquote ++ "Ama, K." ++ dquote
     ++ ",Ama@Farm.gh,,Accra,,,true,,")%string.

(** The text [say "hi"]. *)
Definition greeting : string :=
  ("say " ++ dquote ++ "hi" ++ dquote)%string.

End ExportDemo.

(* ================================================================== *)
(** * The Express server: the other catalogue routes *)

Module Routes.
Import Js Catalog.

(** [res.status(code).json({ error })] or [res.json(value)] *)
Inductive Answer (A : Type) : Type :=
| Failure (status : Z) (error : string)
| Json (value : A).

Arguments Failure {A} status error.
Arguments Json {A} value.

Record CategorySummary : Type := mkSummary {
  summary_id : string;
  summary_name : string;
  itemCount : nat
}.

(** [app.get('/api/categories', ...)] *)
Definition get_categories (categories : list Category) : list CategorySummary :=
  map (fun cat => {| summary_id := cat_id cat;
                     summary_name := cat_name cat;
                     itemCount := List.length (cat_items cat) |})
      categories.

(** [app.get('/api/produce/category/:categoryId', ...)] *)
Definition get_produce_category (categories : list Category)
    (categoryId : string) : Answer Category :=
  match find (fun cat => String.eqb (cat_id cat) categoryId) categories with
  | None => Failure 404 "Category not found"
  | Some category => Json category
  end.

(** The loop of [/api/produce/:id]: the first category holding an item with
    that id, and the first such item in it. *)
Fixpoint find_item (id : string) (categories : list Category)
    : option (Item * Category) :=
  match categories with
  | [] => None
  | category :: rest =>
      match find (fun i => String.eqb (item_id i) id) (cat_items category) with
      | Some item => Some (item, category)
      | None => find_item id rest
      end
  end.

(** [app.get('/api/produce/:id', ...)] *)
Definition get_produce_id (categories : list Category) (id : string)
    : Answer Listing :=
  match find_item id categories with
  | None => Failure 404 "Produce item not found"
  | Some (foundItem, foundCategory) => Json (listing foundCategory foundItem)
  end.

Record FarmsResponse : Type := mkFarms {
  farms_count : nat;
  farms_list : list Farm
}.

(** [app.get('/api/farms', ...)], with [req.query.location]. *)
Definition get_farms (farms : list Farm) (location : option string)
    : FarmsResponse :=
  let farms :=
    match location with
    | Some l =>
        if truthy_opt (Some l)
        then filter (fun farm => includes (toLowerCase (farm_location farm))
                                          (toLowerCase l)) farms
        else farms
    | None => farms
    end in
  {| farms_count := List.length farms; farms_list := farms |}.

(** [app.get('/api/farms/:id', ...)] *)
Definition get_farm (farms : list Farm) (id : string) : Answer Farm :=
  match find (fun f => String.eqb (farm_id f) id) farms with
  | None => Failure 404 "Farm not found"
  | Some farm => Json farm
  end.

(** [faqs.json]: the category list and the questions, as read. *)
Record FaqData : Type := mkFaqData {
  faq_categories : list JsObject;
  faq_faqs : list JsObject
}.

Record FaqsResponse : Type := mkFaqs {
  faqs_count : nat;
  faqs_categories : list JsObject;
  faqs_list : list JsObject
}.

(** [app.get('/api/faqs', ...)], with [req.query.category]. *)
Definition get_faqs (faqData : FaqData) (category : option string)
    : FaqsResponse :=
  let faqs :=
    match category with
    | Some c =>
        if truthy_opt (Some c) && negb (String.eqb c "all")
        then filter (fun faq => jsval_eqb (get "category" faq) (JString c))
                    (faq_faqs faqData)
        else faq_faqs faqData
    | None => faq_faqs faqData
    end in
  {| faqs_count := List.length faqs;
     faqs_categories := faq_categories faqData;
     faqs_list := faqs |}.

End Routes.

(** Every item with its category, in catalogue order. *)
Definition all_listings (cats : list Catalog.Category) : list Catalog.Listing :=
  flat_map (fun cat => map (Catalog.listing cat) (Catalog.cat_items cat)) cats.
(* ================================================================== *)
(** * The Express server: the other forms, the statistics and the chat log

    On bodies whose fields are [jsval]s and on files of objects with such
    fields.  [Server.post_newsletter], [Server.post_early_access],
    [Server.post_farm_application] and [Server.get_stats] are the routes on
    any body and any file. *)

Module Signups.
Import Js.
Import Waitlist (Oracle, date_now, iso_now, write_ok, emailRegex).

(** A JSON file holding an array: absent or unreadable, or its elements. *)
Definition FileOf (A : Type) : Type := option (list A).

(** [loadJSON(file, [])] *)
Definition loadJSON {A : Type} (file : FileOf A) : list A :=
  match file with Some l => l | None => [] end.

(** [saveJSON(file, data)] *)
Definition saveJSON {A : Type} (o : Oracle) (file : FileOf A) (data : list A)
    : bool * FileOf A :=
  if write_ok o then (true, Some data) else (false, file).

Inductive Payload : Type :=
| Error (message : string)
| Subscribed                       (* { success, message } *)
| Position (position : nat)        (* { success, message, position } *)
| Created (id : string).           (* applicationId or messageId *)

Record Response : Type := mkResponse {
  status : Z;
  payload : Payload
}.

(** What the error middleware answers when a handler throws. *)
Definition crashed : Response :=
  {| status := 500; payload := Error "Something went wrong!" |}.

(** [list.some(x => x.email.toLowerCase() === email.toLowerCase())] on
    stored objects: [None] when it throws, that is when it comes to an
    element whose [email] is not a string before it has found a match. *)
Fixpoint some_same_email (email : string) (l : list JsObject) : option bool :=
  match l with
  | [] => Some false
  | x :: rest =>
      match get "email" x with
      | JString e =>
          if String.eqb (toLowerCase e) (toLowerCase email) then Some true
          else some_same_email email rest
      | _ => None
      end
  end.

Record NewsletterBody : Type := mkNewsletterBody {
  nl_email : jsval;
  nl_name : jsval
}.

(** [app.post('/api/newsletter', ...)] *)
Definition post_newsletter (o : Oracle) (body : NewsletterBody)
    (file : FileOf JsObject) : Response * FileOf JsObject :=
  if negb (truthy (nl_email body))
  then ({| status := 400; payload := Error "Email is required" |}, file)
  else if negb (Regex.test emailRegex (js_String (nl_email body)))
  then ({| status := 400; payload := Error "Invalid email address" |}, file)
  else
    let subscribers := loadJSON file in
    match some_same_email (js_String (nl_email body)) subscribers with
    | None => (crashed, file)
    | Some true =>
        ({| status := 400; payload := Error "Email already subscribed" |}, file)
    | Some false =>
        let subscriber :=
          [("id", JString ("sub_" ++ date_now o));
           ("email", nl_email body);
           ("name", js_or (nl_name body) (JString ""));
           ("subscribedAt", JString (iso_now o))] in
        let subscribers := subscribers ++ [subscriber] in
        match saveJSON o file subscribers with
        | (true, file') =>
            ({| status := 201; payload := Subscribed |}, file')
        | (false, file') =>
            ({| status := 500;
                payload := Error "Failed to save subscription" |}, file')
        end
    end.

Record EarlyBody : Type := mkEarlyBody {
  ea_email : jsval;
  ea_name : jsval;
  ea_businessType : jsval;
  ea_location : jsval;
  ea_phone : jsval;
  ea_notes : jsval
}.

(** [app.post('/api/early-access', ...)] *)
Definition post_early_access (o : Oracle) (body : EarlyBody)
    (file : FileOf JsObject) : Response * FileOf JsObject :=
  if negb (truthy (ea_email body)) || negb (truthy (ea_name body))
     || negb (truthy (ea_businessType body))
     || negb (truthy (ea_location body))
  then ({| status := 400; payload := Error "Missing required fields" |}, file)
  else if negb (Regex.test emailRegex (js_String (ea_email body)))
  then ({| status := 400; payload := Error "Invalid email address" |}, file)
  else
    let entries := loadJSON file in
    match some_same_email (js_String (ea_email body)) entries with
    | None => (crashed, file)
    | Some true =>
        ({| status := 400;
            payload := Error "Email already requested early access" |}, file)
    | Some false =>
        let entry :=
          [("id", JString ("ea_" ++ date_now o));
           ("email", ea_email body);
           ("name", ea_name body);
           ("businessType", ea_businessType body);
           ("location", ea_location body);
           ("phone", js_or (ea_phone body) (JString ""));
           ("notes", js_or (ea_notes body) (JString ""));
           ("requestedAt", JString (iso_now o))] in
        let entries := entries ++ [entry] in
        match saveJSON o file entries with
        | (true, file') =>
            ({| status := 201; payload := Position (List.length entries) |},
             file')
        | (false, file') =>
            ({| status := 500;
                payload := Error "Failed to save early access request" |},
             file')
        end
    end.

Record ApplicationBody : Type := mkApplicationBody {
  ab_farmName : jsval;
  ab_location : jsval;
  ab_farmSize : jsval;
  ab_specialties : jsval;
  ab_certifications : jsval;
  ab_contactName : jsval;
  ab_phone : jsval;
  ab_email : jsval;
  ab_experience : jsval;
  ab_message : jsval
}.

(** A stored application.  [app_farmSize_of] is the value that was given to
    [parseInt]; the number stored is [parseInt] of it. *)
Record Application : Type := mkApplication {
  app_id : string;
  app_farmName : jsval;
  app_location : jsval;
  app_farmSize_of : jsval;
  app_specialties : jsval;
  app_certifications : jsval;
  app_contactName : jsval;
  app_phone : jsval;
  app_email : jsval;
  app_experience : jsval;
  app_message : jsval;
  app_status : string;
  app_submittedAt : string
}.

(** [app.post('/api/farm-applications', ...)] *)
Definition post_farm_application (o : Oracle) (body : ApplicationBody)
    (file : FileOf Application) : Response * FileOf Application :=
  if negb (truthy (ab_farmName body)) || negb (truthy (ab_location body))
     || negb (truthy (ab_farmSize body)) || negb (truthy (ab_specialties body))
     || negb (truthy (ab_contactName body)) || negb (truthy (ab_phone body))
     || negb (truthy (ab_email body)) || negb (truthy (ab_experience body))
  then ({| status := 400; payload := Error "Missing required fields" |}, file)
  else if negb (Regex.test emailRegex (js_String (ab_email body)))
  then ({| status := 400; payload := Error "Invalid email address" |}, file)
  else
    let application :=
      {| app_id := "app_" ++ date_now o;
         app_farmName := ab_farmName body;
         app_location := ab_location body;
         app_farmSize_of := ab_farmSize body;
         app_specialties := ab_specialties body;
         app_certifications := js_or (ab_certifications body) (JString "");
         app_contactName := ab_contactName body;
         app_phone := ab_phone body;
         app_email := ab_email body;
         app_experience := ab_experience body;
         app_message := js_or (ab_message body) (JString "");
         app_status := "pending";
         app_submittedAt := iso_now o |} in
    let applications := loadJSON file ++ [application] in
    match saveJSON o file applications with
    | (true, file') =>
        ({| status := 201; payload := Created (app_id application) |}, file')
    | (false, file') =>
        ({| status := 500; payload := Error "Failed to save application" |},
         file')
    end.

Record Stats : Type := mkStats {
  applications_total : nat;
  applications_pending : nat;
  applications_approved : nat;
  applications_rejected : nat;
  newsletter_total : nat;
  waitlist_total : nat;
  earlyAccess_total : nat
}.

Definition with_status (s : string) (a : Application) : bool :=
  String.eqb (app_status a) s.

(** [app.get('/api/admin/stats', ...)] *)
Definition get_stats (applicationsFile : FileOf Application)
    (newsletterFile : FileOf JsObject) (waitlistFile : Waitlist.File)
    (earlyAccessFile : FileOf JsObject) : Stats :=
  let applications := loadJSON applicationsFile in
  {| applications_total := List.length applications;
     applications_pending :=
       List.length (filter (with_status "pending") applications);
     applications_approved :=
       List.length (filter (with_status "approved") applications);
     applications_rejected :=
       List.length (filter (with_status "rejected") applications);
     newsletter_total := List.length (loadJSON newsletterFile);
     waitlist_total := List.length (Waitlist.loadJSON waitlistFile);
     earlyAccess_total := List.length (loadJSON earlyAccessFile) |}.

Record ChatBody : Type := mkChatBody {
  cb_sessionId : jsval;
  cb_userMessage : jsval;
  cb_botResponse : jsval;
  cb_timestamp : jsval
}.

(** [app.post('/api/chat/messages', ...)] *)
Definition post_chat_message (o : Oracle) (body : ChatBody)
    (file : FileOf JsObject) : Response * FileOf JsObject :=
  if negb (truthy (cb_sessionId body)) || negb (truthy (cb_userMessage body))
  then ({| status := 400; payload := Error "Missing required fields" |}, file)
  else
    let message :=
      [("id", JString ("msg_" ++ date_now o));
       ("sessionId", cb_sessionId body);
       ("userMessage", cb_userMessage body);
       ("botResponse", js_or (cb_botResponse body) (JString ""));
       ("timestamp", js_or (cb_timestamp body) (JString (iso_now o)))] in
    let chatMessages := loadJSON file ++ [message] in
    match saveJSON o file chatMessages with
    | (true, file') =>
        ({| status := 201; payload := Created ("msg_" ++ date_now o) |}, file')
    | (false, file') =>
        ({| status := 500; payload := Error "Failed to save chat message" |},
         file')
    end.

Record ChatHistory : Type := mkChatHistory {
  history_count : nat;
  history_messages : list JsObject
}.

(** [app.get('/api/chat/messages/:sessionId', ...)] *)
Definition get_chat_messages (sessionId : string) (file : FileOf JsObject)
    : ChatHistory :=
  let sessionMessages :=
    filter (fun msg => jsval_eqb (get "sessionId" msg) (JString sessionId))
           (loadJSON file) in
  {| history_count := List.length sessionMessages;
     history_messages := sessionMessages |}.

End Signups.

(** No two stored waitlist entries have the same address up to case, and
    every stored address matches the e-mail pattern. *)
Definition distinct_emails (l : list Waitlist.Entry) : Prop :=
  NoDup (map (fun e => toLowerCase (Waitlist.entry_email e)) l).

Definition valid_emails (l : list Waitlist.Entry) : Prop :=
  Forall (fun e => Regex.test Waitlist.emailRegex (Waitlist.entry_email e)
                   = true) l.

(** Every stored object has a string under [email]. *)
Definition string_emails (l : list JsObject) : Prop :=
  Forall (fun x => exists e, get "email" x = JString e) l.

Module SignupDemo.
Import Signups.

Definition kofi : JsObject :=
  [("id", JString "sub_1706700000000"); ("email", JString "Kofi@Farm.gh");
   ("name", JString ""); ("subscribedAt", JString "2024-01-31T11:20:00.000Z")].

(** An object that lost its address. *)
Definition torn : JsObject := [("id", JString "sub_1"); ("name", JString "?")].

Definition subscribe (e : string) : NewsletterBody :=
  {| nl_email := JString e; nl_name := JUndefined |}.

Definition hello (session : jsval) : ChatBody :=
  {| cb_sessionId := session; cb_userMessage := JString "Hello";
     cb_botResponse := JUndefined; cb_timestamp := JUndefined |}.

End SignupDemo.
(** One line of an export of stored objects: the escaped cells. *)
Definition object_line (headers : list string) (r : JsObject) : string :=
  join "," (map (fun h => CsvExport.escape (get h r)) headers).

(** A column name that can stand in a header line as it is. *)
Definition plain_name (h : string) : Prop :=
  Csv.scan "," false h = Some false /\ Csv.scan Csv.nl false h = Some false.
(** A call that reads the table. *)
Definition is_read (r : Store.Request) : bool :=
  match r with
  | Store.SelectOwner _ | Store.SelectById _ | Store.SelectAll => true
  | _ => false
  end.

(** The table after a served DELETE of the rows with id [pid]. *)
Definition without (pid : string) (t : list Store.Post) : list Store.Post :=
  filter (fun p => negb (Store.has_id pid p)) t.

(** What one invocation of the admin function may have done to the world:
    it made the calls [calls], in order, and the table is now [t]. *)
Definition did (w w' : Store.World) (calls : list Store.Request)
    (t : list Store.Post) : Prop :=
  Store.log w' = (Store.log w ++ calls)%list /\ Store.table w' = t.

(** The calls a PUT or DELETE can make: the lookup, then the change. *)
Definition gated (pid : string) (change : Store.Request)
    (calls : list Store.Request) : Prop :=
  calls = [] \/ calls = [Store.SelectOwner pid] \/ calls = [change]
  \/ calls = [Store.SelectOwner pid; change].

(** The authorization header the admin function reads: the lower-case one
    unless it is absent or empty. *)
Definition auth_header (event : BlogAdmin.Event) : option string :=
  opt_or (BlogAdmin.header_authorization event)
         (BlogAdmin.header_Authorization event).

Module BlogSamples.
Import Store BlogAdmin.

Definition article (owner : jsval) : Fields :=
  {| id := JUndefined; title := JString "Harvest"; category := JString "news";
     content := JString "Text"; read_time := JUndefined; owner_id := owner |}.

Definition create (owner : jsval) : Event :=
  {| httpMethod := "POST";
     header_authorization := None;
     header_Authorization := BlogDemo.bearer;
     body := Parsed (article owner);
     query_id := None |}.

End BlogSamples.
(* ================================================================== *)
(** * The rest of the farm client: adding, reading, ownership *)

Module Farms.
Import Js FarmClient.

(** [{ id, ...farmData, owner_id }] *)
Definition new_row (o : Oracle) (id : string) (farmData : JsObject)
    : JsObject :=
  spread (spread [("id", JString id)] farmData)
         [("owner_id", getCurrentUserId o)].

(** [addFarm(farmData)], [id] being what [generateUUID()] returned. *)
Definition addFarm (o : Oracle) (id : string) (farmData : JsObject)
    (farms : list JsObject) : Result * list JsObject :=
  let row := new_row o id farmData in
  match upstream o 0 with
  | Fails m => ({| data := DNull; error := Some m |}, farms)
  | Serves => ({| data := DRows [row]; error := None |},
               (farms ++ [row])%list)
  end.

(** [.from('farms').select('*').eq('id', farmId).single()] *)
Definition select_single (u : Upstream) (farmId : string)
    (farms : list JsObject) : Single :=
  match u with
  | Fails m => Failed m
  | Serves =>
      match filter (has_id farmId) farms with
      | [r] => Found r
      | _ => Failed not_single
      end
  end.

Definition getFarmById (o : Oracle) (farmId : string)
    (farms : list JsObject) : Single :=
  if negb (Uuid.isValidUUID farmId) then Failed "Invalid UUID format"
  else select_single (upstream o 0) farmId farms.

(** [{ owns, error }] *)
Record Ownership : Type := mkOwnership {
  owns : bool;
  ownership_error : option string
}.

(** [checkOwnership(table, resourceId)], [rows] being the rows of [table]. *)
Definition checkOwnership (o : Oracle) (resourceId : string)
    (rows : list JsObject) : Ownership :=
  if negb (Uuid.isValidUUID resourceId)
  then {| owns := false; ownership_error := Some "Invalid UUID format" |}
  else
    let owner_id := getCurrentUserId o in
    if negb (truthy owner_id)
    then {| owns := false; ownership_error := Some "Not authenticated" |}
    else
      match select_owner_single (upstream o 0) resourceId rows with
      | Failed m => {| owns := false; ownership_error := Some m |}
      | Found data =>
          {| owns := jsval_eqb (get "owner_id" data) owner_id;
             ownership_error := None |}
      end.

End Farms.

(** The object has a property [k] of its own. *)
Definition binds (k : string) (o : JsObject) : bool :=
  existsb (fun kv => String.eqb (fst kv) k) o.

(** The row after a served update with [farmData] at time [now]. *)
Definition updated (farmData : JsObject) (now : string) (r : JsObject)
    : JsObject :=
  spread r (spread farmData [("updated_at", JString now)]).

(** The current user may change the row: it has no owner, or it is theirs. *)
Definition may_change (o : FarmClient.Oracle) (r : JsObject) : Prop :=
  truthy (get "owner_id" r) = false
  \/ get "owner_id" r = FarmClient.getCurrentUserId o.

Module FarmDemo.
Import FarmClient.

Definition fid : string := "123e4567-e89b-42d3-a456-426614174000".

Definition farm (owner : jsval) : JsObject :=
  [("id", JString fid); ("name", JString "Green Acres"); ("owner_id", owner)].

Definition as_user (u : option string) : Oracle :=
  {| upstream := fun _ => Serves; now := "2024-02-02T00:00:00.000Z";
     user := u |}.

Definition details : JsObject :=
  [("name", JString "Blue Acres"); ("owner_id", JString "user-z")].

End FarmDemo.

(* ================================================================== *)
(** * JSON values, as the body parser and the data files deliver them *)

Module Json.
Import Js.

(** A value that [JSON.parse] can return, or [undefined] for a property
    that is not there.  A number stands as its own text, [String(n)]: two
    numbers are equal exactly when their texts are, and zero reads ["0"]
    whatever its sign. *)
#[local] Unset Elimination Schemes.

Inductive value : Type :=
| Undefined
| Null
| Bool (b : bool)
| Num (text : string)
| Str (s : string)
| Arr (items : list value)
| Obj (props : list (string * value)).

#[local] Set Elimination Schemes.

(** [if (v)] *)
Definition truthy (v : value) : bool :=
  match v with
  | Undefined | Null => false
  | Bool b => b
  | Num t => negb (String.eqb t "0" || String.eqb t "NaN")
  | Str s => negb (String.eqb s "")
  | Arr _ | Obj _ => true
  end.

(** [a || b] *)
Definition or_else (a b : value) : value := if truthy a then a else b.

(** [o[k]] on the properties of a parsed object; the first binding of a key
    is the one in force. *)
Fixpoint get (k : string) (o : list (string * value)) : value :=
  match o with
  | [] => Undefined
  | (k', v) :: r => if String.eqb k' k then v else get k r
  end.

Definition has_own (k : string) (o : list (string * value)) : bool :=
  existsb (fun kv => String.eqb (fst kv) k) o.

(** [String(v)], and the conversion inside a template literal or
    [RegExp.prototype.test]: [None] when it throws.  An array joins the
    texts of its elements with commas, [null] and [undefined] counting as
    empty.  A parsed object inherits [Object.prototype.toString] unless it
    has a property [toString] of its own, which no JSON value can make
    callable: the conversion then finds nothing to call and throws. *)
Fixpoint toString (v : value) : option string :=
  match v with
  | Undefined => Some "undefined"
  | Null => Some "null"
  | Bool true => Some "true"
  | Bool false => Some "false"
  | Num t => Some t
  | Str s => Some s
  | Arr items =>
      option_map (join ",")
        ((fix each (l : list value) : option (list string) :=
            match l with
            | [] => Some []
            | x :: r =>
                match match x with
                      | Undefined | Null => Some ""
                      | _ => toString x
                      end, each r with
                | Some a, Some b => Some (a :: b)
                | _, _ => None
                end
            end) items)
  | Obj props =>
      if has_own "toString" props then None else Some "[object Object]"
  end.

(** [v.toLowerCase()]: only a string has the method. *)
Definition lower (v : value) : option string :=
  match v with
  | Str s => Some (toLowerCase s)
  | _ => None
  end.

(** [v.k] for the property names the server reads ([email], [status], the
    columns of the exports): none of them is a property of a primitive or
    is inherited by an array or an object.  [None] when the read throws. *)
Definition prop (k : string) (v : value) : option value :=
  match v with
  | Undefined | Null => None
  | Obj props => Some (get k props)
  | _ => Some Undefined
  end.

(** [v === 'text'] *)
Definition is_text (s : string) (v : value) : bool :=
  match v with
  | Str t => String.eqb t s
  | _ => false
  end.

(** A JSON file: absent or unreadable, or what [JSON.parse] made of it. *)
Definition File : Type := option value.

(** [loadJSON(file, [])] *)
Definition loadJSON (file : File) : value :=
  match file with Some v => v | None => Arr [] end.

(** [saveJSON(file, data)] *)
Definition saveJSON (ok : bool) (file : File) (data : list value)
    : bool * File :=
  if ok then (true, Some (Arr data)) else (false, file).

End Json.

(* ================================================================== *)
(** * The Express server on whatever reaches it

    The routes once more, this time on every value that the query parser,
    the body parser and the data files can hand to them: repeated and
    bracketed query parameters, bodies and stored entries with numbers,
    arrays and objects.  A handler that throws is answered by the error
    middleware. *)

Module Server.
Import Js Json Catalog.
Import Routes (Answer, Failure, Json).
Import Waitlist (Oracle, date_now, iso_now, write_ok, emailRegex).
Import Signups (Response, mkResponse, status, payload, Error, Subscribed,
                Position, Created, crashed).

(** A query parameter as the query parser delivers it: a string; an array,
    when the parameter is repeated; an object, when it is written with
    brackets.  The handlers look at nothing of an object but whether its
    [length] compares below 2 (it does not when the object has none). *)
#[local] Unset Elimination Schemes.

Inductive Param : Type :=
| Single (s : string)
| Many (items : list Param)
| Nested (length_below_2 : bool).

#[local] Set Elimination Schemes.

(** [if (p)], for a parameter that may be absent *)
Definition given (p : option Param) : bool :=
  match p with
  | None => false
  | Some (Single s) => negb (String.eqb s "")
  | Some _ => true
  end.

(** [text === p] *)
Definition is_param (text : string) (p : option Param) : bool :=
  match p with
  | Some (Single s) => String.eqb text s
  | _ => false
  end.

(** [p.toLowerCase()] *)
Definition lowered (p : Param) : option string :=
  match p with
  | Single s => Some (toLowerCase s)
  | _ => None
  end.

(** [p.length < 2] *)
Definition short (p : Param) : bool :=
  match p with
  | Single s => (String.length s <? 2)%nat
  | Many items => (List.length items <? 2)%nat
  | Nested b => b
  end.

(** [list.filter(f)] with a callback that may throw *)
Fixpoint filter_with {A : Type} (f : A -> option bool) (l : list A)
    : option (list A) :=
  match l with
  | [] => Some []
  | x :: r =>
      match f x with
      | None => None
      | Some b =>
          match filter_with f r with
          | None => None
          | Some r' => Some (if b then x :: r' else r')
          end
      end
  end.

Definition went_wrong {A : Type} : Answer A :=
  Failure 500 "Something went wrong!".

(** The callback of the season filter. *)
Definition in_season (season : Param) (l : Listing) : option bool :=
  match lowered season with
  | None => None
  | Some s =>
      Some (includes (toLowerCase (item_season (listing_item l))) s
            || String.eqb (toLowerCase (item_season (listing_item l)))
                          "year-round")
  end.

(** [app.get('/api/produce', ...)] *)
Definition get_produce (categories : list Category)
    (category season : option Param) : Answer ProduceResponse :=
  let items :=
    flat_map (fun cat =>
                if negb (given category) || is_param (cat_id cat) category
                then map (listing cat) (cat_items cat) else [])
             categories in
  let items :=
    match season with
    | Some s => if given season then filter_with (in_season s) items
                else Some items
    | None => Some items
    end in
  match items with
  | None => went_wrong
  | Some items =>
      Json {| produce_count := List.length items; produce_items := items |}
  end.

(** [{ query: q, count, results }] *)
Record SearchBody : Type := mkSearchBody {
  search_query : string;
  search_count : nat;
  search_results : SearchResults
}.

(** [app.get('/api/search', ...)] *)
Definition get_search (categories : list Category) (farms : list Farm)
    (q : option Param) : Answer SearchBody :=
  match q with
  | None => Failure 400 "Search query must be at least 2 characters"
  | Some p =>
      if negb (given q) || short p
      then Failure 400 "Search query must be at least 2 characters"
      else
        match lowered p, p with
        | Some query, Single text =>
            let produce :=
              flat_map (fun cat =>
                          map (listing cat)
                              (filter (produce_hit query cat) (cat_items cat)))
                       categories in
            let farms := filter (farm_hit query) farms in
            Json {| search_query := text;
                    search_count := List.length produce + List.length farms;
                    search_results :=
                      {| results_produce := produce;
                         results_farms := farms |} |}
        | _, _ => went_wrong   (* [q.toLowerCase] is not a function *)
        end
  end.

(** [list.some(x => x.email.toLowerCase() === email.toLowerCase())]:
    [None] when it throws, which it does at the first element it comes to
    whose [email] is not a string, and at the first element of all when the
    submitted [email] is not one. *)
Fixpoint some_same_email (email : value) (l : list value) : option bool :=
  match l with
  | [] => Some false
  | x :: rest =>
      match prop "email" x with
      | None => None
      | Some stored =>
          match lower stored, lower email with
          | Some a, Some b =>
              if String.eqb a b then Some true else some_same_email email rest
          | _, _ => None
          end
      end
  end.

(** The interpolations of a template literal all convert. *)
Definition renders (vs : list value) : bool :=
  forallb (fun v => match toString v with Some _ => true | None => false end)
          vs.

Record Submission : Type := mkSubmission {
  email : value;
  name : value;
  businessType : value;
  location : value;
  newsletterConsent : value
}.

(** The entry that the waitlist form stores. *)
Definition waitlist_entry (srv : Waitlist.Server) (o : Oracle)
    (body : Submission) : value :=
  Obj ([("id", Str ("wait_" ++ date_now o));
        ("email", email body);
        ("name", or_else (name body) (Str ""));
        ("businessType", or_else (businessType body) (Str ""));
        ("location", or_else (location body) (Str ""))]
       ++ match srv with
          | Waitlist.Current =>
              [("newsletterConsent", Bool (truthy (newsletterConsent body)))]
          | Waitlist.Original => []
          end
       ++ [("joinedAt", Str (iso_now o))]).

(** The interpolations of the notification mail of the waitlist, subject
    first; the older server sends none. *)
Definition waitlist_mail (srv : Waitlist.Server) (body : Submission)
    : list value :=
  match srv with
  | Waitlist.Original => []
  | Waitlist.Current =>
      [or_else (name body) (Str "Someone new");
       or_else (name body) (Str "N/A");
       email body;
       or_else (businessType body) (Str "N/A");
       or_else (location body) (Str "N/A")]
  end.

(** [app.post('/api/waitlist', ...)] *)
Definition post_waitlist (srv : Waitlist.Server) (o : Oracle)
    (body : Submission) (file : File) : Response * File :=
  if negb (truthy (email body))
  then ({| status := 400; payload := Error "Email is required" |}, file)
  else
    match toString (email body) with
    | None => (crashed, file)
    | Some text =>
        if negb (Regex.test emailRegex text)
        then ({| status := 400; payload := Error "Invalid email address" |},
              file)
        else
          match loadJSON file with
          | Arr waitlist =>
              match some_same_email (email body) waitlist with
              | None => (crashed, file)
              | Some true =>
                  ({| status := 400;
                      payload := Error "Email already on waitlist" |}, file)
              | Some false =>
                  let waitlist := waitlist ++ [waitlist_entry srv o body] in
                  match saveJSON (write_ok o) file waitlist with
                  | (true, file') =>
                      if renders (waitlist_mail srv body)
                      then ({| status := 201;
                               payload := Position (List.length waitlist) |},
                            file')
                      else (crashed, file')
                  | (false, file') =>
                      ({| status := 500;
                          payload := Error "Failed to save waitlist entry" |},
                       file')
                  end
              end
          | _ => (crashed, file)
          end
    end.

Record NewsletterBody : Type := mkNewsletterBody {
  nl_email : value;
  nl_name : value
}.

Definition subscriber (o : Oracle) (body : NewsletterBody) : value :=
  Obj [("id", Str ("sub_" ++ date_now o));
       ("email", nl_email body);
       ("name", or_else (nl_name body) (Str ""));
       ("subscribedAt", Str (iso_now o))].

(** [app.post('/api/newsletter', ...)] *)
Definition post_newsletter (o : Oracle) (body : NewsletterBody)
    (file : File) : Response * File :=
  if negb (truthy (nl_email body))
  then ({| status := 400; payload := Error "Email is required" |}, file)
  else
    match toString (nl_email body) with
    | None => (crashed, file)
    | Some text =>
        if negb (Regex.test emailRegex text)
        then ({| status := 400; payload := Error "Invalid email address" |},
              file)
        else
          match loadJSON file with
          | Arr subscribers =>
              match some_same_email (nl_email body) subscribers with
              | None => (crashed, file)
              | Some true =>
                  ({| status := 400;
                      payload := Error "Email already subscribed" |}, file)
              | Some false =>
                  let subscribers := subscribers ++ [subscriber o body] in
                  match saveJSON (write_ok o) file subscribers with
                  | (true, file') =>
                      if renders [nl_email body; nl_email body;
                                  or_else (nl_name body) (Str "N/A")]
                      then ({| status := 201; payload := Subscribed |}, file')
                      else (crashed, file')
                  | (false, file') =>
                      ({| status := 500;
                          payload := Error "Failed to save subscription" |},
                       file')
                  end
              end
          | _ => (crashed, file)
          end
    end.

Record EarlyBody : Type := mkEarlyBody {
  ea_email : value;
  ea_name : value;
  ea_businessType : value;
  ea_location : value;
  ea_phone : value;
  ea_notes : value
}.

Definition early_entry (o : Oracle) (body : EarlyBody) : value :=
  Obj [("id", Str ("ea_" ++ date_now o));
       ("email", ea_email body);
       ("name", ea_name body);
       ("businessType", ea_businessType body);
       ("location", ea_location body);
       ("phone", or_else (ea_phone body) (Str ""));
       ("notes", or_else (ea_notes body) (Str ""));
       ("requestedAt", Str (iso_now o))].

Definition early_mail (body : EarlyBody) : list value :=
  [ea_name body; ea_name body; ea_email body; ea_businessType body;
   ea_location body; or_else (ea_phone body) (Str "N/A");
   or_else (ea_notes body) (Str "N/A")].

(** [app.post('/api/early-access', ...)] *)
Definition post_early_access (o : Oracle) (body : EarlyBody)
    (file : File) : Response * File :=
  if negb (truthy (ea_email body)) || negb (truthy (ea_name body))
     || negb (truthy (ea_businessType body))
     || negb (truthy (ea_location body))
  then ({| status := 400; payload := Error "Missing required fields" |}, file)
  else
    match toString (ea_email body) with
    | None => (crashed, file)
    | Some text =>
        if negb (Regex.test emailRegex text)
        then ({| status := 400; payload := Error "Invalid email address" |},
              file)
        else
          match loadJSON file with
          | Arr entries =>
              match some_same_email (ea_email body) entries with
              | None => (crashed, file)
              | Some true =>
                  ({| status := 400;
                      payload :=
                        Error "Email already requested early access" |},
                   file)
              | Some false =>
                  let entries := entries ++ [early_entry o body] in
                  match saveJSON (write_ok o) file entries with
                  | (true, file') =>
                      if renders (early_mail body)
                      then ({| status := 201;
                               payload := Position (List.length entries) |},
                            file')
                      else (crashed, file')
                  | (false, file') =>
                      ({| status := 500;
                          payload :=
                            Error "Failed to save early access request" |},
                       file')
                  end
              end
          | _ => (crashed, file)
          end
    end.

Record ApplicationBody : Type := mkApplicationBody {
  ab_farmName : value;
  ab_location : value;
  ab_farmSize : value;
  ab_specialties : value;
  ab_certifications : value;
  ab_contactName : value;
  ab_phone : value;
  ab_email : value;
  ab_experience : value;
  ab_message : value
}.

(** The application that the form stores; [size] is what [parseInt] made
    of the text of [farmSize]. *)
Definition application (o : Oracle) (body : ApplicationBody) (size : value)
    : value :=
  Obj [("id", Str ("app_" ++ date_now o));
       ("farmName", ab_farmName body);
       ("location", ab_location body);
       ("farmSize", size);
       ("specialties", ab_specialties body);
       ("certifications", or_else (ab_certifications body) (Str ""));
       ("contactName", ab_contactName body);
       ("phone", ab_phone body);
       ("email", ab_email body);
       ("experience", ab_experience body);
       ("message", or_else (ab_message body) (Str ""));
       ("status", Str "pending");
       ("submittedAt", Str (iso_now o))].

Definition application_mail (body : ApplicationBody) : list value :=
  [ab_farmName body; ab_farmName body; ab_location body; ab_farmSize body;
   ab_specialties body; or_else (ab_certifications body) (Str "N/A");
   ab_contactName body; ab_phone body; ab_email body; ab_experience body;
   or_else (ab_message body) (Str "")].

(** [app.post('/api/farm-applications', ...)].  [parseInt] is the built-in,
    taken on the text of its argument, with its result as [JSON.stringify]
    writes it: a number, or [null] when it found none. *)
Definition post_farm_application (parseInt : string -> value) (o : Oracle)
    (body : ApplicationBody) (file : File) : Response * File :=
  if negb (truthy (ab_farmName body)) || negb (truthy (ab_location body))
     || negb (truthy (ab_farmSize body)) || negb (truthy (ab_specialties body))
     || negb (truthy (ab_contactName body)) || negb (truthy (ab_phone body))
     || negb (truthy (ab_email body)) || negb (truthy (ab_experience body))
  then ({| status := 400; payload := Error "Missing required fields" |}, file)
  else
    match toString (ab_email body) with
    | None => (crashed, file)
    | Some text =>
        if negb (Regex.test emailRegex text)
        then ({| status := 400; payload := Error "Invalid email address" |},
              file)
        else
          match toString (ab_farmSize body) with
          | None => (crashed, file)
          | Some size =>
              match loadJSON file with
              | Arr applications =>
                  let applications :=
                    applications ++ [application o body (parseInt size)] in
                  match saveJSON (write_ok o) file applications with
                  | (true, file') =>
                      if renders (application_mail body)
                      then ({| status := 201;
                               payload := Created ("app_" ++ date_now o) |},
                            file')
                      else (crashed, file')
                  | (false, file') =>
                      ({| status := 500;
                          payload := Error "Failed to save application" |},
                       file')
                  end
              | _ => (crashed, file)
              end
          end
    end.

(** What [v.length] gives: a count, for an array or a string, or whatever
    the value has under that name. *)
Inductive Length : Type :=
| Elements (n : nat)
| Property (v : value).

(** [v.length]: [None] when the read throws. *)
Definition length_of (v : value) : option Length :=
  match v with
  | Undefined | Null => None
  | Arr l => Some (Elements (List.length l))
  | Str s => Some (Elements (String.length s))
  | Obj props => Some (Property (get "length" props))
  | _ => Some (Property Undefined)
  end.

(** [applications.filter(a => a.status === text).length] *)
Definition count_status (text : string) (applications : list value)
    : option nat :=
  option_map (@List.length value)
    (filter_with (fun a => option_map (is_text text) (prop "status" a))
                 applications).

Record Stats : Type := mkStats {
  applications_total : nat;
  applications_pending : nat;
  applications_approved : nat;
  applications_rejected : nat;
  newsletter_total : Length;
  waitlist_total : Length;
  earlyAccess_total : Length
}.

(** [app.get('/api/admin/stats', ...)]: [None] when the handler throws and
    the error middleware answers 500. *)
Definition get_stats (applicationsFile newsletterFile waitlistFile
                        earlyAccessFile : File) : option Stats :=
  match loadJSON applicationsFile with
  | Arr applications =>
      match count_status "pending" applications,
            count_status "approved" applications,
            count_status "rejected" applications,
            length_of (loadJSON newsletterFile),
            length_of (loadJSON waitlistFile),
            length_of (loadJSON earlyAccessFile) with
      | Some pending, Some approved, Some rejected,
        Some newsletter, Some waitlist, Some early =>
          Some {| applications_total := List.length applications;
                  applications_pending := pending;
                  applications_approved := approved;
                  applications_rejected := rejected;
                  newsletter_total := newsletter;
                  waitlist_total := waitlist;
                  earlyAccess_total := early |}
      | _, _, _, _, _, _ => None
      end
  | _ => None
  end.

(** [const escape = (val) => ...]: [None] when [String(val)] throws. *)
Definition escape (val : value) : option string :=
  match val with
  | Undefined | Null => Some ""
  | _ =>
      match toString val with
      | None => None
      | Some text =>
          let str :=
            replace_all_char CsvExport.quote (dquote ++ dquote) text in
          Some (if includes str "," || includes str newline
                then (dquote ++ str ++ dquote)%string else str)
      end
  end.

(** [list.map(f)] with a callback that may throw *)
Fixpoint map_with {A B : Type} (f : A -> option B) (l : list A)
    : option (list B) :=
  match l with
  | [] => Some []
  | x :: r =>
      match f x, map_with f r with
      | Some y, Some r' => Some (y :: r')
      | _, _ => None
      end
  end.

(** [headers.map(h => escape(r[h])).join(',')] *)
Definition line (headers : list string) (r : value) : option string :=
  option_map (join ",")
    (map_with (fun h => match prop h r with
                        | Some v => escape v
                        | None => None
                        end) headers).

(** [[headers.join(',')].concat(rows.map(...)).join('\n')] *)
Definition csv (headers : list string) (rows : list value) : option string :=
  option_map (fun lines => join newline (join "," headers :: lines))
             (map_with (line headers) rows).

Record Disk : Type := mkDisk {
  waitlistFile : File;
  earlyAccessFile : File;
  newsletterFile : File
}.

(** [res.send(csv)] of the rows of [file] *)
Definition send_csv (type : string) (headers : list string) (file : File)
    : CsvExport.Response :=
  match loadJSON file with
  | Arr rows =>
      match csv headers rows with
      | Some body => CsvExport.Attachment (type ++ "-export.csv") body
      | None => CsvExport.Failure 500 "Something went wrong!"
      end
  | _ => CsvExport.Failure 500 "Something went wrong!"
  end.

(** [app.get('/api/admin/export/:type', ...)] *)
Definition get_export (type : string) (disk : Disk) : CsvExport.Response :=
  if String.eqb type "waitlist"
  then send_csv type CsvExport.waitlist_headers (waitlistFile disk)
  else if String.eqb type "early"
  then send_csv type CsvExport.early_headers (earlyAccessFile disk)
  else if String.eqb type "newsletter"
  then send_csv type CsvExport.newsletter_headers (newsletterFile disk)
  else if existsb (String.eqb type) CsvExport.inherited
  then CsvExport.Failure 500 "Something went wrong!"
  else CsvExport.Failure 400
         "Unsupported export type. Use waitlist, early, or newsletter.".

End Server.

(* ================================================================== *)
(** * Vocabulary: letter case *)

(** The capital letters below code unit 256, by their numbers. *)
Definition capital (n : nat) : bool :=
  ((65 <=? n) && (n <=? 90) || (192 <=? n) && (n <=? 214)
   || (216 <=? n) && (n <=? 222))%nat.

(** The same character, or a capital letter and its small letter. *)
Definition same_letter (c d : ascii) : bool :=
  let m := nat_of_ascii c in
  let n := nat_of_ascii d in
  ((m =? n) || capital m && (n =? m + 32) || capital n && (m =? n + 32))%nat.

(** "[a] and [b] are equal up to the case of their letters". *)
Fixpoint eq_ci (a b : string) : bool :=
  match a, b with
  | EmptyString, EmptyString => true
  | String c a', String d b' => same_letter c d && eq_ci a' b'
  | _, _ => false
  end.

(** "[q] occurs in [s], up to the case of the letters". *)
Definition occurs_ci (s q : string) : Prop :=
  exists pre mid post,
    s = (pre ++ mid ++ post)%string /\ eq_ci mid q = true.

(* ================================================================== *)
(** * Vocabulary: the data files *)

(** The stored element has a string under [email]. *)
Definition has_address (x : Json.value) : Prop :=
  exists e, Json.prop "email" x = Some (Json.Str e).

(** The file is absent, or holds an array whose elements all have a string
    under [email]. *)
Definition string_addresses (file : Json.File) : Prop :=
  exists l, Json.loadJSON file = Json.Arr l /\ Forall has_address l.

(** The address of a stored element, in small letters. *)
Definition address (x : Json.value) : option string :=
  match Json.prop "email" x with
  | Some (Json.Str e) => Some (toLowerCase e)
  | _ => None
  end.

(** No two stored elements have the same address up to case. *)
Definition distinct_addresses (l : list Json.value) : Prop :=
  NoDup (map address l).

(** The statistics with one more pending application. *)
Definition one_more_application (s : Server.Stats) : Server.Stats :=
  {| Server.applications_total := S (Server.applications_total s);
     Server.applications_pending := S (Server.applications_pending s);
     Server.applications_approved := Server.applications_approved s;
     Server.applications_rejected := Server.applications_rejected s;
     Server.newsletter_total := Server.newsletter_total s;
     Server.waitlist_total := Server.waitlist_total s;
     Server.earlyAccess_total := Server.earlyAccess_total s |}.

Module ServerDemo.
Import Json Server.

Definition signup (e : Json.value) (n : Json.value) : Submission :=
  {| email := e; name := n; businessType := Undefined;
     location := Str "Accra"; newsletterConsent := Bool true |}.

(** The body [{"email": ..., "name": {"toString": 1}}]. *)
Definition odd_name : Json.value := Obj [("toString", Num "1")].

(** The body [{"email": ["a@b.co"]}]. *)
Definition listed : Json.value := Arr [Str "a@b.co"].

Definition ama : Json.value :=
  Obj [("id", Str "wait_1706788800000");
       ("email", Str "Ama@Farm.gh");
       ("name", Str "Ama, K.");
       ("businessType", Str "");
       ("location", Str "Accra");
       ("newsletterConsent", Bool true);
       ("joinedAt", Str "2024-02-01T12:00:00.000Z")].

(** A vegetable whose name begins with a capital E with an acute accent,
    code unit 201. *)
Definition epinard : Catalog.Item :=
  {| Catalog.item_id := "epinard";
     Catalog.item_name := String (ascii_of_nat 201) "pinard";
     Catalog.item_season := "October-March" |}.

Definition leaves : Catalog.Category :=
  {| Catalog.cat_id := "leaves"; Catalog.cat_name := "Leafy Greens";
     Catalog.cat_items := [epinard] |}.

Definition kofi : Json.value :=
  Obj [("id", Str "sub_1706700000000");
       ("email", Str "Kofi@Farm.gh");
       ("name", Str "");
       ("subscribedAt", Str "2024-01-31T11:20:00.000Z")].

Definition on_disk (waitlist : File) : Disk :=
  {| waitlistFile := waitlist; earlyAccessFile := None;
     newsletterFile := None |}.

Definition subscribe (e : Json.value) (n : Json.value) : NewsletterBody :=
  {| nl_email := e; nl_name := n |}.

Definition apply_with (n : Json.value) : ApplicationBody :=
  {| ab_farmName := n; ab_location := Str "Tamale";
     ab_farmSize := Num "12"; ab_specialties := Str "Yam";
     ab_certifications := Undefined; ab_contactName := Str "Esi";
     ab_phone := Str "0200000000"; ab_email := Str "esi@farm.gh";
     ab_experience := Str "10 years"; ab_message := Undefined |}.

(** A stand-in for [parseInt] that takes the text for the number. *)
Definition digits (text : string) : Json.value := Num text.

End ServerDemo.

(* ================================================================== *)
(** * Properties of the string primitives *)

Lemma startsWith_app (p post : string) : startsWith p (p ++ post)%string = true.
Proof.
  induction p as [|c p IH]; simpl.
  - reflexivity.
  - rewrite Ascii.eqb_refl. exact IH.
Qed.

Lemma startsWith_inv (p s : string) :
  startsWith p s = true -> exists post, s = (p ++ post)%string.
Proof.
  revert s. induction p as [|c p IH]; intros s H.
  - exists s. reflexivity.
  - destruct s as [|d s]; simpl in H; [discriminate|].
    apply andb_true_iff in H. destruct H as [Hc Hp].
    apply Ascii.eqb_eq in Hc. subst d.
    destruct (IH _ Hp) as [post ->]. exists post. reflexivity.
Qed.

Lemma includes_unfold (s needle : string) :
  includes s needle =
  startsWith needle s
  || match s with
     | EmptyString => false
     | String _ r => includes r needle
     end.
Proof. destruct s; reflexivity. Qed.

(** [includes] decides the substring relation. *)
Lemma includes_spec (s needle : string) :
  includes s needle = true <-> exists pre post, s = (pre ++ needle ++ post)%string.
Proof.
  split.
  - induction s as [|c s IH]; rewrite includes_unfold; intro H;
      apply orb_true_iff in H; destruct H as [H|H].
    + destruct (startsWith_inv _ _ H) as [post ->]. exists "", post. reflexivity.
    + discriminate.
    + destruct (startsWith_inv _ _ H) as [post Hs]. exists "", post. exact Hs.
    + destruct (IH H) as (pre & post & ->). exists (String c pre), post.
      reflexivity.
  - intros (pre & post & ->). induction pre as [|c pre IH].
    + rewrite includes_unfold. simpl. rewrite startsWith_app. reflexivity.
    + rewrite includes_unfold. simpl. rewrite IH. apply orb_true_r.
Qed.

Lemma contains_ci_includes (s q : string) :
  includes (toLowerCase s) (toLowerCase q) = true <-> contains_ci s q.
Proof. apply includes_spec. Qed.

Lemma truthy_opt_some (s : string) : truthy_opt (Some s) = true <-> s <> "".
Proof.
  simpl. rewrite negb_true_iff. split.
  - intros H ->. discriminate.
  - intro H. apply String.eqb_neq. exact H.
Qed.

Example uuid_accepts :
  Uuid.isValidUUID "123e4567-E89B-42d3-a456-426614174000" = true.
Proof. reflexivity. Qed.

Example uuid_rejects_version_1 :
  Uuid.isValidUUID "123e4567-e89b-12d3-a456-426614174000" = false.
Proof. reflexivity. Qed.

Example uuid_rejects_trailing :
  Uuid.isValidUUID "123e4567-e89b-42d3-a456-426614174000 " = false.
Proof. reflexivity. Qed.

Example lower_mixed : toLowerCase "Year-Round" = "year-round".
Proof. reflexivity. Qed.

Example bearer_strips_first :
  replace_first "Bearer " "" "Bearer s3cret" = "s3cret".
Proof. reflexivity. Qed.

(* ================================================================== *)
(** * Catalogue queries *)

Section CatalogFacts.
Import Catalog.

Variable categories : list Category.
Variable farms : list Farm.

Lemma in_selected (sel : Category -> bool) (l : Listing) :
  In l (flat_map (fun cat =>
                    if sel cat then map (listing cat) (cat_items cat) else [])
                 categories)
  <-> exists cat item,
        In cat categories /\ In item (cat_items cat) /\ l = listing cat item
        /\ sel cat = true.
Proof.
  rewrite in_flat_map. split.
  - intros (cat & Hcat & Hl). destruct (sel cat) eqn:Hsel; [|contradiction].
    apply in_map_iff in Hl. destruct Hl as (item & <- & Hitem).
    exists cat, item. auto.
  - intros (cat & item & Hcat & Hitem & -> & Hsel).
    exists cat. split; [exact Hcat|]. rewrite Hsel.
    apply in_map. exact Hitem.
Qed.

Lemma get_produce_items (category season : option string) :
  produce_items (get_produce categories category season)
  = filter (season_keeps season)
      (flat_map (fun cat =>
                   if category_selected category cat
                   then map (listing cat) (cat_items cat) else [])
                categories).
Proof.
  assert (Hall : forall (l : list Listing), filter (fun _ => true) l = l).
  { induction l as [|x l IH]; simpl; [|rewrite IH]; reflexivity. }
  unfold get_produce, season_keeps, truthy_opt. cbn [produce_items].
  destruct season as [s|].
  - destruct (negb (String.eqb s "")).
    + reflexivity.
    + symmetry. apply Hall.
  - symmetry. apply Hall.
Qed.

Lemma category_selected_some (category : string) (cat : Category) :
  category <> "" ->
  category_selected (Some category) cat = true <-> cat_id cat = category.
Proof.
  intro Hne. unfold category_selected.
  assert (Ht : truthy_opt (Some category) = true)
    by (apply truthy_opt_some; exact Hne).
  rewrite Ht. simpl. apply String.eqb_eq.
Qed.

(** C5, as the code has it.  [GET /api/produce?category=C] with a non-empty
    C: a listing is in the answer exactly when its category's id is equal
    to C (the comparison is [===], case-sensitive and on the whole id) and
    the season filter, if one is given, keeps it. *)
Theorem produce_category_is_exact (category : string)
    (season : option string) (l : Listing) :
  category <> "" ->
  In l (produce_items (get_produce categories (Some category) season))
  <-> exists cat item,
        In cat categories /\ In item (cat_items cat) /\ l = listing cat item
        /\ cat_id cat = category /\ season_keeps season l = true.
Proof.
  intro Hne. rewrite get_produce_items, filter_In, in_selected. split.
  - intros [(cat & item & Hcat & Hitem & Hl & Hsel) Hkeep].
    exists cat, item. repeat split; auto.
    apply (category_selected_some category cat Hne), Hsel.
  - intros (cat & item & Hcat & Hitem & Hl & Hid & Hkeep).
    split; [|exact Hkeep]. exists cat, item. repeat split; auto.
    apply (category_selected_some category cat Hne), Hid.
Qed.

End CatalogFacts.

Example search_mango :
  Catalog.get_search CatalogDemo.categories CatalogDemo.farms (Some "MANGO")
  = Catalog.Found "MANGO" 2
      {| Catalog.results_produce :=
           [Catalog.listing CatalogDemo.fruits CatalogDemo.mango];
         Catalog.results_farms := [CatalogDemo.green_valley] |}.
Proof. reflexivity. Qed.

(** C5 as stated fails: ["FRUIT"] is contained in the id ["fruits"],
    case-insensitively, and yet no item of that category is returned. *)
Lemma category_substring_not_matched :
  contains_ci (Catalog.cat_id CatalogDemo.fruits) "FRUIT"
  /\ ~ In (Catalog.listing CatalogDemo.fruits CatalogDemo.mango)
         (Catalog.produce_items
            (Catalog.get_produce CatalogDemo.categories (Some "FRUIT") None)).
Proof.
  split.
  - exists "", "s". reflexivity.
  - simpl. tauto.
Qed.

Lemma produce_category_is_exact_witness :
  In (Catalog.listing CatalogDemo.fruits CatalogDemo.mango)
     (Catalog.produce_items
        (Catalog.get_produce CatalogDemo.categories (Some "fruits") None)).
Proof.
  apply (produce_category_is_exact CatalogDemo.categories "fruits" None).
  - discriminate.
  - exists CatalogDemo.fruits, CatalogDemo.mango. simpl. auto.
Defined.

(* ================================================================== *)
(** * The blog-post admin function *)

Section BlogAdminFacts.
Import Store BlogAdmin.

Variable env : Env.
Variable o : Oracle.

Lemma configured_guard :
  configured env ->
  negb (truthy_opt (SUPABASE_URL env))
  || negb (truthy_opt (SUPABASE_SERVICE_ROLE_KEY env)) = false.
Proof. intros [-> ->]. reflexivity. Qed.

Lemma handler_put (event : Event) (f : Fields) (w : World) :
  configured env ->
  authorized (verifyAdminAuth env event) = true ->
  httpMethod event = "PUT" ->
  body event = Parsed f ->
  handler env o event w = do_put o f w.
Proof.
  intros Hc Ha Hm Hb. unfold handler. rewrite Hm, (configured_guard Hc), Ha.
  simpl. unfold with_body. rewrite Hb. reflexivity.
Qed.

Lemma handler_delete (event : Event) (f : Fields) (w : World) :
  configured env ->
  authorized (verifyAdminAuth env event) = true ->
  httpMethod event = "DELETE" ->
  body event = Parsed f ->
  handler env o event w = do_delete o f w.
Proof.
  intros Hc Ha Hm Hb. unfold handler. rewrite Hm, (configured_guard Hc), Ha.
  simpl. unfold with_body. rewrite Hb. reflexivity.
Qed.

Lemma handler_get (event : Event) (w : World) :
  configured env ->
  httpMethod event = "GET" ->
  handler env o event w = do_get o (query_id event) w.
Proof.
  intros Hc Hm. unfold handler. rewrite Hm, (configured_guard Hc).
  reflexivity.
Qed.

Lemma truthy_string (s : string) : s <> "" -> truthy (JString s) = true.
Proof. intro H. simpl. apply negb_true_iff, String.eqb_neq, H. Qed.

Lemma jsval_eqb_eq (a b : jsval) : jsval_eqb a b = true <-> a = b.
Proof.
  destruct a, b; simpl; split; intro H; try discriminate; try reflexivity.
  - apply Bool.eqb_prop in H. subst. reflexivity.
  - injection H as ->. apply Bool.eqb_reflx.
  - apply String.eqb_eq in H. subst. reflexivity.
  - injection H as ->. apply String.eqb_refl.
Qed.

(** The check on a row that is there, when the service serves the lookup. *)
Lemma ownership_check_served (pid : string) (owner : jsval) (w : World)
    (existing : Post) (others : list Post) :
  truthy owner = true ->
  upstream o 0 = Serves ->
  filter (has_id pid) (table w) = existing :: others ->
  ownership_check o pid owner w
  = (if truthy (post_owner_id existing)
        && negb (jsval_eqb (post_owner_id existing) owner)
     then Denied else Proceed 1,
     logged (SelectOwner pid) w).
Proof.
  intros Ht Hu Hf. unfold ownership_check, fetch. rewrite Ht, Hu.
  simpl. rewrite Hf.
  destruct (truthy (post_owner_id existing)
            && negb (jsval_eqb (post_owner_id existing) owner));
    reflexivity.
Qed.

(** The check when the lookup is answered with a non-2xx status. *)
Lemma ownership_check_refused (pid : string) (owner : jsval) (w : World)
    (st : Z) (text : string) :
  truthy owner = true ->
  upstream o 0 = Refuses st text ->
  ownership_check o pid owner w = (Proceed 1, logged (SelectOwner pid) w).
Proof.
  intros Ht Hu. unfold ownership_check, fetch. rewrite Ht, Hu. reflexivity.
Qed.

(** The check when the lookup cannot be made: [fetch] rejects. *)
Lemma ownership_check_thrown (pid : string) (owner : jsval) (w : World)
    (m : string) :
  truthy owner = true ->
  upstream o 0 = Unreachable m ->
  ownership_check o pid owner w = (Crashed m, logged (SelectOwner pid) w).
Proof.
  intros Ht Hu. unfold ownership_check, fetch. rewrite Ht, Hu. reflexivity.
Qed.

Lemma ownership_check_skipped (pid : string) (owner : jsval) (w : World) :
  truthy owner = false ->
  ownership_check o pid owner w = (Proceed 0, w).
Proof. intro Ht. unfold ownership_check. rewrite Ht. reflexivity. Qed.

Lemma patched_updated_at (pid : string) (q : Patch) (t : list Post) (p : Post) :
  In p (patched pid q t) -> post_id p = pid ->
  post_updated_at p = patch_updated_at q.
Proof.
  unfold patched. intros Hin Hid. apply in_map_iff in Hin.
  destruct Hin as (p0 & Hp & _). destruct (has_id pid p0) eqn:Hh.
  - subst p. reflexivity.
  - subst p. unfold has_id in Hh. apply String.eqb_neq in Hh. contradiction.
Qed.

Lemma do_put_valid (f : Fields) (pid : string) (w : World) :
  id f = JString pid ->
  Uuid.isValidUUID pid = true ->
  do_put o f w
  = match ownership_check o pid (owner_id f) w with
    | (Denied, w1) => respond 403 (Error access_denied) w1
    | (Crashed m, w1) => caught m w1
    | (Proceed k, w1) =>
        match fetch (Update pid (updatePayload o f)) (upstream o k) w1 with
        | (Ok _ rows, w2) => respond 200 (Rows rows) w2
        | (NotOk st text, w2) => respond st (text_or text "Update failed.") w2
        | (Thrown m, w2) => caught m w2
        end
    end.
Proof.
  intros Hid Hv. unfold do_put. rewrite Hid. simpl js_String.
  assert (Hne : pid <> "") by (intros ->; discriminate Hv).
  rewrite (truthy_string pid Hne), Hv. reflexivity.
Qed.

Lemma do_delete_valid (f : Fields) (pid : string) (w : World) :
  id f = JString pid ->
  Uuid.isValidUUID pid = true ->
  do_delete o f w
  = match ownership_check o pid (owner_id f) w with
    | (Denied, w1) => respond 403 (Error access_denied) w1
    | (Crashed m, w1) => caught m w1
    | (Proceed k, w1) =>
        match fetch (Remove pid) (upstream o k) w1 with
        | (Ok _ _, w2) => respond 200 (Deleted pid) w2
        | (NotOk st text, w2) => respond st (text_or text "Delete failed.") w2
        | (Thrown m, w2) => caught m w2
        end
    end.
Proof.
  intros Hid Hv. unfold do_delete. rewrite Hid. simpl js_String.
  assert (Hne : pid <> "") by (intros ->; discriminate Hv).
  rewrite (truthy_string pid Hne), Hv. reflexivity.
Qed.

End BlogAdminFacts.

Section BlogAdminClaims.
Import Store BlogAdmin.

Variable env : Env.
Variable o : Oracle.

Lemma opt_eqb_eq (a b : option string) : opt_eqb a b = true <-> a = b.
Proof.
  destruct a as [x|], b as [y|]; simpl; split; intro H;
    try discriminate; try reflexivity.
  - apply String.eqb_eq in H. subst. reflexivity.
  - injection H as ->. apply String.eqb_refl.
Qed.

Lemma mutating_cases (m : string) :
  mutating m = true -> m = "POST" \/ m = "PUT" \/ m = "DELETE".
Proof.
  unfold mutating. simpl. rewrite orb_false_r, !orb_true_iff, !String.eqb_eq.
  tauto.
Qed.

Lemma unauthorized_without_key (event : Event) :
  bearer_token event = None \/ bearer_token event <> ADMIN_API_KEY env ->
  authorized (verifyAdminAuth env event) = false.
Proof.
  intro H. unfold verifyAdminAuth. unfold bearer_token in H.
  destruct (opt_or (header_authorization event) (header_Authorization event))
    as [h|]; [|reflexivity].
  destruct (truthy_opt (Some h)); [|reflexivity]. cbn [negb].
  set (token := replace_first "Bearer " "" h) in *.
  destruct H as [H|H]; [discriminate|].
  assert (Hk : opt_eqb (Some token) (ADMIN_API_KEY env) = false).
  { destruct (opt_eqb (Some token) (ADMIN_API_KEY env)) eqn:He;
      [|reflexivity].
    apply opt_eqb_eq in He. contradiction. }
  rewrite Hk. simpl. rewrite orb_true_r. reflexivity.
Qed.

(** C3, as the code has it, for the admin function.  With the table URL
    and service key configured, a POST, PUT or DELETE whose token (the
    [Authorization] header less its first ["Bearer "]) is missing or differs
    from [ADMIN_API_KEY] is answered 401 and the table is neither changed
    nor called; a GET is answered as if it carried no header and no admin
    key existed. *)
Theorem admin_key_gate (event : Event) (w : World) :
  configured env ->
  (mutating (httpMethod event) = true ->
   bearer_token event = None \/ bearer_token event <> ADMIN_API_KEY env ->
   exists msg,
     handler env o event w
     = ({| statusCode := 401; response_body := Error msg |}, w))
  /\
  (httpMethod event = "GET" ->
   handler env o event w
   = handler (without_admin_key env) o (anonymous event) w).
Proof.
  intro Hc. split.
  - intros Hm Htok. unfold handler.
    rewrite (configured_guard env Hc), Hm,
      (unauthorized_without_key event Htok).
    assert (Hopt : String.eqb (httpMethod event) "OPTIONS" = false).
    { destruct (mutating_cases _ Hm) as [->|[->| ->]]; reflexivity. }
    rewrite Hopt. simpl. eexists. reflexivity.
  - intro Hm. unfold handler, anonymous, without_admin_key. simpl.
    rewrite Hm. reflexivity.
Qed.

(** C1, as the code has it.  A PUT that passes the token gate and names, by
    a well-formed id, a stored post owned by a non-empty A:
    - with a non-empty owner_id B other than A, and the lookup served, it is
      answered 403 and the table is as it was;
    - with owner_id A, and both calls served, or with no owner_id, and the
      PATCH served, it is answered 200, the rows with that id are patched
      and every one of them carries the clock reading as [updated_at].
    What happens when the lookup is not served is the matter of C2. *)
Theorem put_respects_owner (event : Event) (f : Fields) (pid : string)
    (w : World) (existing : Post) (others : list Post) (A : string) :
  configured env ->
  authorized (verifyAdminAuth env event) = true ->
  httpMethod event = "PUT" ->
  body event = Parsed f ->
  id f = JString pid ->
  Uuid.isValidUUID pid = true ->
  filter (has_id pid) (table w) = existing :: others ->
  post_owner_id existing = JString A ->
  A <> "" ->
  let q := updatePayload o f in
  (forall B, owner_id f = JString B -> B <> "" -> B <> A ->
             upstream o 0 = Serves ->
             handler env o event w
             = ({| statusCode := 403; response_body := Error access_denied |},
                {| table := table w;
                   log := (log w ++ [SelectOwner pid])%list |}))
  /\
  (owner_id f = JString A ->
   upstream o 0 = Serves -> upstream o 1 = Serves ->
   handler env o event w
   = ({| statusCode := 200;
         response_body := Rows (map (apply_patch q) (existing :: others)) |},
      {| table := patched pid q (table w);
         log := ((log w ++ [SelectOwner pid]) ++ [Update pid q])%list |}))
  /\
  (truthy (owner_id f) = false ->
   upstream o 0 = Serves ->
   handler env o event w
   = ({| statusCode := 200;
         response_body := Rows (map (apply_patch q) (existing :: others)) |},
      {| table := patched pid q (table w);
         log := (log w ++ [Update pid q])%list |}))
  /\
  (forall p, In p (patched pid q (table w)) -> post_id p = pid ->
             post_updated_at p = now o 0).
Proof.
  intros Hc Ha Hm Hb Hid Hv Hrows Hown HA q.
  rewrite (handler_put env o event f w Hc Ha Hm Hb),
    (do_put_valid o f pid w Hid Hv).
  repeat split.
  - intros B HB HBne HBA Hu.
    rewrite (ownership_check_served o pid (owner_id f) w existing others);
      [|rewrite HB; apply truthy_string; exact HBne|exact Hu|exact Hrows].
    rewrite Hown, HB, (truthy_string A HA).
    assert (Hneq : jsval_eqb (JString A) (JString B) = false).
    { simpl. apply String.eqb_neq. intro E. apply HBA. symmetry. exact E. }
    rewrite Hneq. reflexivity.
  - intros HfA Hu0 Hu1.
    rewrite (ownership_check_served o pid (owner_id f) w existing others);
      [|rewrite HfA; apply truthy_string; exact HA|exact Hu0|exact Hrows].
    rewrite Hown, HfA.
    assert (Heq : jsval_eqb (JString A) (JString A) = true)
      by (apply jsval_eqb_eq; reflexivity).
    rewrite Heq, andb_false_r. unfold fetch. rewrite Hu1. simpl.
    rewrite Hrows. reflexivity.
  - intros Hno Hu0.
    rewrite (ownership_check_skipped o pid (owner_id f) w Hno).
    unfold fetch. rewrite Hu0. simpl. rewrite Hrows. reflexivity.
  - intros p Hin Hp. apply (patched_updated_at pid q (table w) p Hin Hp).
Qed.

(** C2, as the code has it.  When the ownership lookup is answered with a
    non-2xx status the admin function goes on to issue the PATCH or DELETE,
    whoever owns the row, and a served one changes the table.  When the
    lookup cannot be made at all ([fetch] rejects) the admin function
    answers 500 and issues no PATCH and no DELETE.  [updateFarm] and
    [deleteFarm] hand the lookup's error back and leave the table alone. *)
Theorem failed_lookup_skips_check_in_handler_only :
  (forall (event : Event) (f : Fields) (pid : string) (w : World)
          (st : Z) (text : string),
      configured env ->
      authorized (verifyAdminAuth env event) = true ->
      body event = Parsed f ->
      id f = JString pid ->
      Uuid.isValidUUID pid = true ->
      truthy (owner_id f) = true ->
      upstream o 0 = Refuses st text ->
      (httpMethod event = "PUT" ->
       log (snd (handler env o event w))
       = ((log w ++ [SelectOwner pid])
            ++ [Update pid (updatePayload o f)])%list
       /\
       (upstream o 1 = Serves ->
        handler env o event w
        = ({| statusCode := 200;
              response_body :=
                Rows (map (apply_patch (updatePayload o f))
                          (filter (has_id pid) (table w))) |},
           {| table := patched pid (updatePayload o f) (table w);
              log := ((log w ++ [SelectOwner pid])
                        ++ [Update pid (updatePayload o f)])%list |})))
      /\
      (httpMethod event = "DELETE" ->
       log (snd (handler env o event w))
       = ((log w ++ [SelectOwner pid]) ++ [Remove pid])%list
       /\
       (upstream o 1 = Serves ->
        handler env o event w
        = ({| statusCode := 200; response_body := Deleted pid |},
           {| table := filter (fun p => negb (has_id pid p)) (table w);
              log := ((log w ++ [SelectOwner pid]) ++ [Remove pid])%list |}))))
  /\
  (forall (event : Event) (f : Fields) (pid : string) (w : World)
          (m : string),
      configured env ->
      authorized (verifyAdminAuth env event) = true ->
      body event = Parsed f ->
      id f = JString pid ->
      Uuid.isValidUUID pid = true ->
      truthy (owner_id f) = true ->
      upstream o 0 = Unreachable m ->
      httpMethod event = "PUT" \/ httpMethod event = "DELETE" ->
      handler env o event w
      = ({| statusCode := 500;
            response_body :=
              Error (if String.eqb m "" then "Server error" else m) |},
         {| table := table w;
            log := (log w ++ [SelectOwner pid])%list |}))
  /\
  (forall (fo : FarmClient.Oracle) (farmId : string)
          (farmData : JsObject) (farms : list JsObject) (m : string),
      Uuid.isValidUUID farmId = true ->
      FarmClient.select_owner_single (FarmClient.upstream fo 0) farmId farms
      = FarmClient.Failed m ->
      FarmClient.updateFarm fo farmId farmData farms
      = ({| FarmClient.data := FarmClient.DNull;
            FarmClient.error := Some m |}, farms)
      /\
      FarmClient.deleteFarm fo farmId farms
      = ({| FarmClient.data := FarmClient.DNull;
            FarmClient.error := Some m |}, farms)).
Proof.
  split.
  - intros event f pid w st text Hc Ha Hb Hid Hv Ht Hu0. split; intro Hm.
    + rewrite (handler_put env o event f w Hc Ha Hm Hb),
        (do_put_valid o f pid w Hid Hv),
        (ownership_check_refused o pid (owner_id f) w st text Ht Hu0).
      unfold fetch. split.
      * destruct (upstream o 1); reflexivity.
      * intro Hu1. rewrite Hu1. reflexivity.
    + rewrite (handler_delete env o event f w Hc Ha Hm Hb),
        (do_delete_valid o f pid w Hid Hv),
        (ownership_check_refused o pid (owner_id f) w st text Ht Hu0).
      unfold fetch. split.
      * destruct (upstream o 1); reflexivity.
      * intro Hu1. rewrite Hu1. reflexivity.
  - split.
    { intros event f pid w m Hc Ha Hb Hid Hv Ht Hu0 [Hm|Hm].
      - rewrite (handler_put env o event f w Hc Ha Hm Hb),
          (do_put_valid o f pid w Hid Hv),
          (ownership_check_thrown o pid (owner_id f) w m Ht Hu0).
        reflexivity.
      - rewrite (handler_delete env o event f w Hc Ha Hm Hb),
          (do_delete_valid o f pid w Hid Hv),
          (ownership_check_thrown o pid (owner_id f) w m Ht Hu0).
        reflexivity. }
    intros fo farmId farmData farms m Hv Hu.
    unfold FarmClient.updateFarm, FarmClient.deleteFarm.
    rewrite Hv, Hu. split; reflexivity.
Qed.


End BlogAdminClaims.

Lemma put_respects_owner_witness :
  BlogAdmin.handler BlogDemo.env BlogDemo.serving
    (BlogDemo.request "PUT" BlogDemo.bearer (JString BlogDemo.pid)
                      (JString "user-b") None)
    BlogDemo.world
  = ({| BlogAdmin.statusCode := 403;
        BlogAdmin.response_body := BlogAdmin.Error BlogAdmin.access_denied |},
     {| Store.table := [BlogDemo.post];
        Store.log := [Store.SelectOwner BlogDemo.pid] |}).
Proof.
  refine (proj1 (put_respects_owner BlogDemo.env BlogDemo.serving
                   (BlogDemo.request "PUT" BlogDemo.bearer
                      (JString BlogDemo.pid) (JString "user-b") None)
                   (BlogDemo.fields (JString BlogDemo.pid) (JString "user-b"))
                   BlogDemo.pid BlogDemo.world BlogDemo.post [] "user-a"
                   _ _ _ _ _ _ _ _ _) "user-b" _ _ _ _);
    try reflexivity; try discriminate.
  split; reflexivity.
Defined.

Example put_by_owner_updates :
  BlogAdmin.handler BlogDemo.env BlogDemo.serving
    (BlogDemo.request "PUT" BlogDemo.bearer (JString BlogDemo.pid)
                      (JString "user-a") None)
    BlogDemo.world
  = ({| BlogAdmin.statusCode := 200;
        BlogAdmin.response_body := BlogAdmin.Rows [BlogDemo.renamed] |},
     {| Store.table := [BlogDemo.renamed];
        Store.log := [Store.SelectOwner BlogDemo.pid;
                      Store.Update BlogDemo.pid
                        (BlogAdmin.updatePayload BlogDemo.serving
                           (BlogDemo.fields (JString BlogDemo.pid)
                                            (JString "user-a")))] |}).
Proof. reflexivity. Qed.

Lemma failed_lookup_skips_check_in_handler_only_witness :
  BlogAdmin.handler BlogDemo.env BlogDemo.lookup_down
    (BlogDemo.request "DELETE" BlogDemo.bearer (JString BlogDemo.pid)
                      (JString "user-b") None)
    BlogDemo.world
  = ({| BlogAdmin.statusCode := 200;
        BlogAdmin.response_body := BlogAdmin.Deleted BlogDemo.pid |},
     {| Store.table := [];
        Store.log := [Store.SelectOwner BlogDemo.pid;
                      Store.Remove BlogDemo.pid] |}).
Proof.
  refine (proj2 (proj2 (proj1 (failed_lookup_skips_check_in_handler_only
                          BlogDemo.env BlogDemo.lookup_down)
                   (BlogDemo.request "DELETE" BlogDemo.bearer
                      (JString BlogDemo.pid) (JString "user-b") None)
                   (BlogDemo.fields (JString BlogDemo.pid) (JString "user-b"))
                   BlogDemo.pid BlogDemo.world 503%Z "Service Unavailable"
                   _ _ _ _ _ _ _) _) _);
    try reflexivity.
  split; reflexivity.
Defined.

Example farm_lookup_error_returned :
  FarmClient.updateFarm
    {| FarmClient.upstream := fun _ => FarmClient.Serves;
       FarmClient.now := "2024-02-02T00:00:00.000Z";
       FarmClient.user := Some "user-b" |}
    BlogDemo.pid [("name", JString "Renamed")] []
  = ({| FarmClient.data := FarmClient.DNull;
        FarmClient.error := Some FarmClient.not_single |}, []).
Proof. reflexivity. Qed.

(** C2 as stated fails: the lookup of the stored owner fails with an error
    ([fetch] rejects), and the admin function does not go on as if the post
    were unowned: the PUT of another owner is answered 500, no PATCH is
    issued and the post is as it was. *)
Lemma lookup_error_stops_mutation :
  BlogAdmin.handler BlogDemo.env BlogDemo.lookup_unreachable
    (BlogDemo.request "PUT" BlogDemo.bearer (JString BlogDemo.pid)
                      (JString "user-b") None)
    BlogDemo.world
  = ({| BlogAdmin.statusCode := 500;
        BlogAdmin.response_body := BlogAdmin.Error "fetch failed" |},
     {| Store.table := [BlogDemo.post];
        Store.log := [Store.SelectOwner BlogDemo.pid] |}).
Proof. reflexivity. Qed.

(** C1 as stated fails on two counts: when the lookup is answered 503, and
    when the owner_id supplied is the empty string, a PUT that names another
    owner than the stored one is answered 200 and the row is rewritten. *)
Lemma put_by_other_owner_not_denied :
  Store.post_owner_id BlogDemo.post = JString "user-a"
  /\ BlogAdmin.handler BlogDemo.env BlogDemo.lookup_down
       (BlogDemo.request "PUT" BlogDemo.bearer (JString BlogDemo.pid)
                         (JString "user-b") None)
       BlogDemo.world
     = ({| BlogAdmin.statusCode := 200;
           BlogAdmin.response_body := BlogAdmin.Rows [BlogDemo.renamed] |},
        {| Store.table := [BlogDemo.renamed];
           Store.log :=
             [Store.SelectOwner BlogDemo.pid;
              Store.Update BlogDemo.pid
                (BlogAdmin.updatePayload BlogDemo.lookup_down
                   (BlogDemo.fields (JString BlogDemo.pid)
                                    (JString "user-b")))] |})
  /\ BlogAdmin.handler BlogDemo.env BlogDemo.serving
       (BlogDemo.request "PUT" BlogDemo.bearer (JString BlogDemo.pid)
                         (JString "") None)
       BlogDemo.world
     = ({| BlogAdmin.statusCode := 200;
           BlogAdmin.response_body := BlogAdmin.Rows [BlogDemo.renamed] |},
        {| Store.table := [BlogDemo.renamed];
           Store.log :=
             [Store.Update BlogDemo.pid
                (BlogAdmin.updatePayload BlogDemo.serving
                   (BlogDemo.fields (JString BlogDemo.pid) (JString "")))] |}).
Proof. repeat split. Qed.

Lemma admin_key_gate_witness :
  exists msg,
    BlogAdmin.handler BlogDemo.env BlogDemo.serving
      (BlogDemo.request "DELETE" (Some "Bearer guess") (JString BlogDemo.pid)
                        JUndefined None)
      BlogDemo.world
    = ({| BlogAdmin.statusCode := 401;
          BlogAdmin.response_body := BlogAdmin.Error msg |}, BlogDemo.world).
Proof.
  refine (proj1 (admin_key_gate BlogDemo.env BlogDemo.serving
                   (BlogDemo.request "DELETE" (Some "Bearer guess")
                      (JString BlogDemo.pid) JUndefined None)
                   BlogDemo.world _) _ _).
  - split; reflexivity.
  - reflexivity.
  - right. discriminate.
Defined.

(** C3 as stated fails on two counts.  The older blog-post function serves
    a DELETE that carries no token.  And the admin function, when the table
    is not configured, answers a token-less POST with 500, not 401. *)
Lemma mutation_without_token_not_401 :
  bearer_token
    (BlogDemo.request "DELETE" None (JString BlogDemo.pid) JUndefined None)
  = None
  /\ BlogLegacy.handler BlogDemo.env BlogDemo.serving
       (BlogDemo.request "DELETE" None (JString BlogDemo.pid) JUndefined None)
       BlogDemo.world
     = ({| BlogAdmin.statusCode := 200;
           BlogAdmin.response_body := BlogAdmin.Text "Deleted" |},
        {| Store.table := []; Store.log := [Store.Remove BlogDemo.pid] |})
  /\ BlogAdmin.statusCode
       (fst (BlogAdmin.handler BlogDemo.unconfigured BlogDemo.serving
               (BlogDemo.request "POST" None JUndefined JUndefined None)
               BlogDemo.world))
     = 500%Z.
Proof. repeat split. Qed.



(* ================================================================== *)
(** * Waitlist signup *)

Section RegexFacts.
Import Regex.

Variable f : ascii -> ascii.

Lemma deriv_respects (r : re) (c : ascii) :
  respects f r -> deriv (f c) r = deriv c r.
Proof.
  induction r as [| |p|a IHa b IHb|a IHa b IHb|a IHa]; simpl; intro H.
  - reflexivity.
  - reflexivity.
  - rewrite H. reflexivity.
  - destruct H as [Ha Hb]. rewrite (IHa Ha), (IHb Hb). reflexivity.
  - destruct H as [Ha Hb]. rewrite (IHa Ha), (IHb Hb). reflexivity.
  - rewrite (IHa H). reflexivity.
Qed.

Lemma respects_deriv (r : re) (c : ascii) :
  respects f r -> respects f (deriv c r).
Proof.
  induction r as [| |p|a IHa b IHb|a IHa b IHb|a IHa]; simpl; intro H.
  - exact I.
  - exact I.
  - destruct (p c); exact I.
  - destruct H as [Ha Hb]. destruct (nullable a); simpl; auto.
  - destruct H as [Ha Hb]. auto.
  - auto.
Qed.

Lemma test_respects (s : string) :
  forall r, respects f r -> test r (map_string f s) = test r s.
Proof.
  induction s as [|c s IH]; intros r H; simpl.
  - reflexivity.
  - rewrite (deriv_respects r c H). apply IH, respects_deriv, H.
Qed.

End RegexFacts.

Lemma toLowerCase_map (s : string) : toLowerCase s = map_string lower_char s.
Proof. induction s as [|c s IH]; simpl; [|rewrite IH]; reflexivity. Qed.

Lemma lower_char_not_space_at (c : ascii) :
  Waitlist.not_space_at (lower_char c) = Waitlist.not_space_at c.
Proof. destruct c as [[] [] [] [] [] [] [] []]; reflexivity. Qed.

Lemma lower_char_at (c : ascii) :
  Ascii.eqb "@" (lower_char c) = Ascii.eqb "@" c.
Proof. destruct c as [[] [] [] [] [] [] [] []]; reflexivity. Qed.

Lemma lower_char_dot (c : ascii) :
  Ascii.eqb "." (lower_char c) = Ascii.eqb "." c.
Proof. destruct c as [[] [] [] [] [] [] [] []]; reflexivity. Qed.

(** Case does not matter to the e-mail pattern. *)
Lemma emailRegex_case (e : string) :
  Regex.test Waitlist.emailRegex (toLowerCase e)
  = Regex.test Waitlist.emailRegex e.
Proof.
  rewrite toLowerCase_map. apply test_respects. simpl.
  repeat split; intro c;
    first [apply lower_char_not_space_at | apply lower_char_at
          | apply lower_char_dot].
Qed.

Example email_accepts : Regex.test Waitlist.emailRegex "ama@farm.gh" = true.
Proof. reflexivity. Qed.

Example email_accepts_subdomain :
  Regex.test Waitlist.emailRegex "ama@mail.farm.gh" = true.
Proof. reflexivity. Qed.

Example email_rejects_no_dot : Regex.test Waitlist.emailRegex "ama@farm" = false.
Proof. reflexivity. Qed.

Example email_rejects_space :
  Regex.test Waitlist.emailRegex "a ma@farm.gh" = false.
Proof. reflexivity. Qed.

Example email_rejects_two_ats :
  Regex.test Waitlist.emailRegex "ama@@farm.gh" = false.
Proof. reflexivity. Qed.

Section WaitlistFacts.
Import Waitlist.

Variable srv : Server.

End WaitlistFacts.

Example first_signup_stored :
  Waitlist.post_waitlist Waitlist.Current WaitlistDemo.at_noon
    (WaitlistDemo.signup "Ama@Farm.gh") None
  = ({| Waitlist.status := 201; Waitlist.payload := Waitlist.Joined 1 |},
     Some [WaitlistDemo.ama]).
Proof. reflexivity. Qed.

(* ================================================================== *)
(** * CSV export *)

Section CsvFacts.
Import Csv CsvExport.

Lemma str_app_nil_r (s : string) : (s ++ "")%string = s.
Proof. induction s as [|c s IH]; simpl; [|rewrite IH]; reflexivity. Qed.

Lemma str_app_assoc (a b c : string) :
  ((a ++ b) ++ c)%string = (a ++ b ++ c)%string.
Proof. induction a as [|x a IH]; simpl; [|rewrite IH]; reflexivity. Qed.

Lemma str_length_app (a b : string) :
  String.length (a ++ b) = String.length a + String.length b.
Proof. induction a as [|x a IH]; simpl; [|rewrite IH]; reflexivity. Qed.

Lemma includes_char (c : ascii) (s : string) :
  includes s (String c "") = has_char c s.
Proof.
  induction s as [|a s IH]; rewrite includes_unfold; simpl.
  - reflexivity.
  - rewrite IH, andb_true_r. reflexivity.
Qed.

Lemma doubled_cons (a : ascii) (s : string) :
  doubled (String a s)
  = if Ascii.eqb a quote then String quote (String quote (doubled s))
    else String a (doubled s).
Proof. unfold doubled. simpl. destruct (Ascii.eqb a quote); reflexivity. Qed.

Lemma has_char_doubled (c : ascii) (s : string) :
  c <> quote -> has_char c (doubled s) = has_char c s.
Proof.
  intro Hc. apply Ascii.eqb_neq in Hc.
  induction s as [|a s IH]; [reflexivity|].
  rewrite doubled_cons. destruct (Ascii.eqb a quote) eqn:Ha.
  - apply Ascii.eqb_eq in Ha. subst a. simpl. rewrite Hc, IH. reflexivity.
  - simpl. rewrite IH. reflexivity.
Qed.

Lemma has_quote_doubled (s : string) :
  has_char quote s = true -> includes (doubled s) (dquote ++ dquote) = true.
Proof.
  induction s as [|a s IH]; cbn [has_char]; [discriminate|].
  intro H. rewrite doubled_cons, includes_unfold.
  destruct (Ascii.eqb a quote) eqn:Ha.
  - reflexivity.
  - rewrite Ascii.eqb_sym, Ha in H. cbn [orb] in H.
    rewrite (IH H). apply orb_true_r.
Qed.

Lemma count_doubled (s : string) :
  count quote (doubled s) = 2 * count quote s.
Proof.
  induction s as [|a s IH]; [reflexivity|].
  rewrite doubled_cons. destruct (Ascii.eqb a quote) eqn:Ha.
  - simpl. rewrite Ha, IH. simpl. lia.
  - simpl. rewrite Ha, IH. lia.
Qed.

(** Doubling the quotes loses nothing. *)
Lemma undouble_doubled (s : string) : undouble false (doubled s) = s.
Proof.
  induction s as [|a s IH]; [reflexivity|].
  rewrite doubled_cons. destruct (Ascii.eqb a quote) eqn:Ha.
  - apply Ascii.eqb_eq in Ha. subst a. simpl. rewrite IH. reflexivity.
  - simpl. rewrite Ha, IH. reflexivity.
Qed.

Variable delim : ascii.
Hypothesis delim_not_quote : delim <> quote.

Lemma scan_app (a b : string) :
  forall inq,
    scan delim inq (a ++ b)
    = match scan delim inq a with
      | Some i => scan delim i b
      | None => None
      end.
Proof.
  induction a as [|c a IH]; intro inq; simpl; [reflexivity|].
  destruct (Ascii.eqb c quote); [apply IH|].
  destruct (Ascii.eqb c delim && negb inq); [reflexivity|apply IH].
Qed.

Lemma split_app (t rest : string) :
  forall inq inq' cur,
    scan delim inq t = Some inq' ->
    split_unquoted delim inq cur (t ++ rest)
    = split_unquoted delim inq' (cur ++ t) rest.
Proof.
  induction t as [|c t IH]; intros inq inq' cur H; simpl in *.
  - injection H as <-. rewrite str_app_nil_r. reflexivity.
  - destruct (Ascii.eqb c quote).
    + rewrite (IH _ _ _ H), str_app_assoc. reflexivity.
    + destruct (Ascii.eqb c delim && negb inq); [discriminate|].
      rewrite (IH _ _ _ H), str_app_assoc. reflexivity.
Qed.

(** Texts that end outside quotes and hold no delimiter outside quotes are
    recovered from their concatenation with the delimiter. *)
Lemma split_join (lines : list string) :
  forall first,
    (forall l, In l (first :: lines) -> scan delim false l = Some false) ->
    split_unquoted delim false "" (join (String delim "") (first :: lines))
    = first :: lines.
Proof.
  induction lines as [|l1 rest IH]; intros first H.
  - simpl. rewrite <- (str_app_nil_r first) at 1.
    rewrite (split_app first "" false false ""); [reflexivity|].
    apply H. left. reflexivity.
  - change (join (String delim "") (first :: l1 :: rest))
      with (first ++ String delim (join (String delim "") (l1 :: rest)))%string.
    rewrite (split_app first _ false false ""); [|apply H; left; reflexivity].
    cbn [split_unquoted append].
    assert (Hq : Ascii.eqb delim quote = false)
      by (apply Ascii.eqb_neq; exact delim_not_quote).
    rewrite Hq, Ascii.eqb_refl. cbn [negb andb]. f_equal.
    apply IH. intros l Hl. apply H. right. exact Hl.
Qed.

Lemma split_join_all (lines : list string) :
  lines <> [] ->
  (forall l, In l lines -> scan delim false l = Some false) ->
  split_unquoted delim false "" (join (String delim "") lines) = lines.
Proof.
  destruct lines as [|first lines]; [congruence|].
  intros _ H. apply split_join, H.
Qed.

Lemma scan_doubled_inside (s : string) :
  scan delim true (doubled s) = Some true.
Proof.
  induction s as [|a s IH]; [reflexivity|].
  rewrite doubled_cons. destruct (Ascii.eqb a quote) eqn:Ha.
  - simpl. exact IH.
  - simpl. rewrite Ha, andb_false_r. exact IH.
Qed.

Lemma scan_doubled_outside (s : string) :
  has_char delim (doubled s) = false ->
  scan delim false (doubled s) = Some false.
Proof.
  induction s as [|a s IH]; [reflexivity|].
  rewrite doubled_cons. destruct (Ascii.eqb a quote) eqn:Hq.
  - simpl. apply Ascii.eqb_neq in delim_not_quote as Hd. rewrite Hd.
    simpl. exact IH.
  - simpl. rewrite Hq. intro H. apply orb_false_iff in H.
    destruct H as [Ha Hs]. rewrite Ascii.eqb_sym in Ha. rewrite Ha.
    simpl. apply IH, Hs.
Qed.

End CsvFacts.

Section ExportFacts.
Import Csv CsvExport.

Lemma comma_not_quote : ","%char <> quote.
Proof. discriminate. Qed.

Lemma nl_not_quote : nl <> quote.
Proof. discriminate. Qed.

(** [escape], case by case. *)
Lemma escape_cases (v : jsval) :
  escape v
  = if is_nullish v then ""
    else if needs_quotes (js_String v) then wrapped (js_String v)
    else doubled (js_String v).
Proof.
  assert (H : forall s,
             (let str := replace_all_char quote (dquote ++ dquote) s in
              if includes str "," || includes str newline
              then dquote ++ str ++ dquote else str)%string
             = if needs_quotes s then wrapped s else doubled s).
  { intro s. cbv zeta. fold (doubled s). unfold needs_quotes, newline.
    fold nl. rewrite !includes_char,
      (has_char_doubled "," s comma_not_quote),
      (has_char_doubled nl s nl_not_quote).
    reflexivity. }
  destruct v as [| |b|s]; try reflexivity; unfold escape; apply H.
Qed.

Lemma scan_escape (delim : ascii) (v : jsval) :
  delim = ","%char \/ delim = nl ->
  scan delim false (escape v) = Some false.
Proof.
  intro Hd.
  assert (Hq : delim <> quote) by (destruct Hd as [->| ->]; discriminate).
  rewrite escape_cases. destruct (is_nullish v); [reflexivity|].
  destruct (needs_quotes (js_String v)) eqn:Hn.
  - unfold wrapped. change (dquote ++ doubled (js_String v) ++ dquote)%string
      with (String quote (doubled (js_String v) ++ dquote)).
    cbn [scan]. rewrite Ascii.eqb_refl. cbn [negb].
    rewrite (scan_app delim), (scan_doubled_inside delim). reflexivity.
  - apply (scan_doubled_outside delim Hq).
    rewrite (has_char_doubled delim _ Hq).
    unfold needs_quotes in Hn. apply orb_false_iff in Hn.
    destruct Hd as [->| ->]; tauto.
Qed.

Lemma scan_join (parts : list string) :
  (forall p, In p parts -> scan nl false p = Some false) ->
  scan nl false (join "," parts) = Some false.
Proof.
  intro H. induction parts as [|p rest IH]; [reflexivity|].
  destruct rest as [|p' rest'].
  - apply H. left. reflexivity.
  - change (join "," (p :: p' :: rest'))
      with (p ++ String "," (join "," (p' :: rest')))%string.
    rewrite (scan_app nl), (H p (or_introl eq_refl)). cbn [scan].
    change (Ascii.eqb "," quote) with false.
    change (Ascii.eqb "," nl) with false. cbn [andb].
    apply IH. intros q Hq. apply H. right. exact Hq.
Qed.

(** C10.  [escape] on a string: every double quote is written twice (and
    the value can be read back), the result is put between double quotes
    exactly when the value holds a comma or a newline, so a value with a
    double quote and neither of those comes out with its quotes doubled and
    nothing around it. *)
Theorem escape_doubles_quotes_without_wrapping (s : string) :
  undouble false (doubled s) = s
  /\ count quote (doubled s) = 2 * count quote s
  /\ escape (JString s) = (if needs_quotes s then wrapped s else doubled s)
  /\ (has_char quote s = true ->
      has_char "," s = false ->
      has_char nl s = false ->
      escape (JString s) = doubled s
      /\ includes (escape (JString s)) (dquote ++ dquote) = true
      /\ escape (JString s) <> wrapped s).
Proof.
  split; [apply undouble_doubled|].
  split; [apply count_doubled|].
  split; [apply (escape_cases (JString s))|].
  intros Hq Hc Hn.
  assert (He : escape (JString s) = doubled s).
  { rewrite (escape_cases (JString s)). cbn [is_nullish js_String].
    unfold needs_quotes. rewrite Hc, Hn. reflexivity. }
  rewrite He. split; [reflexivity|]. split.
  - apply has_quote_doubled, Hq.
  - unfold wrapped. intro E.
    apply (f_equal String.length) in E.
    change (dquote ++ doubled s ++ dquote)%string
      with (String quote (doubled s ++ dquote)) in E.
    simpl in E. rewrite str_length_app in E. simpl in E. lia.
Qed.

End ExportFacts.

Example export_of_one_entry :
  CsvExport.get_export "waitlist" ExportDemo.disk
  = CsvExport.Attachment "waitlist-export.csv"
      (ExportDemo.header_line ++ newline ++ ExportDemo.ama_line)%string.
Proof. reflexivity. Qed.

Lemma escape_doubles_quotes_without_wrapping_witness :
  CsvExport.escape (JString ExportDemo.greeting)
  = ("say " ++ dquote ++ dquote ++ "hi" ++ dquote ++ dquote)%string.
Proof.
  refine (proj1 (proj2 (proj2 (proj2
            (escape_doubles_quotes_without_wrapping ExportDemo.greeting)))
            _ _ _));
    reflexivity.
Defined.

(* ================================================================== *)
(** * The other catalogue routes *)

Lemma find_first {A : Type} (p : A -> bool) (l : list A) (x : A) :
  find p l = Some x ->
  exists pre post,
    l = (pre ++ x :: post)%list /\ p x = true
    /\ forall y, In y pre -> p y = false.
Proof.
  induction l as [|a l IH]; simpl; [discriminate|].
  destruct (p a) eqn:Ha.
  - intro H. injection H as <-. exists [], l. simpl. tauto.
  - intro H. destruct (IH H) as (pre & post & -> & Hx & Hpre).
    exists (a :: pre), post. simpl. repeat split; auto.
    intros y [<-|Hy]; auto.
Qed.

Section RoutesFacts.
Import Catalog Routes.

Variable categories : list Category.
Variable farms : list Farm.

Lemma unfiltered_produce (cats : list Category) :
  produce_items (get_produce cats None None) = all_listings cats.
Proof. reflexivity. Qed.

Lemma find_item_first (id : string) (cats : list Category) :
  match find_item id cats with
  | Some (item, cat) =>
      item_id item = id
      /\ exists pre post,
           all_listings cats = (pre ++ listing cat item :: post)%list
           /\ forall x, In x pre -> item_id (listing_item x) <> id
  | None => forall x, In x (all_listings cats) -> item_id (listing_item x) <> id
  end.
Proof.
  induction cats as [|c cats IH]; simpl.
  - intros x [].
  - destruct (find (fun i => String.eqb (item_id i) id) (cat_items c))
      as [item|] eqn:Hfind.
    + destruct (find_first _ _ _ Hfind) as (pre & post & Hitems & Hid & Hpre).
      split; [apply String.eqb_eq, Hid|].
      exists (map (listing c) pre),
        (map (listing c) post ++ all_listings cats)%list.
      split.
      * unfold all_listings at 1. simpl. rewrite Hitems, map_app. simpl.
        rewrite <- app_assoc. reflexivity.
      * intros x Hx. apply in_map_iff in Hx. destruct Hx as (y & <- & Hy).
        simpl. apply String.eqb_neq, Hpre, Hy.
    + assert (Hnone : forall x, In x (map (listing c) (cat_items c)) ->
                                item_id (listing_item x) <> id).
      { intros x Hx. apply in_map_iff in Hx. destruct Hx as (y & <- & Hy).
        simpl. apply String.eqb_neq. apply (find_none _ _ Hfind y Hy). }
      destruct (find_item id cats) as [[item cat]|].
      * destruct IH as (Hid & pre & post & Hall & Hpre). split; [exact Hid|].
        exists (map (listing c) (cat_items c) ++ pre)%list, post. split.
        -- unfold all_listings at 1. simpl. fold (all_listings cats).
           rewrite Hall, <- app_assoc. reflexivity.
        -- intros x Hx. apply in_app_iff in Hx. destruct Hx; auto.
      * intros x Hx. unfold all_listings in Hx. simpl in Hx.
        apply in_app_iff in Hx. destruct Hx as [Hx|Hx]; auto.
Qed.

Lemma find_item_in (id : string) (cats : list Category) (item : Item)
    (cat : Category) :
  find_item id cats = Some (item, cat) ->
  In cat cats /\ In item (cat_items cat).
Proof.
  induction cats as [|c cats IH]; cbn [find_item]; [discriminate|].
  destruct (find (fun i => String.eqb (item_id i) id) (cat_items c))
    as [found|] eqn:Hfind.
  - intro H. injection H as <- <-. split; [left; reflexivity|].
    apply (find_some _ _ Hfind).
  - intro H. destruct (IH H) as [Hc Hi]. split; [right; exact Hc|exact Hi].
Qed.

(** X1.  [GET /api/produce/:id]: the answer is 404 exactly when no item of
    the catalogue has that id; otherwise it is an item with that id together
    with the name and the id of a category of the catalogue that holds it,
    and it is the first listing with that id in the order in which
    [GET /api/produce] lists the catalogue. *)
Theorem produce_by_id_first_match (id : string) :
  match get_produce_id categories id with
  | Failure st _ =>
      st = 404%Z
      /\ forall l, In l (produce_items (get_produce categories None None)) ->
                   item_id (listing_item l) <> id
  | Json l =>
      item_id (listing_item l) = id
      /\ (exists cat,
             In cat categories /\ In (listing_item l) (cat_items cat)
             /\ category l = cat_name cat /\ categoryId l = cat_id cat)
      /\ exists pre post,
           produce_items (get_produce categories None None)
           = (pre ++ l :: post)%list
           /\ forall x, In x pre -> item_id (listing_item x) <> id
  end.
Proof.
  unfold get_produce_id. rewrite unfiltered_produce.
  pose proof (find_item_first id categories) as H.
  destruct (find_item id categories) as [[item cat]|] eqn:Hfind.
  - destruct H as (Hid & pre & post & Hall & Hpre). split; [exact Hid|].
    destruct (find_item_in id categories item cat Hfind) as [Hc Hi].
    split; [exists cat; cbn [listing listing_item category categoryId]; auto|].
    exists pre, post. split; assumption.
  - split; [reflexivity|exact H].
Qed.

Lemma all_listings_length (cats : list Category) :
  List.length (all_listings cats)
  = list_sum (map (fun cat => List.length (cat_items cat)) cats).
Proof.
  induction cats as [|c cats IH]; [reflexivity|].
  change (all_listings (c :: cats))
    with (map (listing c) (cat_items c) ++ all_listings cats)%list.
  rewrite length_app, length_map, IH. reflexivity.
Qed.

(** X2.  The item counts that [GET /api/categories] reports, one summary
    per category in order, add up to the count of [GET /api/produce]
    without parameters. *)
Theorem category_counts_add_up :
  map summary_id (get_categories categories) = map cat_id categories
  /\ list_sum (map itemCount (get_categories categories))
     = produce_count (get_produce categories None None).
Proof.
  split.
  - unfold get_categories. rewrite map_map. reflexivity.
  - change (produce_count (get_produce categories None None))
      with (List.length (all_listings categories)).
    rewrite all_listings_length. unfold get_categories. rewrite map_map.
    reflexivity.
Qed.

Lemma selected_by_id (id : string) (cat : Category) :
  id <> "" -> category_selected (Some id) cat = String.eqb (cat_id cat) id.
Proof.
  intro H. unfold category_selected.
  assert (Ht : truthy_opt (Some id) = true) by (apply truthy_opt_some, H).
  rewrite Ht. reflexivity.
Qed.

(** X3.  [GET /api/produce/category/:categoryId] and
    [GET /api/produce?category=] agree: for a non-empty id, the route
    answers 404 exactly when the query returns nothing from any category,
    and otherwise it answers the first category with that id, whose items
    are the first listings that the query returns. *)
Theorem category_route_agrees_with_query (id : string) :
  id <> "" ->
  match get_produce_category categories id with
  | Failure st _ =>
      st = 404%Z
      /\ (forall cat, In cat categories -> cat_id cat <> id)
      /\ produce_items (get_produce categories (Some id) None) = []
  | Json c =>
      In c categories /\ cat_id c = id
      /\ exists rest,
           produce_items (get_produce categories (Some id) None)
           = (map (listing c) (cat_items c) ++ rest)%list
  end.
Proof.
  intro Hne. unfold get_produce_category.
  assert (Hitems : forall cats,
             produce_items (get_produce cats (Some id) None)
             = flat_map (fun cat => if String.eqb (cat_id cat) id
                                    then map (listing cat) (cat_items cat)
                                    else []) cats).
  { intro cats. unfold get_produce. cbn [produce_items].
    apply flat_map_ext. intro cat. rewrite (selected_by_id id cat Hne).
    reflexivity. }
  rewrite Hitems. clear Hitems.
  induction categories as [|c cats IH]; simpl.
  - repeat split. intros cat [].
  - destruct (String.eqb (cat_id c) id) eqn:Hc.
    + split; [left; reflexivity|]. split; [apply String.eqb_eq, Hc|].
      eexists. reflexivity.
    + destruct (find (fun cat => String.eqb (cat_id cat) id) cats) as [c'|].
      * destruct IH as (Hin & Hid & rest & Hrest).
        split; [right; exact Hin|]. split; [exact Hid|].
        exists rest. exact Hrest.
      * destruct IH as (_ & Hnone & Hempty). split; [reflexivity|]. split.
        -- intros cat [<-|Hin]; [apply String.eqb_neq, Hc|apply Hnone, Hin].
        -- exact Hempty.
Qed.

(** [GET /api/farms]: without a location, or with an empty one, every
    farm is returned; with a location L, exactly the farms whose location
    contains L case-insensitively, in their order; the count is the length
    of the list. *)
Theorem farms_by_location (location : option string) :
  farms_count (get_farms farms location)
  = List.length (farms_list (get_farms farms location))
  /\ (location = None \/ location = Some "" ->
      farms_list (get_farms farms location) = farms)
  /\ (forall l, location = Some l -> l <> "" ->
        farms_list (get_farms farms location)
        = filter (fun f => includes (toLowerCase (farm_location f))
                                    (toLowerCase l)) farms
        /\ forall f, In f (farms_list (get_farms farms location))
                     <-> In f farms /\ contains_ci (farm_location f) l).
Proof.
  split; [reflexivity|]. split.
  - intros [->| ->]; reflexivity.
  - intros l -> Hne. unfold get_farms. apply truthy_opt_some in Hne.
    rewrite Hne. cbn [farms_list]. split; [reflexivity|].
    intro f. rewrite filter_In, contains_ci_includes. tauto.
Qed.

Lemma get_search_found (cats : list Category) (fs : list Farm) (s : string) :
  (2 <= String.length s)%nat ->
  get_search cats fs (Some s)
  = Found s
      (List.length
         (flat_map (fun cat =>
                      map (listing cat)
                          (filter (produce_hit (toLowerCase s) cat)
                                  (cat_items cat))) cats)
       + List.length (filter (farm_hit (toLowerCase s)) fs))
      {| results_produce :=
           flat_map (fun cat =>
                       map (listing cat)
                           (filter (produce_hit (toLowerCase s) cat)
                                   (cat_items cat))) cats;
         results_farms := filter (farm_hit (toLowerCase s)) fs |}.
Proof.
  intro Hlen. unfold get_search.
  assert (Hne : truthy_opt (Some s) = true).
  { apply truthy_opt_some. intros ->. simpl in Hlen. lia. }
  assert (Hlong : (String.length s <? 2)%nat = false)
    by (apply Nat.ltb_ge; exact Hlen).
  rewrite Hne, Hlong. reflexivity.
Qed.

(** X4.  A farm that [GET /api/farms?location=L] returns is also among the
    farms that [GET /api/search?q=L] returns, when L has two characters or
    more. *)
Theorem located_farms_are_search_hits (l : string) (f : Farm) :
  (2 <= String.length l)%nat ->
  In f (farms_list (get_farms farms (Some l))) ->
  exists count results,
    get_search categories farms (Some l) = Found l count results
    /\ In f (results_farms results).
Proof.
  intros Hlen Hin. rewrite (get_search_found categories farms l Hlen).
  eexists _, _. split; [reflexivity|]. cbn [results_farms].
  unfold get_farms in Hin.
  assert (Hne : truthy_opt (Some l) = true).
  { apply truthy_opt_some. intros ->. simpl in Hlen. lia. }
  rewrite Hne in Hin. cbn [farms_list] in Hin.
  apply filter_In in Hin. destruct Hin as [Hf Hloc].
  apply filter_In. split; [exact Hf|]. unfold farm_hit.
  rewrite Hloc. rewrite orb_true_r. reflexivity.
Qed.

(** X5.  [GET /api/farms/:id]: 404 exactly when no farm has that id;
    otherwise the first farm with that id, which [GET /api/farms] lists
    too. *)
Theorem farm_by_id_first_match (id : string) :
  match get_farm farms id with
  | Failure st _ =>
      st = 404%Z /\ forall f, In f farms -> farm_id f <> id
  | Json f =>
      farm_id f = id
      /\ In f (farms_list (get_farms farms None))
      /\ exists pre post,
           farms = (pre ++ f :: post)%list
           /\ forall x, In x pre -> farm_id x <> id
  end.
Proof.
  unfold get_farm.
  destruct (find (fun f => String.eqb (farm_id f) id) farms) as [f|] eqn:Hfind.
  - destruct (find_first _ _ _ Hfind) as (pre & post & Hfarms & Hid & Hpre).
    split; [apply String.eqb_eq, Hid|]. split.
    + cbn [get_farms farms_list]. apply (find_some _ _ Hfind).
    + exists pre, post. split; [exact Hfarms|].
      intros x Hx. apply String.eqb_neq, Hpre, Hx.
  - split; [reflexivity|]. intros f Hf.
    apply String.eqb_neq. apply (find_none _ _ Hfind f Hf).
Qed.

(** [GET /api/faqs]: with no category, an empty one or ["all"], every
    question is returned; with any other category, exactly the questions
    whose category is that string; the category list is returned whole in
    every case. *)
Theorem faqs_all_or_one_category (faqData : FaqData)
    (category : option string) :
  faqs_categories (get_faqs faqData category) = faq_categories faqData
  /\ faqs_count (get_faqs faqData category)
     = List.length (faqs_list (get_faqs faqData category))
  /\ (category = None \/ category = Some "" \/ category = Some "all" ->
      faqs_list (get_faqs faqData category) = faq_faqs faqData)
  /\ (forall c, category = Some c -> c <> "" -> c <> "all" ->
        forall q, In q (faqs_list (get_faqs faqData category))
                  <-> In q (faq_faqs faqData)
                      /\ get "category" q = JString c).
Proof.
  split; [reflexivity|]. split; [reflexivity|]. split.
  - intros [->|[->| ->]]; reflexivity.
  - intros c -> Hne Hall q. unfold get_faqs.
    apply truthy_opt_some in Hne. apply String.eqb_neq in Hall.
    rewrite Hne, Hall. cbn [faqs_list andb negb].
    rewrite filter_In, jsval_eqb_eq. tauto.
Qed.

Lemma selected_length (sel : Category -> bool) (cats : list Category) :
  (List.length
     (flat_map (fun cat => if sel cat
                           then map (listing cat) (cat_items cat) else [])
               cats)
   <= List.length (all_listings cats))%nat.
Proof.
  induction cats as [|c cats IH]; simpl; [lia|].
  rewrite !length_app. fold (all_listings cats).
  destruct (sel c); simpl; lia.
Qed.

(** X6.  The parameters of [GET /api/produce] only narrow the answer:
    whatever the category and the season, every listing returned is one of
    those returned without parameters, and the count is no larger. *)
Theorem produce_filters_only_narrow (category season : option string) :
  (forall l, In l (produce_items (get_produce categories category season)) ->
             In l (produce_items (get_produce categories None None)))
  /\ (produce_count (get_produce categories category season)
      <= produce_count (get_produce categories None None))%nat
  /\ produce_count (get_produce categories category season)
     = List.length (produce_items (get_produce categories category season)).
Proof.
  split; [|split].
  - intros l Hl. rewrite get_produce_items in Hl.
    apply filter_In in Hl. destruct Hl as [Hl _].
    apply in_selected in Hl.
    destruct Hl as (cat & item & Hcat & Hitem & -> & _).
    rewrite unfiltered_produce. unfold all_listings. apply in_flat_map.
    exists cat. split; [exact Hcat|]. apply in_map, Hitem.
  - change (produce_count (get_produce categories category season))
      with (List.length
              (produce_items (get_produce categories category season))).
    change (produce_count (get_produce categories None None))
      with (List.length (all_listings categories)).
    rewrite get_produce_items.
    eapply Nat.le_trans; [apply filter_length_le|apply selected_length].
  - reflexivity.
Qed.

End RoutesFacts.

Lemma category_route_agrees_with_query_witness :
  exists rest,
    Catalog.produce_items
      (Catalog.get_produce CatalogDemo.categories (Some "roots") None)
    = (map (Catalog.listing CatalogDemo.roots)
           (Catalog.cat_items CatalogDemo.roots) ++ rest)%list.
Proof.
  pose proof (category_route_agrees_with_query CatalogDemo.categories "roots")
    as H.
  assert (Hne : "roots" <> "") by discriminate.
  specialize (H Hne). simpl in H. destruct H as (_ & _ & rest & Hrest).
  exists rest. exact Hrest.
Defined.

Lemma located_farms_are_search_hits_witness :
  exists count results,
    Catalog.get_search CatalogDemo.categories CatalogDemo.farms (Some "KUM")
    = Catalog.Found "KUM" count results
    /\ In CatalogDemo.kumasi (Catalog.results_farms results).
Proof.
  apply (located_farms_are_search_hits CatalogDemo.categories
           CatalogDemo.farms "KUM" CatalogDemo.kumasi).
  - simpl. lia.
  - simpl. auto.
Defined.
(* ================================================================== *)
(** * The forms, the statistics and the chat log *)

Section WaitlistMore.
Import Waitlist.

Variable srv : Server.

(** What a submission can do. *)
Lemma post_waitlist_cases (o : Oracle) (b : Submission) (file : File) :
  (exists e entry,
      email b = JString e
      /\ entry_email entry = e
      /\ Regex.test emailRegex e = true
      /\ existsb (same_email e) (loadJSON file) = false
      /\ write_ok o = true
      /\ post_waitlist srv o b file
         = ({| status := 201;
               payload := Joined (S (List.length (loadJSON file))) |},
            Some (loadJSON file ++ [entry])%list))
  \/ (exists r, post_waitlist srv o b file = (r, file)
                /\ (status r = 400%Z \/ status r = 500%Z)).
Proof.
  unfold post_waitlist, saveJSON.
  destruct (truthy (email b)) eqn:Ht; cbn [negb];
    [|right; eexists; split; [reflexivity|left; reflexivity]].
  destruct (Regex.test emailRegex (js_String (email b))) eqn:Hv; cbn [negb];
    [|right; eexists; split; [reflexivity|left; reflexivity]].
  destruct (email b) as [| |x|e] eqn:He;
    try (right; eexists; split; [reflexivity|right; reflexivity]).
  destruct (existsb (same_email e) (loadJSON file)) eqn:Hk;
    [right; eexists; split; [reflexivity|left; reflexivity]|].
  destruct (write_ok o) eqn:Hw;
    [|right; eexists; split; [reflexivity|right; reflexivity]].
  left. exists e. eexists. split; [reflexivity|]. split; [shelve|].
  split; [exact Hv|]. split; [exact Hk|]. split; [reflexivity|].
  rewrite length_app, Nat.add_comm. simpl. reflexivity.
  Unshelve. reflexivity.
Qed.

Lemma not_listed (e : string) (l : list Entry) :
  existsb (same_email e) l = false ->
  ~ In (toLowerCase e) (map (fun x => toLowerCase (entry_email x)) l).
Proof.
  intros H Hin. apply in_map_iff in Hin. destruct Hin as (x & Hx & Hin).
  assert (Hex : existsb (same_email e) l = true).
  { apply existsb_exists. exists x. split; [exact Hin|].
    unfold same_email. rewrite Hx. apply String.eqb_refl. }
  rewrite Hex in H. discriminate.
Qed.

(** X8.  The waitlist file keeps its shape: if no two stored addresses are
    equal up to case and every stored address matches the e-mail pattern,
    the same holds after any submission, whatever its outcome. *)
Theorem waitlist_stays_distinct_and_valid (o : Oracle) (b : Submission)
    (file : File) :
  distinct_emails (loadJSON file) ->
  valid_emails (loadJSON file) ->
  distinct_emails (loadJSON (snd (post_waitlist srv o b file)))
  /\ valid_emails (loadJSON (snd (post_waitlist srv o b file))).
Proof.
  intros Hd Hv.
  destruct (post_waitlist_cases o b file)
    as [(e & entry & He & Hentry & Hvalid & Hnew & _ & Hpost)|(r & Hpost & _)];
    rewrite Hpost; cbn [fst snd]; [|split; assumption].
  cbn [loadJSON]. split.
  - unfold distinct_emails. rewrite map_app. apply NoDup_app.
    + exact Hd.
    + simpl. constructor; [intros []|constructor].
    + intros a Ha [<-|[]]. rewrite Hentry in Ha.
      exact (not_listed e _ Hnew Ha).
  - apply Forall_app. split; [exact Hv|]. constructor; [|constructor].
    rewrite Hentry. exact Hvalid.
Qed.

End WaitlistMore.

Section SignupFacts.
Import Signups.
Import Waitlist (Oracle, date_now, iso_now, write_ok, emailRegex).

(** X10.  One stored object without a string address blocks the newsletter
    form: when such an object comes in the file before any object with the
    submitted address, a well-formed submission is answered 500 by the
    error middleware and nothing is written. *)
Theorem newsletter_blocked_by_malformed_entry (o : Oracle)
    (b : NewsletterBody) (e : string) (before after : list JsObject)
    (bad : JsObject) :
  nl_email b = JString e ->
  Regex.test emailRegex e = true ->
  string_emails before ->
  existsb (fun x => String.eqb (toLowerCase (js_String (get "email" x)))
                               (toLowerCase e)) before = false ->
  (forall s, get "email" bad <> JString s) ->
  post_newsletter o b (Some (before ++ bad :: after)%list)
  = (crashed, Some (before ++ bad :: after)%list).
Proof.
  intros He Hv Hs Hnone Hbad. unfold post_newsletter. rewrite He.
  assert (Hne : truthy (JString e) = true).
  { simpl. destruct e; [discriminate Hv|reflexivity]. }
  rewrite Hne. cbn [negb js_String]. rewrite Hv. cbn [negb loadJSON].
  assert (Hthrow : some_same_email e (before ++ bad :: after) = None).
  { clear - Hs Hnone Hbad. induction Hs as [|x l (s & Hx) _ IH]; simpl in *.
    - destruct (get "email" bad) as [| |c|s] eqn:Hg; try reflexivity.
      exfalso. apply (Hbad s). reflexivity.
    - rewrite Hx in *. simpl in Hnone.
      apply orb_false_iff in Hnone. destruct Hnone as [Hx' Hrest].
      rewrite Hx'. apply IH, Hrest. }
  rewrite Hthrow. reflexivity.
Qed.

Lemma post_farm_application_cases (o : Oracle) (b : ApplicationBody)
    (file : FileOf Application) :
  (exists a,
      app_status a = "pending"
      /\ app_id a = ("app_" ++ date_now o)%string
      /\ app_email a = ab_email b
      /\ post_farm_application o b file
         = ({| status := 201; payload := Created (app_id a) |},
            Some (loadJSON file ++ [a])%list))
  \/ (exists r, post_farm_application o b file = (r, file)
                /\ (status r = 400%Z \/ status r = 500%Z)).
Proof.
  unfold post_farm_application, saveJSON.
  destruct (negb (truthy (ab_farmName b)) || negb (truthy (ab_location b))
            || negb (truthy (ab_farmSize b))
            || negb (truthy (ab_specialties b))
            || negb (truthy (ab_contactName b)) || negb (truthy (ab_phone b))
            || negb (truthy (ab_email b)) || negb (truthy (ab_experience b)));
    [right; eexists; split; [reflexivity|left; reflexivity]|].
  destruct (Regex.test emailRegex (js_String (ab_email b))); cbn [negb];
    [|right; eexists; split; [reflexivity|left; reflexivity]].
  destruct (write_ok o);
    [|right; eexists; split; [reflexivity|right; reflexivity]].
  left. eexists. split; [shelve|]. split; [shelve|]. split; [shelve|].
  reflexivity.
  Unshelve. all: reflexivity.
Qed.

Lemma status_counts (l : list Application) :
  (List.length (filter (with_status "pending") l)
   + List.length (filter (with_status "approved") l)
   + List.length (filter (with_status "rejected") l)
   <= List.length l)%nat.
Proof.
  induction l as [|a l IH]; cbn [filter List.length]; [lia|].
  unfold with_status in *.
  destruct (String.eqb (app_status a) "pending") eqn:Hp;
    destruct (String.eqb (app_status a) "approved") eqn:Ha;
    destruct (String.eqb (app_status a) "rejected") eqn:Hr;
    cbn [List.length]; try lia;
    try (apply String.eqb_eq in Hp; rewrite Hp in *; discriminate);
    apply String.eqb_eq in Ha; rewrite Ha in *; discriminate.
Qed.

Lemma all_pending_count (l : list Application) (s : string) :
  Forall (fun a => app_status a = "pending") l ->
  List.length (filter (with_status s) l)
  = if String.eqb "pending" s then List.length l else 0%nat.
Proof.
  induction 1 as [|a l Ha _ IH]; cbn [filter].
  - destruct (String.eqb "pending" s); reflexivity.
  - unfold with_status at 1. rewrite Ha.
    destruct (String.eqb "pending" s); simpl; rewrite IH; reflexivity.
Qed.

(** X13.  In the statistics the pending, approved and rejected applications
    never add up to more than the total, and, since every application the
    form stores is pending and no route changes a status, on a file that
    only the form has written all of them are pending. *)
Theorem stats_partition (file : FileOf Application)
    (newsletter : FileOf JsObject) (waitlist : Waitlist.File)
    (early : FileOf JsObject) :
  let s := get_stats file newsletter waitlist early in
  (applications_pending s + applications_approved s + applications_rejected s
   <= applications_total s)%nat
  /\ (Forall (fun a => app_status a = "pending") (loadJSON file) ->
      applications_pending s = applications_total s
      /\ applications_approved s = 0%nat
      /\ applications_rejected s = 0%nat
      /\ forall o b,
           Forall (fun a => app_status a = "pending")
                  (loadJSON (snd (post_farm_application o b file)))).
Proof.
  cbv zeta. unfold get_stats.
  cbn [applications_total applications_pending applications_approved
       applications_rejected].
  split; [apply status_counts|].
  intro Hall. repeat split.
  - rewrite (all_pending_count _ "pending" Hall). reflexivity.
  - rewrite (all_pending_count _ "approved" Hall). reflexivity.
  - rewrite (all_pending_count _ "rejected" Hall). reflexivity.
  - intros o b.
    destruct (post_farm_application_cases o b file)
      as [(a & Hst & _ & _ & Hpost)|(r & Hpost & _)];
      rewrite Hpost; cbn [snd loadJSON]; [|exact Hall].
    apply Forall_app. split; [exact Hall|]. constructor; [exact Hst|constructor].
Qed.

(** X14.  The chat log round trip: a message that is accepted (201) with a
    string session id appears last in the history of that session and in
    no other history.  A message whose session id is not a string is
    stored all the same and shows in no history. *)
Theorem chat_message_round_trip (o : Oracle) (b : ChatBody)
    (file : FileOf JsObject) :
  let r := fst (post_chat_message o b file) in
  let file' := snd (post_chat_message o b file) in
  status r = 201%Z ->
  exists message,
    file' = Some (loadJSON file ++ [message])%list
    /\ get "sessionId" message = cb_sessionId b
    /\ get "userMessage" message = cb_userMessage b
    /\ (forall s, cb_sessionId b = JString s ->
          history_messages (get_chat_messages s file')
          = (history_messages (get_chat_messages s file) ++ [message])%list)
    /\ (forall s, cb_sessionId b <> JString s ->
          get_chat_messages s file' = get_chat_messages s file).
Proof.
  unfold post_chat_message, saveJSON.
  destruct (negb (truthy (cb_sessionId b)) || negb (truthy (cb_userMessage b)));
    [discriminate|].
  destruct (write_ok o); [|discriminate].
  cbn [fst snd status]. intros _. eexists. split; [reflexivity|].
  split; [reflexivity|]. split; [reflexivity|]. split.
  - intros s Hs. unfold get_chat_messages. cbn [history_messages loadJSON].
    rewrite filter_app. simpl. rewrite Hs.
    assert (Heq : jsval_eqb (JString s) (JString s) = true)
      by (apply jsval_eqb_eq; reflexivity).
    rewrite Heq. reflexivity.
  - intros s Hs. unfold get_chat_messages. cbn [loadJSON].
    rewrite filter_app. simpl.
    destruct (jsval_eqb (cb_sessionId b) (JString s)) eqn:Heq.
    + apply jsval_eqb_eq in Heq. contradiction.
    + rewrite app_nil_r. reflexivity.
Qed.

End SignupFacts.

Lemma waitlist_stays_distinct_and_valid_witness :
  distinct_emails
    (Waitlist.loadJSON
       (snd (Waitlist.post_waitlist Waitlist.Current WaitlistDemo.at_noon
               (WaitlistDemo.signup "kofi@farm.gh")
               (Some [WaitlistDemo.ama])))).
Proof.
  apply (waitlist_stays_distinct_and_valid Waitlist.Current
           WaitlistDemo.at_noon (WaitlistDemo.signup "kofi@farm.gh")
           (Some [WaitlistDemo.ama])).
  - repeat constructor. simpl. tauto.
  - repeat constructor.
Defined.

Lemma newsletter_blocked_by_malformed_entry_witness :
  Signups.post_newsletter WaitlistDemo.at_noon
    (SignupDemo.subscribe "ama@farm.gh")
    (Some [SignupDemo.kofi; SignupDemo.torn])
  = (Signups.crashed, Some [SignupDemo.kofi; SignupDemo.torn]).
Proof.
  apply (newsletter_blocked_by_malformed_entry WaitlistDemo.at_noon
           (SignupDemo.subscribe "ama@farm.gh") "ama@farm.gh"
           [SignupDemo.kofi] [] SignupDemo.torn).
  - reflexivity.
  - reflexivity.
  - repeat constructor. exists "Kofi@Farm.gh". reflexivity.
  - reflexivity.
  - intros s. discriminate.
Defined.

Lemma chat_message_round_trip_witness :
  exists message,
    snd (Signups.post_chat_message WaitlistDemo.at_noon
           (SignupDemo.hello (JString "s-1")) None)
    = Some [message]
    /\ get "userMessage" message = JString "Hello".
Proof.
  destruct (chat_message_round_trip WaitlistDemo.at_noon
              (SignupDemo.hello (JString "s-1")) None)
    as (message & Hfile & _ & Hmsg & _).
  - reflexivity.
  - exists message. split; [exact Hfile|exact Hmsg].
Defined.
(* ================================================================== *)
(** * The exports of stored objects *)

Section ObjectExportFacts.
Import Csv CsvExport.

Lemma object_line_closed (headers : list string) (r : JsObject) :
  scan nl false (object_line headers r) = Some false.
Proof.
  unfold object_line. apply scan_join.
  intros p Hp. apply in_map_iff in Hp. destruct Hp as (h & <- & _).
  apply scan_escape. right. reflexivity.
Qed.

(** The CSV text of any table of stored objects, read back. *)
Lemma csv_of_objects (headers : list string) (rows : list JsObject) :
  headers <> [] ->
  (forall h, In h headers -> plain_name h) ->
  records (csv (fun r h => get h r) headers rows)
  = join "," headers :: map (object_line headers) rows
  /\ cells (join "," headers) = headers
  /\ forall r, cells (object_line headers r)
               = map (fun h => escape (get h r)) headers.
Proof.
  intros Hne Hplain. split; [|split].
  - unfold records, csv. apply (split_join nl nl_not_quote).
    intros l [<-|Hl].
    + apply scan_join. intros p Hp. apply Hplain, Hp.
    + apply in_map_iff in Hl. destruct Hl as (r & <- & _).
      apply object_line_closed.
  - unfold cells. apply (split_join_all "," comma_not_quote _ Hne).
    intros l Hl. apply Hplain, Hl.
  - intro r. unfold cells, object_line.
    apply (split_join_all "," comma_not_quote).
    + destruct headers; [congruence|discriminate].
    + intros l Hl. apply in_map_iff in Hl. destruct Hl as (h & <- & _).
      apply scan_escape. left. reflexivity.
Qed.

(** X16.  The newsletter export carries no date: the form stores the time
    of subscription under [subscribedAt] and the export reads [createdAt].
    On a file whose objects have no [createdAt], as those the form writes,
    every object stored after a submission has none either, and its export
    line is its escaped id and address followed by an empty cell. *)
Theorem newsletter_export_has_no_date (o : Waitlist.Oracle)
    (b : Signups.NewsletterBody) (file : Signups.FileOf JsObject) :
  Forall (fun r => get "createdAt" r = JUndefined) (Signups.loadJSON file) ->
  let file' := snd (Signups.post_newsletter o b file) in
  Forall (fun r => get "createdAt" r = JUndefined) (Signups.loadJSON file')
  /\ forall r, In r (Signups.loadJSON file') ->
               cells (object_line newsletter_headers r)
               = [escape (get "id" r); escape (get "email" r); ""].
Proof.
  intro Hold.
  assert (Hnew : Forall (fun r => get "createdAt" r = JUndefined)
                        (Signups.loadJSON
                           (snd (Signups.post_newsletter o b file)))).
  { unfold Signups.post_newsletter, Signups.saveJSON.
    destruct (negb (truthy (Signups.nl_email b))); [exact Hold|].
    destruct (negb (Regex.test Waitlist.emailRegex
                      (js_String (Signups.nl_email b)))); [exact Hold|].
    destruct (Signups.some_same_email _ _) as [[|]|]; try exact Hold.
    destruct (Waitlist.write_ok o); [|exact Hold].
    cbn [snd Signups.loadJSON]. apply Forall_app. split; [exact Hold|].
    constructor; [reflexivity|constructor]. }
  split; [exact Hnew|].
  intros r Hr.
  destruct (csv_of_objects newsletter_headers []) as (_ & _ & Hcells).
  - discriminate.
  - intros h Hh. simpl in Hh.
    repeat (destruct Hh as [<-|Hh]; [split; reflexivity|]). contradiction.
  - rewrite Hcells. simpl.
    rewrite (proj1 (Forall_forall _ _) Hnew r Hr). reflexivity.
Qed.

End ObjectExportFacts.

Lemma newsletter_export_has_no_date_witness :
  Csv.cells (object_line CsvExport.newsletter_headers SignupDemo.kofi)
  = ["sub_1706700000000"; "Kofi@Farm.gh"; ""].
Proof.
  refine (proj2 (newsletter_export_has_no_date WaitlistDemo.at_noon
                   (SignupDemo.subscribe "ama@farm.gh")
                   (Some [SignupDemo.kofi]) _) SignupDemo.kofi _).
  - repeat constructor.
  - simpl. left. reflexivity.
Defined.
(* ================================================================== *)
(** * The admin function, branch by branch *)

Section BlogAdminEffects.
Import Store BlogAdmin.

Variable env : Env.
Variable o : Oracle.

Lemma did_nothing (w : World) : did w w [] (table w).
Proof. split; [symmetry; apply app_nil_r|reflexivity]. Qed.

Lemma did_fetch (r : Request) (u : Upstream) (w : World) :
  did w (snd (fetch r u w)) [r]
      (match u with Serves => fst (exec r (table w)) | _ => table w end).
Proof.
  unfold fetch. destruct u; try (split; reflexivity).
  destruct (exec r (table w)) as [t' [st rows]]. split; reflexivity.
Qed.

Lemma did_then (w w1 w2 : World) (c1 c2 : list Request) (t1 t2 : list Post) :
  did w w1 c1 t1 -> did w1 w2 c2 t2 -> did w w2 (c1 ++ c2) t2.
Proof.
  intros [Hl1 _] [Hl2 Ht2]. split; [|exact Ht2].
  rewrite Hl2, Hl1, app_assoc. reflexivity.
Qed.

(** The ownership check reads at most once and changes nothing. *)
Lemma ownership_check_did (pid : string) (owner : jsval) (w : World) :
  did w (snd (ownership_check o pid owner w)) [] (table w)
  \/ did w (snd (ownership_check o pid owner w)) [SelectOwner pid] (table w).
Proof.
  unfold ownership_check. destruct (truthy owner); [|left; apply did_nothing].
  right. pose proof (did_fetch (SelectOwner pid) (upstream o 0) w) as H.
  assert (Ht : match upstream o 0 with
               | Serves => fst (exec (SelectOwner pid) (table w))
               | _ => table w
               end = table w) by (destruct (upstream o 0); reflexivity).
  rewrite Ht in H.
  destruct (fetch (SelectOwner pid) (upstream o 0) w) as [[st rows|st text|m] w1];
    cbn [snd] in *; try exact H.
  destruct rows as [|existing rest]; [exact H|].
  destruct (truthy (post_owner_id existing)
            && negb (jsval_eqb (post_owner_id existing) owner)); exact H.
Qed.

Lemma after_gate (pid : string) (owner : jsval) (change : Request) (w : World)
    (finish : Reply * World -> Response * World) :
  (forall rw, snd (finish rw) = snd rw) ->
  forall result,
    result = match ownership_check o pid owner w with
             | (Denied, w1) => respond 403 (Error access_denied) w1
             | (Crashed m, w1) => caught m w1
             | (Proceed k, w1) => finish (fetch change (upstream o k) w1)
             end ->
    exists calls t,
      did w (snd result) calls t /\ gated pid change calls
      /\ (t = table w \/ t = fst (exec change (table w))).
Proof.
  intros Hfinish result ->.
  pose proof (ownership_check_did pid owner w) as Hcheck.
  destruct (ownership_check o pid owner w) as [[k| |m] w1]; cbn [snd] in *.
  - rewrite Hfinish.
    pose proof (did_fetch change (upstream o k) w1) as Hfetch.
    assert (Htab : table w1 = table w)
      by (destruct Hcheck as [[_ H]|[_ H]]; exact H).
    rewrite Htab in Hfetch.
    destruct Hcheck as [Hc|Hc];
      pose proof (did_then _ _ _ _ _ _ _ Hc Hfetch) as Hboth;
      eexists _, _; (split; [exact Hboth|]); (split; [unfold gated; auto|]);
      destruct (upstream o k); auto.
  - destruct Hcheck as [Hc|Hc]; eexists _, _;
      (split; [exact Hc|]); (split; [unfold gated; auto|auto]).
  - destruct Hcheck as [Hc|Hc]; eexists _, _;
      (split; [exact Hc|]); (split; [unfold gated; auto|auto]).
Qed.

Lemma do_put_did (f : Fields) (w : World) :
  exists calls t,
    did w (snd (do_put o f w)) calls t
    /\ gated (js_String (id f))
             (Update (js_String (id f)) (updatePayload o f)) calls
    /\ (t = table w
        \/ t = patched (js_String (id f)) (updatePayload o f) (table w)).
Proof.
  unfold do_put.
  destruct (negb (truthy (id f)));
    [exists [], (table w); split; [apply did_nothing|unfold gated; auto]|].
  destruct (negb (Uuid.isValidUUID (js_String (id f))));
    [exists [], (table w); split; [apply did_nothing|unfold gated; auto]|].
  cbv zeta.
  apply (after_gate (js_String (id f)) (owner_id f)
           (Update (js_String (id f)) (updatePayload o f)) w
           (fun rw => match rw with
                      | (Ok _ rows, w2) => respond 200 (Rows rows) w2
                      | (NotOk st text, w2) =>
                          respond st (text_or text "Update failed.") w2
                      | (Thrown m, w2) => caught m w2
                      end)).
  - intros [[st rows|st text|m] w2]; reflexivity.
  - reflexivity.
Qed.

Lemma do_delete_did (f : Fields) (w : World) :
  exists calls t,
    did w (snd (do_delete o f w)) calls t
    /\ gated (js_String (id f)) (Remove (js_String (id f))) calls
    /\ (t = table w \/ t = without (js_String (id f)) (table w)).
Proof.
  unfold do_delete.
  destruct (negb (truthy (id f)));
    [exists [], (table w); split; [apply did_nothing|unfold gated; auto]|].
  destruct (negb (Uuid.isValidUUID (js_String (id f))));
    [exists [], (table w); split; [apply did_nothing|unfold gated; auto]|].
  cbv zeta.
  apply (after_gate (js_String (id f)) (owner_id f)
           (Remove (js_String (id f))) w
           (fun rw => match rw with
                      | (Ok _ _, w2) =>
                          respond 200 (Deleted (js_String (id f))) w2
                      | (NotOk st text, w2) =>
                          respond st (text_or text "Delete failed.") w2
                      | (Thrown m, w2) => caught m w2
                      end)).
  - intros [[st rows|st text|m] w2]; reflexivity.
  - reflexivity.
Qed.

Lemma do_post_did (f : Fields) (w : World) :
  exists calls t,
    did w (snd (do_post o f w)) calls t
    /\ (List.length calls <= 1)%nat
    /\ (t = table w
        \/ exists row, post_id row = randomUUID o
                       /\ t = (table w ++ [row])%list).
Proof.
  unfold do_post.
  destruct (negb (truthy (title f)) || negb (truthy (category f))
            || negb (truthy (content f)));
    [exists [], (table w); split; [apply did_nothing|simpl; auto]|].
  cbv zeta.
  match goal with
  | |- context [fetch ?r ?u w] =>
      pose proof (did_fetch r u w) as H;
      destruct (fetch r u w) as [[st rows|st text|m] w1] eqn:Hf
  end; cbn [snd] in *; eexists _, _; (split; [exact H|]);
    (split; [simpl; lia|]);
    destruct (upstream o 0); auto;
    right; eexists; (split; [|reflexivity]); reflexivity.
Qed.

Lemma do_get_did (qid : option string) (w : World) :
  exists calls,
    did w (snd (do_get o qid w)) calls (table w)
    /\ (List.length calls <= 1)%nat
    /\ forallb is_read calls = true.
Proof.
  assert (Hread : forall r, is_read r = true -> exec r (table w) = (table w, snd (exec r (table w)))).
  { intros [i|i| |row|i q|i]; try discriminate; reflexivity. }
  assert (Hone : forall r, is_read r = true ->
            exists calls,
              did w (snd (match fetch r (upstream o 0) w with
                          | (Ok _ rows, w1) => respond 200 (Rows rows) w1
                          | (NotOk st text, w1) =>
                              respond st (text_or text "Fetch failed.") w1
                          | (Thrown m, w1) => caught m w1
                          end)) calls (table w)
              /\ (List.length calls <= 1)%nat /\ forallb is_read calls = true).
  { intros r Hr. exists [r].
    pose proof (did_fetch r (upstream o 0) w) as H.
    assert (Ht : match upstream o 0 with
                 | Serves => fst (exec r (table w))
                 | _ => table w
                 end = table w).
    { destruct (upstream o 0); try reflexivity. rewrite (Hread r Hr).
      reflexivity. }
    rewrite Ht in H.
    destruct (fetch r (upstream o 0) w) as [[st rows|st text|m] w1];
      cbn [snd] in *; (split; [exact H|]); simpl; rewrite Hr; auto. }
  unfold do_get. destruct qid as [i|]; [|apply (Hone SelectAll eq_refl)].
  destruct (truthy_opt (Some i)); [|apply (Hone SelectAll eq_refl)].
  destruct (negb (Uuid.isValidUUID i)); [|apply (Hone (SelectById i) eq_refl)].
  exists []. split; [apply did_nothing|]. simpl. auto.
Qed.

End BlogAdminEffects.

Section BlogAdminMore.
Import Store BlogAdmin.

Variable env : Env.
Variable o : Oracle.

(** Where an invocation ends up. *)
Lemma handler_dispatch (event : Event) (w : World) :
  snd (handler env o event w) = w
  \/ (exists f,
         body event = Parsed f
         /\ ((httpMethod event = "POST"
              /\ handler env o event w = do_post o f w)
             \/ (httpMethod event = "PUT"
                 /\ handler env o event w = do_put o f w)
             \/ (httpMethod event = "DELETE"
                 /\ handler env o event w = do_delete o f w)))
  \/ (httpMethod event = "GET" /\ mutating (httpMethod event) = false
      /\ handler env o event w = do_get o (query_id event) w).
Proof.
  unfold handler.
  destruct (String.eqb (httpMethod event) "OPTIONS"); [left; reflexivity|].
  destruct (negb (truthy_opt (SUPABASE_URL env))
            || negb (truthy_opt (SUPABASE_SERVICE_ROLE_KEY env)));
    [left; reflexivity|].
  destruct (mutating (httpMethod event)
            && negb (authorized (verifyAdminAuth env event)));
    [left; reflexivity|].
  destruct (String.eqb (httpMethod event) "POST") eqn:Hpost.
  { apply String.eqb_eq in Hpost. unfold with_body.
    destruct (body event) as [m|f]; [left; reflexivity|].
    right; left. exists f. split; [reflexivity|]. left. auto. }
  destruct (String.eqb (httpMethod event) "PUT") eqn:Hput.
  { apply String.eqb_eq in Hput. unfold with_body.
    destruct (body event) as [m|f]; [left; reflexivity|].
    right; left. exists f. split; [reflexivity|]. right; left. auto. }
  destruct (String.eqb (httpMethod event) "DELETE") eqn:Hdel.
  { apply String.eqb_eq in Hdel. unfold with_body.
    destruct (body event) as [m|f]; [left; reflexivity|].
    right; left. exists f. split; [reflexivity|]. right; right. auto. }
  destruct (String.eqb (httpMethod event) "GET") eqn:Hget;
    [|left; reflexivity].
  apply String.eqb_eq in Hget. right; right. rewrite Hget. auto.
Qed.

Lemma patched_keeps (pid : string) (q : Patch) (t : list Post) :
  map post_id (patched pid q t) = map post_id t
  /\ map post_owner_id (patched pid q t) = map post_owner_id t
  /\ map post_created_at (patched pid q t) = map post_created_at t.
Proof.
  unfold patched. rewrite !map_map. repeat split;
    apply map_ext; intro p; destruct (has_id pid p); reflexivity.
Qed.

(** X17.  Whatever the request, the deployment and the behaviour of the
    service, a PUT never adds or removes a row and never changes the id,
    the owner_id or the creation date of any row. *)
Theorem put_keeps_identity (event : Event) (w : World) :
  httpMethod event = "PUT" ->
  let t' := table (snd (handler env o event w)) in
  map post_id t' = map post_id (table w)
  /\ map post_owner_id t' = map post_owner_id (table w)
  /\ map post_created_at t' = map post_created_at (table w)
  /\ List.length t' = List.length (table w).
Proof.
  intros Hm t'. subst t'.
  assert (Hcases : table (snd (handler env o event w)) = table w
                   \/ exists pid q, table (snd (handler env o event w))
                                    = patched pid q (table w)).
  { destruct (handler_dispatch event w)
      as [Hw|[(f & _ & [[H _]|[[_ H]|[H _]]])|(H & _)]];
      try (rewrite Hm in H; discriminate).
    - left. rewrite Hw. reflexivity.
    - rewrite H. destruct (do_put_did o f w) as (calls & t & [_ Ht] & _ & Hc).
      rewrite Ht. destruct Hc as [->| ->]; [left; reflexivity|].
      right. eexists _, _. reflexivity. }
  destruct Hcases as [->|(pid & q & ->)].
  - repeat split.
  - destruct (patched_keeps pid q (table w)) as (H1 & H2 & H3).
    repeat split; try assumption.
    unfold patched. apply length_map.
Qed.

(** X18.  A request whose method is not POST, PUT or DELETE never changes
    the table, whatever the deployment and the service do: it makes at most
    one call, and that call is a read. *)
Theorem other_methods_only_read (event : Event) (w : World) :
  mutating (httpMethod event) = false ->
  table (snd (handler env o event w)) = table w
  /\ exists calls,
       log (snd (handler env o event w)) = (log w ++ calls)%list
       /\ (List.length calls <= 1)%nat
       /\ forallb is_read calls = true.
Proof.
  intro Hm.
  destruct (handler_dispatch event w)
    as [Hw|[(f & _ & [[H _]|[[H _]|[H _]]])|(_ & _ & H)]];
    try (rewrite H in Hm; discriminate).
  - rewrite Hw. split; [reflexivity|]. exists [].
    rewrite app_nil_r. simpl. auto.
  - rewrite H.
    destruct (do_get_did o (query_id event) w) as (calls & [Hl Ht] & Hn & Hr).
    split; [exact Ht|]. exists calls. auto.
Qed.

(** X19.  What one invocation can do, whatever its inputs: it makes at most
    two calls; the table is left as it was, or a POST has appended one row
    whose id is the generated UUID, or a PUT has patched the rows of one
    id, or a DELETE has removed the rows of one id. *)
Theorem changes_by_method (event : Event) (w : World) :
  let w' := snd (handler env o event w) in
  (exists calls, log w' = (log w ++ calls)%list
                 /\ (List.length calls <= 2)%nat)
  /\ (table w' = table w
      \/ (httpMethod event = "POST"
          /\ exists row, post_id row = randomUUID o
                         /\ table w' = (table w ++ [row])%list)
      \/ (httpMethod event = "PUT"
          /\ exists pid q, table w' = patched pid q (table w))
      \/ (httpMethod event = "DELETE"
          /\ exists pid, table w' = without pid (table w))).
Proof.
  cbv zeta.
  assert (Hgated : forall pid change calls,
             gated pid change calls -> (List.length calls <= 2)%nat).
  { intros pid change calls [->|[->|[->| ->]]]; simpl; lia. }
  destruct (handler_dispatch event w)
    as [Hw|[(f & _ & [[Hm H]|[[Hm H]|[Hm H]]])|(Hm & _ & H)]].
  - rewrite Hw. split; [|left; reflexivity].
    exists []. rewrite app_nil_r. simpl. auto.
  - rewrite H.
    destruct (do_post_did o f w) as (calls & t & [Hl Ht] & Hn & Hc).
    split; [exists calls; split; [exact Hl|lia]|].
    rewrite Ht. destruct Hc as [->|Hrow]; [left; reflexivity|].
    right; left. auto.
  - rewrite H.
    destruct (do_put_did o f w) as (calls & t & [Hl Ht] & Hg & Hc).
    split; [exists calls; split; [exact Hl|apply (Hgated _ _ _ Hg)]|].
    rewrite Ht. destruct Hc as [->| ->]; [left; reflexivity|].
    right; right; left. split; [exact Hm|]. eexists _, _. reflexivity.
  - rewrite H.
    destruct (do_delete_did o f w) as (calls & t & [Hl Ht] & Hg & Hc).
    split; [exists calls; split; [exact Hl|apply (Hgated _ _ _ Hg)]|].
    rewrite Ht. destruct Hc as [->| ->]; [left; reflexivity|].
    right; right; right. split; [exact Hm|]. eexists. reflexivity.
  - rewrite H.
    destruct (do_get_did o (query_id event) w) as (calls & [Hl Ht] & Hn & _).
    split; [exists calls; split; [exact Hl|lia]|]. left. exact Ht.
Qed.

Lemma handler_post (event : Event) (f : Fields) (w : World) :
  configured env ->
  authorized (verifyAdminAuth env event) = true ->
  httpMethod event = "POST" ->
  body event = Parsed f ->
  handler env o event w = do_post o f w.
Proof.
  intros Hc Ha Hm Hb. unfold handler. rewrite Hm, (configured_guard env Hc), Ha.
  simpl. unfold with_body. rewrite Hb. reflexivity.
Qed.

(** X20.  A POST that passes the token gate with a title, a category and a
    content, and is served, is answered 201 with the new row: its id is the
    generated UUID, its owner the owner_id sent or null, its dates the two
    clock readings.  The row is appended to the table, and a GET with that
    id, when served, returns it. *)
Theorem post_then_get (event : Event) (f : Fields) (w : World) :
  configured env ->
  authorized (verifyAdminAuth env event) = true ->
  httpMethod event = "POST" ->
  body event = Parsed f ->
  truthy (title f) = true ->
  truthy (category f) = true ->
  truthy (content f) = true ->
  upstream o 0 = Serves ->
  Uuid.isValidUUID (randomUUID o) = true ->
  exists row,
    handler env o event w
    = ({| statusCode := 201; response_body := Rows [row] |},
       {| table := (table w ++ [row])%list;
          log := (log w ++ [Insert row])%list |})
    /\ post_id row = randomUUID o
    /\ post_owner_id row = js_or (owner_id f) JNull
    /\ post_title row = title f
    /\ post_created_at row = now o 0
    /\ forall (o' : Oracle) (get : Event),
         upstream o' 0 = Serves ->
         httpMethod get = "GET" ->
         query_id get = Some (randomUUID o) ->
         exists rows,
           fst (handler env o' get (snd (handler env o event w)))
           = {| statusCode := 200; response_body := Rows rows |}
           /\ In row rows.
Proof.
  intros Hc Ha Hm Hb Ht Hcat Hcon Hu Hv.
  rewrite (handler_post event f w Hc Ha Hm Hb). unfold do_post.
  rewrite Ht, Hcat, Hcon. cbn [negb orb]. cbv zeta. unfold fetch.
  rewrite Hu. cbn [exec]. unfold respond. eexists.
  split; [reflexivity|]. repeat split.
  intros o' get Hu' Hget Hq.
  rewrite (handler_get env o' get _ Hc Hget), Hq. unfold do_get.
  assert (Hne : truthy_opt (Some (randomUUID o)) = true).
  { apply truthy_opt_some. intros E. rewrite E in Hv. discriminate. }
  rewrite Hne, Hv. cbn [negb]. unfold fetch. rewrite Hu'.
  cbn [exec table snd fst]. unfold respond. cbn [fst]. eexists.
  split; [reflexivity|].
  rewrite filter_app. apply in_or_app. right. cbn [filter].
  unfold has_id at 1. cbn [post_id]. rewrite String.eqb_refl.
  left. reflexivity.
Qed.

(** X21.  A POST that passes the token gate without a title, a category or
    a content (absent, null, false or the empty string) is answered 400 and
    makes no call. *)
Theorem post_requires_three_fields (event : Event) (f : Fields) (w : World) :
  configured env ->
  authorized (verifyAdminAuth env event) = true ->
  httpMethod event = "POST" ->
  body event = Parsed f ->
  truthy (title f) && truthy (category f) && truthy (content f) = false ->
  handler env o event w
  = ({| statusCode := 400;
        response_body := Error "title, category, and content are required." |},
     w).
Proof.
  intros Hc Ha Hm Hb Hmiss.
  rewrite (handler_post event f w Hc Ha Hm Hb). unfold do_post.
  destruct (truthy (title f)), (truthy (category f)), (truthy (content f));
    try discriminate Hmiss; reflexivity.
Qed.

(** X22.  A DELETE that passes the token gate and names, by a well-formed
    id, stored rows the first of which is owned by a non-empty A: with a
    non-empty owner_id other than A, and the lookup served, it is answered
    403 and the table is as it was; with owner_id A or none, and its calls
    served, it is answered 200, every row with that id is gone, the other
    rows are as they were, and a GET with that id then returns no row. *)
Theorem delete_respects_owner (event : Event) (f : Fields) (pid : string)
    (w : World) (existing : Post) (others : list Post) (A : string) :
  configured env ->
  authorized (verifyAdminAuth env event) = true ->
  httpMethod event = "DELETE" ->
  body event = Parsed f ->
  id f = JString pid ->
  Uuid.isValidUUID pid = true ->
  filter (has_id pid) (table w) = existing :: others ->
  post_owner_id existing = JString A ->
  A <> "" ->
  (forall k, upstream o k = Serves) ->
  (forall B, owner_id f = JString B -> B <> "" -> B <> A ->
             handler env o event w
             = ({| statusCode := 403; response_body := Error access_denied |},
                {| table := table w;
                   log := (log w ++ [SelectOwner pid])%list |}))
  /\
  (owner_id f = JString A \/ truthy (owner_id f) = false ->
   fst (handler env o event w)
   = {| statusCode := 200; response_body := Deleted pid |}
   /\ table (snd (handler env o event w)) = without pid (table w)
   /\ (forall p, In p (without pid (table w))
                 <-> In p (table w) /\ post_id p <> pid)
   /\ forall get : Event,
        httpMethod get = "GET" -> query_id get = Some pid ->
        fst (handler env o get (snd (handler env o event w)))
        = {| statusCode := 200; response_body := Rows [] |}).
Proof.
  intros Hc Ha Hm Hb Hid Hv Hrows Hown HA Hserve.
  rewrite (handler_delete env o event f w Hc Ha Hm Hb),
    (do_delete_valid o f pid w Hid Hv).
  assert (Hgone : filter (has_id pid) (without pid (table w)) = []).
  { unfold without. clear Hrows.
    induction (table w) as [|p t IH]; [reflexivity|].
    cbn [filter]. destruct (has_id pid p) eqn:Hp; cbn [negb]; [exact IH|].
    cbn [filter]. rewrite Hp. exact IH. }
  assert (Hafter : forall w2,
             table w2 = without pid (table w) ->
             forall get : Event,
               httpMethod get = "GET" -> query_id get = Some pid ->
               fst (handler env o get w2)
               = {| statusCode := 200; response_body := Rows [] |}).
  { intros w2 Hw2 get Hget Hq.
    rewrite (handler_get env o get w2 Hc Hget), Hq. unfold do_get.
    assert (Hne : truthy_opt (Some pid) = true).
    { apply truthy_opt_some. intros ->. discriminate Hv. }
    rewrite Hne, Hv. cbn [negb]. unfold fetch. rewrite Hserve.
    cbn [exec]. rewrite Hw2, Hgone. reflexivity. }
  assert (Hin : forall p, In p (without pid (table w))
                          <-> In p (table w) /\ post_id p <> pid).
  { intro p. unfold without. rewrite filter_In. unfold has_id.
    rewrite negb_true_iff, String.eqb_neq. tauto. }
  split.
  - intros B HB HBne HBA.
    rewrite (ownership_check_served o pid (owner_id f) w existing others);
      [|rewrite HB; apply truthy_string; exact HBne|apply Hserve|exact Hrows].
    rewrite Hown, HB, (truthy_string A HA).
    assert (Hneq : jsval_eqb (JString A) (JString B) = false).
    { simpl. apply String.eqb_neq. intro E. apply HBA. symmetry. exact E. }
    rewrite Hneq. reflexivity.
  - intros [HfA|Hno].
    + rewrite (ownership_check_served o pid (owner_id f) w existing others);
        [|rewrite HfA; apply truthy_string; exact HA|apply Hserve|exact Hrows].
      rewrite Hown, HfA.
      assert (Heq : jsval_eqb (JString A) (JString A) = true)
        by (apply jsval_eqb_eq; reflexivity).
      rewrite Heq, andb_false_r. unfold fetch. rewrite Hserve.
      cbn [exec fst snd respond table].
      split; [reflexivity|]. split; [reflexivity|]. split; [exact Hin|].
      apply Hafter. reflexivity.
    + rewrite (ownership_check_skipped o pid (owner_id f) w Hno).
      unfold fetch. rewrite Hserve.
      cbn [exec fst snd respond table].
      split; [reflexivity|]. split; [reflexivity|]. split; [exact Hin|].
      apply Hafter. reflexivity.
Qed.

End BlogAdminMore.

Section BlogAuth.
Import Store BlogAdmin.

Lemma verifyAdminAuth_cases (env : Env) (event : Event) :
  authorized (verifyAdminAuth env event) = true
  <-> exists key h,
        ADMIN_API_KEY env = Some key /\ key <> ""
        /\ auth_header event = Some h /\ h <> ""
        /\ replace_first "Bearer " "" h = key.
Proof.
  unfold verifyAdminAuth, auth_header.
  destruct (opt_or (header_authorization event) (header_Authorization event))
    as [h|] eqn:Hh.
  - cbv zeta. destruct (truthy_opt (Some h)) eqn:Ht; cbn [negb].
    + assert (Hne : h <> "").
      { intros ->. discriminate Ht. }
      destruct (ADMIN_API_KEY env) as [key|] eqn:Hk.
      * destruct (truthy_opt (Some key)) eqn:Htk; cbn [negb orb].
        -- assert (Hkne : key <> "").
           { intros ->. discriminate Htk. }
           cbn [opt_eqb].
           destruct (String.eqb (replace_first "Bearer " "" h) key) eqn:He;
             cbn [negb authorized]; split.
           ++ intros _. apply String.eqb_eq in He. exists key, h. auto.
           ++ reflexivity.
           ++ discriminate.
           ++ intros (key' & h' & Hk' & _ & Hh' & _ & Hr).
              inversion Hk'; inversion Hh'; subst.
              rewrite String.eqb_refl in He. discriminate.
        -- cbn [authorized]. split; [discriminate|].
           intros (key' & h' & Hk' & Hne' & _).
           inversion Hk'; subst. simpl in Htk.
           apply negb_false_iff, String.eqb_eq in Htk. contradiction.
      * cbn [truthy_opt negb orb authorized]. split; [discriminate|].
        intros (key' & h' & Hk' & _). discriminate.
    + cbn [authorized]. split; [discriminate|].
      intros (key' & h' & _ & _ & Hh' & Hne' & _). inversion Hh'; subst.
      simpl in Ht. apply negb_false_iff, String.eqb_eq in Ht. contradiction.
  - cbn [authorized]. split; [discriminate|].
    intros (key' & h' & _ & _ & Hh' & _). discriminate.
Qed.

Lemma replace_first_absent (pat rep s : string) :
  includes s pat = false -> replace_first pat rep s = s.
Proof.
  induction s as [|c r IH]; intro H.
  - cbn [includes] in H. apply orb_false_iff in H. destruct H as [H _].
    cbn [replace_first]. rewrite H. reflexivity.
  - cbn [includes] in H. apply orb_false_iff in H. destruct H as [H1 H2].
    cbn [replace_first]. rewrite H1, (IH H2). reflexivity.
Qed.

(** The token gate of the admin function opens exactly when
    [ADMIN_API_KEY] is set and not empty and the header read, less its
    first ["Bearer "], equals it.  The header read is the lower-case
    [authorization], and [Authorization] only when that one is absent or
    empty. *)
Theorem token_gate_opens_iff (env : Env) (event : Event) :
  authorized (verifyAdminAuth env event) = true
  <-> exists key h,
        ADMIN_API_KEY env = Some key /\ key <> ""
        /\ h <> "" /\ replace_first "Bearer " "" h = key
        /\ (header_authorization event = Some h
            \/ (truthy_opt (header_authorization event) = false
                /\ header_Authorization event = Some h)).
Proof.
  rewrite verifyAdminAuth_cases. unfold auth_header, opt_or.
  split; intros (key & h & Hk & Hkne & H).
  - destruct H as (Hh & Hne & Hr). exists key, h.
    repeat (split; [assumption|]).
    destruct (truthy_opt (header_authorization event)) eqn:Ht; auto.
  - destruct H as (Hne & Hr & Hh). exists key, h.
    repeat (split; [assumption|]). split; [|auto].
    destruct Hh as [Hh|[Ht Hh]].
    + rewrite Hh. simpl.
      destruct (String.eqb h "") eqn:He; [|reflexivity].
      apply String.eqb_eq in He. contradiction.
    + rewrite Ht. exact Hh.
Qed.

(** X23.  With a non-empty admin key configured, the gate opens for the
    header ["Bearer " + key], and as well for the bare key with no
    ["Bearer "] before it, provided the key does not itself contain
    ["Bearer "]. *)
Theorem bearer_prefix_is_optional (env : Env) (event : Event)
    (key : string) :
  ADMIN_API_KEY env = Some key ->
  key <> "" ->
  auth_header event = Some ("Bearer " ++ key)%string
  \/ (auth_header event = Some key /\ includes key "Bearer " = false) ->
  authorized (verifyAdminAuth env event) = true.
Proof.
  intros Hk Hne H. apply verifyAdminAuth_cases.
  destruct H as [H|[H Hinc]].
  - exists key, ("Bearer " ++ key)%string.
    repeat (split; [assumption|]). split; [discriminate|reflexivity].
  - exists key, key. repeat (split; [assumption|]).
    apply replace_first_absent. exact Hinc.
Qed.

Lemma bearer_prefix_is_optional_witness :
  authorized
    (verifyAdminAuth BlogDemo.env
       (BlogDemo.request "DELETE" (Some "s3cret") (JString BlogDemo.pid)
          JUndefined None)) = true.
Proof.
  apply (bearer_prefix_is_optional BlogDemo.env
           (BlogDemo.request "DELETE" (Some "s3cret") (JString BlogDemo.pid)
              JUndefined None) "s3cret").
  - reflexivity.
  - discriminate.
  - right. split; reflexivity.
Defined.

(** X24.  The legacy function reads no header and checks no owner: with
    the table URL and service key configured, a DELETE whose body has a
    truthy id, when served, is answered 200 and the rows whose id is the
    string of that id, whoever owns them, are gone after one call. *)
Theorem legacy_delete_is_unconditional (env : Env) (o : Oracle)
    (event : Event) (f : Fields) (w : World) :
  configured env ->
  httpMethod event = "DELETE" ->
  body event = Parsed f ->
  truthy (id f) = true ->
  upstream o 0 = Serves ->
  BlogLegacy.handler env o event w
  = ({| statusCode := 200; response_body := Text "Deleted" |},
     {| table := without (js_String (id f)) (table w);
        log := (log w ++ [Remove (js_String (id f))])%list |}).
Proof.
  intros Hc Hm Hb Hid Hu. unfold BlogLegacy.handler.
  rewrite Hm, (configured_guard env Hc). cbn [String.eqb Ascii.eqb Bool.eqb].
  unfold BlogLegacy.with_body. rewrite Hb. unfold BlogLegacy.do_delete.
  rewrite Hid. cbn [negb]. unfold fetch. rewrite Hu. reflexivity.
Qed.

Lemma legacy_delete_is_unconditional_witness :
  BlogLegacy.handler BlogDemo.env BlogDemo.serving
    (BlogDemo.request "DELETE" None (JString BlogDemo.pid)
       (JString "user-b") None) BlogDemo.world
  = ({| statusCode := 200; response_body := Text "Deleted" |},
     {| table := []; log := [Remove BlogDemo.pid] |}).
Proof.
  apply (legacy_delete_is_unconditional BlogDemo.env BlogDemo.serving
           (BlogDemo.request "DELETE" None (JString BlogDemo.pid)
              (JString "user-b") None)
           (BlogDemo.fields (JString BlogDemo.pid) (JString "user-b"))
           BlogDemo.world).
  - split; reflexivity.
  - reflexivity.
  - reflexivity.
  - reflexivity.
  - reflexivity.
Defined.

Lemma put_keeps_identity_witness :
  map post_id
    (table (snd (handler BlogDemo.env BlogDemo.serving
                   (BlogDemo.request "PUT" BlogDemo.bearer
                      (JString BlogDemo.pid) JUndefined None)
                   BlogDemo.world)))
  = [BlogDemo.pid].
Proof.
  apply (put_keeps_identity BlogDemo.env BlogDemo.serving
           (BlogDemo.request "PUT" BlogDemo.bearer (JString BlogDemo.pid)
              JUndefined None) BlogDemo.world).
  reflexivity.
Defined.

Lemma other_methods_only_read_witness :
  table (snd (handler BlogDemo.env BlogDemo.serving
                (BlogDemo.request "GET" None JUndefined JUndefined None)
                BlogDemo.world))
  = [BlogDemo.post].
Proof.
  apply (other_methods_only_read BlogDemo.env BlogDemo.serving
           (BlogDemo.request "GET" None JUndefined JUndefined None)
           BlogDemo.world).
  reflexivity.
Defined.

Lemma post_then_get_witness :
  exists row,
    table (snd (handler BlogDemo.env BlogDemo.serving
                  (BlogSamples.create (JString "user-b")) BlogDemo.world))
    = [BlogDemo.post; row]
    /\ post_owner_id row = JString "user-b".
Proof.
  destruct (post_then_get BlogDemo.env BlogDemo.serving
              (BlogSamples.create (JString "user-b"))
              (BlogSamples.article (JString "user-b")) BlogDemo.world)
    as (row & Hh & _ & Hown & _).
  - split; reflexivity.
  - reflexivity.
  - reflexivity.
  - reflexivity.
  - reflexivity.
  - reflexivity.
  - reflexivity.
  - reflexivity.
  - reflexivity.
  - exists row. rewrite Hh. split; [reflexivity|exact Hown].
Defined.

Lemma post_requires_three_fields_witness :
  handler BlogDemo.env BlogDemo.serving
    (BlogDemo.request "POST" BlogDemo.bearer JUndefined JUndefined None)
    BlogDemo.world
  = ({| statusCode := 400;
        response_body := Error "title, category, and content are required." |},
     BlogDemo.world).
Proof.
  apply (post_requires_three_fields BlogDemo.env BlogDemo.serving
           (BlogDemo.request "POST" BlogDemo.bearer JUndefined JUndefined None)
           (BlogDemo.fields JUndefined JUndefined) BlogDemo.world).
  - split; reflexivity.
  - reflexivity.
  - reflexivity.
  - reflexivity.
  - reflexivity.
Defined.

Lemma delete_respects_owner_witness :
  fst (handler BlogDemo.env BlogDemo.serving
         (BlogDemo.request "DELETE" BlogDemo.bearer (JString BlogDemo.pid)
            (JString "user-a") None) BlogDemo.world)
  = {| statusCode := 200; response_body := Deleted BlogDemo.pid |}.
Proof.
  destruct (delete_respects_owner BlogDemo.env BlogDemo.serving
              (BlogDemo.request "DELETE" BlogDemo.bearer
                 (JString BlogDemo.pid) (JString "user-a") None)
              (BlogDemo.fields (JString BlogDemo.pid) (JString "user-a"))
              BlogDemo.pid BlogDemo.world BlogDemo.post [] "user-a")
    as [_ H].
  - split; reflexivity.
  - reflexivity.
  - reflexivity.
  - reflexivity.
  - reflexivity.
  - reflexivity.
  - reflexivity.
  - reflexivity.
  - discriminate.
  - reflexivity.
  - destruct H as [H _]; [left; reflexivity|exact H].
Defined.

End BlogAuth.
(* ================================================================== *)
(** * The farm client *)

Section FarmFacts.
Import FarmClient Farms.

Variable o : Oracle.

Lemma get_app (k : string) (a b : JsObject) :
  get k (a ++ b)%list = if binds k a then get k a else get k b.
Proof.
  induction a as [|[k' v] a IH]; [reflexivity|].
  cbn [app get binds existsb fst]. fold (binds k a).
  destruct (String.eqb k' k); [reflexivity|exact IH].
Qed.

Lemma filter_one_length {A : Type} (f : A -> bool) (l : list A) (r : A) :
  filter f l = [r] ->
  List.length l = S (List.length (filter (fun x => negb (f x)) l)).
Proof.
  intro H. pose proof (filter_length f l) as Hl. rewrite H in Hl.
  simpl in Hl. lia.
Qed.

(** What the guard shared by [updateFarm] and [deleteFarm] lets through. *)
Lemma guard_cases (farmId : string) (farms : list JsObject) :
  (exists r1 : Result,
      (forall farmData, updateFarm o farmId farmData farms = (r1, farms))
      /\ deleteFarm o farmId farms = (r1, farms)
      /\ error r1 <> None)
  \/ (Uuid.isValidUUID farmId = true
      /\ upstream o 0 = Serves
      /\ exists r, filter (has_id farmId) farms = [r] /\ may_change o r
         /\ (forall farmData,
               updateFarm o farmId farmData farms
               = match upstream o 1 with
                 | Fails m => ({| data := DNull; error := Some m |}, farms)
                 | Serves =>
                     ({| data := DRows [updated farmData (now o) r];
                         error := None |},
                      map (fun x => if has_id farmId x
                                    then updated farmData (now o) x else x)
                          farms)
                 end)
         /\ deleteFarm o farmId farms
            = match upstream o 1 with
              | Fails m => ({| data := DNull; error := Some m |}, farms)
              | Serves => ({| data := DNull; error := None |},
                           filter (fun x => negb (has_id farmId x)) farms)
              end).
Proof.
  unfold updateFarm, deleteFarm, select_owner_single.
  destruct (Uuid.isValidUUID farmId) eqn:Hv; cbn [negb].
  2:{ left. exists invalid_uuid. repeat split. discriminate. }
  destruct (upstream o 0) as [|m] eqn:Hu.
  2:{ left. eexists. repeat split. discriminate. }
  destruct (filter (has_id farmId) farms) as [|r [|r2 rest]] eqn:Hf.
  1,3: left; eexists; repeat split; discriminate.
  cbv zeta. cbn [get String.eqb Ascii.eqb Bool.eqb].
  destruct (truthy (get "owner_id" r)) eqn:Ht; cbn [andb].
  - destruct (jsval_eqb (get "owner_id" r) (getCurrentUserId o)) eqn:He;
      cbn [negb].
    + right. repeat (split; [reflexivity|]). exists r.
      split; [reflexivity|]. split.
      { right. apply jsval_eqb_eq. exact He. }
      split; [|reflexivity]. intro farmData.
      destruct (upstream o 1); reflexivity.
    + left. exists access_denied. repeat split. discriminate.
  - right. repeat (split; [reflexivity|]). exists r.
    split; [reflexivity|]. split; [left; exact Ht|].
    split; [|reflexivity]. intro farmData.
    destruct (upstream o 1); reflexivity.
Qed.

Lemma updated_get (farmData r : JsObject) (t k : string) :
  get k (updated farmData t r)
  = if String.eqb "updated_at" k then JString t
    else if binds k farmData then get k farmData else get k r.
Proof.
  unfold updated, spread. cbn [app get].
  destruct (String.eqb "updated_at" k); [reflexivity|]. apply get_app.
Qed.

(** X25.  [updateFarm] never touches a farm the current user may not
    change.  Whatever the arguments and the service, the table keeps its
    length and every row with another id; and either it is left as it was,
    or the id is well formed, exactly one row has it, that row has no owner
    or is owned by the current user, and that row alone is replaced by its
    update. *)
Theorem update_farm_changes_one_permitted_row (farmId : string)
    (farmData : JsObject) (farms : list JsObject) :
  let U := updateFarm o farmId farmData farms in
  List.length (snd U) = List.length farms
  /\ (forall x, In x farms -> has_id farmId x = false -> In x (snd U))
  /\ (snd U = farms
      \/ (Uuid.isValidUUID farmId = true
          /\ exists r,
               filter (has_id farmId) farms = [r]
               /\ may_change o r
               /\ U = ({| data := DRows [updated farmData (now o) r];
                          error := None |},
                       map (fun x => if has_id farmId x
                                     then updated farmData (now o) x else x)
                           farms))).
Proof.
  cbv zeta.
  destruct (guard_cases farmId farms)
    as [(r1 & Hu & _)|(Hv & _ & r & Hf & Hmay & Hu & _)].
  - rewrite (Hu farmData). cbn [snd]. auto.
  - rewrite (Hu farmData). destruct (upstream o 1); cbn [snd]; [|auto].
    split; [apply length_map|]. split.
    + intros x Hin Hx. apply in_map_iff. exists x. rewrite Hx. auto.
    + right. split; [exact Hv|]. exists r. auto.
Qed.

(** X26.  What a successful [updateFarm] stores: the one row with that id,
    with [updated_at] set to the clock reading and every property that
    [farmData] has taken from it, [id] and [owner_id] included; the other
    properties of the row are kept. *)
Theorem update_farm_overrides (farmId : string) (farmData : JsObject)
    (farms : list JsObject) :
  error (fst (updateFarm o farmId farmData farms)) = None ->
  exists r r',
    filter (has_id farmId) farms = [r]
    /\ data (fst (updateFarm o farmId farmData farms)) = DRows [r']
    /\ In r' (snd (updateFarm o farmId farmData farms))
    /\ get "updated_at" r' = JString (now o)
    /\ forall k, k <> "updated_at" ->
         get k r' = if binds k farmData then get k farmData else get k r.
Proof.
  intro Hok.
  destruct (guard_cases farmId farms)
    as [(r1 & Hu & _ & Herr)|(Hv & _ & r & Hf & Hmay & Hu & _)].
  - rewrite (Hu farmData) in Hok. contradiction.
  - rewrite (Hu farmData) in *. destruct (upstream o 1); [|discriminate Hok].
    exists r, (updated farmData (now o) r). cbn [fst snd data].
    split; [exact Hf|]. split; [reflexivity|]. split.
    + apply in_map_iff. exists r.
      assert (Hin : In r (filter (has_id farmId) farms))
        by (rewrite Hf; left; reflexivity).
      apply filter_In in Hin. destruct Hin as [Hin Hid]. rewrite Hid. auto.
    + split; [rewrite updated_get; reflexivity|].
      intros k Hk. rewrite updated_get.
      destruct (String.eqb "updated_at" k) eqn:He; [|reflexivity].
      apply String.eqb_eq in He. symmetry in He. contradiction.
Qed.

(** X27.  [deleteFarm] never removes a farm the current user may not
    change: either the table is left as it was, or exactly one row has the
    id, that row has no owner or is owned by the current user, and the table
    afterwards is the table without it, one row shorter. *)
Theorem delete_farm_removes_one_permitted_row (farmId : string)
    (farms : list JsObject) :
  let D := deleteFarm o farmId farms in
  snd D = farms
  \/ exists r,
       filter (has_id farmId) farms = [r]
       /\ may_change o r
       /\ error (fst D) = None
       /\ List.length farms = S (List.length (snd D))
       /\ forall x, In x (snd D) <-> In x farms /\ has_id farmId x = false.
Proof.
  cbv zeta.
  destruct (guard_cases farmId farms)
    as [(r1 & _ & Hd & _)|(Hv & _ & r & Hf & Hmay & _ & Hd)].
  - rewrite Hd. left. reflexivity.
  - rewrite Hd. destruct (upstream o 1); cbn [fst snd]; [|left; reflexivity].
    right. exists r. split; [exact Hf|]. split; [exact Hmay|].
    split; [reflexivity|]. split; [apply (filter_one_length _ _ r Hf)|].
    intro x. rewrite filter_In, negb_true_iff. tauto.
Qed.

(** X28.  [checkOwnership] is stricter than the guard of [updateFarm] and
    [deleteFarm].  When it answers that the user owns the farm, both pass
    their guard and succeed if the change is served.  A farm without an
    owner is reported as not owned, and yet both change it, for a user who
    is signed in as for one who is not. *)
Theorem ownership_check_is_stricter_than_guard (farmId : string)
    (farmData : JsObject) (farms : list JsObject) :
  (owns (checkOwnership o farmId farms) = true ->
   upstream o 1 = Serves ->
   error (fst (updateFarm o farmId farmData farms)) = None
   /\ error (fst (deleteFarm o farmId farms)) = None)
  /\
  (forall r,
      Uuid.isValidUUID farmId = true ->
      upstream o 0 = Serves ->
      upstream o 1 = Serves ->
      filter (has_id farmId) farms = [r] ->
      truthy (get "owner_id" r) = false ->
      owns (checkOwnership o farmId farms) = false
      /\ error (fst (updateFarm o farmId farmData farms)) = None
      /\ error (fst (deleteFarm o farmId farms)) = None).
Proof.
  split.
  - intros Hown Hu1.
    destruct (guard_cases farmId farms)
      as [(r1 & Hu & Hd & Herr)|(Hv & _ & r & Hf & Hmay & Hu & Hd)].
    + exfalso. revert Hown Hd. unfold checkOwnership, deleteFarm.
      destruct (Uuid.isValidUUID farmId); cbn [negb owns];
        [|discriminate].
      cbv zeta.
      destruct (truthy (getCurrentUserId o)) eqn:Ht; cbn [negb owns];
        [|discriminate].
      destruct (select_owner_single (upstream o 0) farmId farms)
        as [existing|m]; cbn [owns]; [|discriminate].
      intro He. rewrite He. apply jsval_eqb_eq in He. rewrite He, Ht.
      cbn [negb andb]. rewrite Hu1. intro Hd. inversion Hd; subst.
      apply Herr. reflexivity.
    + rewrite (Hu farmData), Hd, Hu1. split; reflexivity.
  - intros r Hv Hu0 Hu1 Hf Hno. unfold checkOwnership, updateFarm, deleteFarm,
      select_owner_single.
    rewrite Hv, Hu0, Hu1, Hf. cbn [negb]. cbv zeta.
    cbn [get String.eqb Ascii.eqb Bool.eqb]. rewrite Hno. cbn [andb fst error].
    split; [|split; reflexivity].
    destruct (truthy (getCurrentUserId o)) eqn:Ht; cbn [negb owns];
      [|reflexivity].
    destruct (jsval_eqb (get "owner_id" r) (getCurrentUserId o)) eqn:He;
      [|reflexivity].
    apply jsval_eqb_eq in He. rewrite He, Ht in Hno. discriminate.
Qed.

Lemma new_row_get (id : string) (farmData : JsObject) (k : string) :
  get k (new_row o id farmData)
  = if String.eqb "owner_id" k then getCurrentUserId o
    else if binds k farmData then get k farmData
         else if String.eqb "id" k then JString id else JUndefined.
Proof.
  unfold new_row, spread. cbn [app get].
  destruct (String.eqb "owner_id" k); [reflexivity|].
  rewrite get_app. reflexivity.
Qed.

(** X29.  [addFarm] and back.  With a well-formed generated id that no farm
    has yet, and farm data without an [id] of its own, a served [addFarm]
    appends one row: its id is the generated one, its owner the current
    user (or null), whatever owner the farm data names, and its other
    properties are those of the farm data.  [getFarmById] then returns that
    row; [checkOwnership] reports it as owned exactly when a user is signed
    in; and when one is, [updateFarm] by any other user is refused and
    leaves the table as it is. *)
Theorem add_farm_round_trip (id : string) (farmData : JsObject)
    (farms : list JsObject) :
  Uuid.isValidUUID id = true ->
  filter (has_id id) farms = [] ->
  binds "id" farmData = false ->
  upstream o 0 = Serves ->
  exists row,
    addFarm o id farmData farms
    = ({| data := DRows [row]; error := None |}, (farms ++ [row])%list)
    /\ get "id" row = JString id
    /\ get "owner_id" row = getCurrentUserId o
    /\ (forall k, k <> "owner_id" -> binds k farmData = true ->
                  get k row = get k farmData)
    /\ getFarmById o id (farms ++ [row])%list = Found row
    /\ owns (checkOwnership o id (farms ++ [row])%list)
       = truthy (getCurrentUserId o)
    /\ forall (o' : Oracle) (change : JsObject),
         truthy (getCurrentUserId o) = true ->
         getCurrentUserId o' <> getCurrentUserId o ->
         upstream o' 0 = Serves ->
         updateFarm o' id change (farms ++ [row])%list
         = (access_denied, (farms ++ [row])%list).
Proof.
  intros Hv Hnew Hid Hu. exists (new_row o id farmData).
  assert (Hrid : get "id" (new_row o id farmData) = JString id).
  { rewrite new_row_get, Hid. reflexivity. }
  assert (Hown : get "owner_id" (new_row o id farmData) = getCurrentUserId o).
  { rewrite new_row_get. reflexivity. }
  assert (Hf : filter (has_id id) (farms ++ [new_row o id farmData])%list
               = [new_row o id farmData]).
  { rewrite filter_app, Hnew. cbn [filter app]. unfold has_id at 1.
    rewrite Hrid. cbn [jsval_eqb]. rewrite String.eqb_refl. reflexivity. }
  split; [unfold addFarm; rewrite Hu; reflexivity|].
  split; [exact Hrid|]. split; [exact Hown|]. split.
  { intros k Hk Hb. rewrite new_row_get, Hb.
    destruct (String.eqb "owner_id" k) eqn:He; [|reflexivity].
    apply String.eqb_eq in He. symmetry in He. contradiction. }
  split.
  { unfold getFarmById, select_single. rewrite Hv, Hu, Hf. reflexivity. }
  split.
  { unfold checkOwnership, select_owner_single. rewrite Hv, Hu, Hf.
    cbn [negb]. cbv zeta.
    destruct (truthy (getCurrentUserId o)); cbn [negb owns]; [|reflexivity].
    cbn [get String.eqb Ascii.eqb Bool.eqb]. rewrite Hown.
    apply jsval_eqb_eq. reflexivity. }
  intros o' change Ht Hother Hu'. unfold updateFarm, select_owner_single.
  rewrite Hv, Hu', Hf. cbn [negb]. cbv zeta.
  cbn [get String.eqb Ascii.eqb Bool.eqb]. rewrite Hown, Ht.
  destruct (jsval_eqb (getCurrentUserId o) (getCurrentUserId o')) eqn:He;
    [|reflexivity].
  apply jsval_eqb_eq in He. symmetry in He. contradiction.
Qed.

End FarmFacts.

Lemma update_farm_overrides_witness :
  exists r',
    FarmClient.data
      (fst (FarmClient.updateFarm (FarmDemo.as_user (Some "user-a"))
              FarmDemo.fid FarmDemo.details
              [FarmDemo.farm (JString "user-a")]))
    = FarmClient.DRows [r']
    /\ get "owner_id" r' = JString "user-z".
Proof.
  destruct (update_farm_overrides (FarmDemo.as_user (Some "user-a"))
              FarmDemo.fid FarmDemo.details
              [FarmDemo.farm (JString "user-a")])
    as (r & r' & _ & Hd & _ & _ & Hk).
  - reflexivity.
  - exists r'. split; [exact Hd|].
    rewrite (Hk "owner_id"); [reflexivity|discriminate].
Defined.

Lemma add_farm_round_trip_witness :
  exists row,
    Farms.getFarmById (FarmDemo.as_user (Some "user-a")) FarmDemo.fid [row]
    = FarmClient.Found row
    /\ get "owner_id" row = JString "user-a".
Proof.
  destruct (add_farm_round_trip (FarmDemo.as_user (Some "user-a"))
              FarmDemo.fid FarmDemo.details [])
    as (row & _ & _ & Hown & _ & Hget & _).
  - reflexivity.
  - reflexivity.
  - reflexivity.
  - reflexivity.
  - exists row. split; [exact Hget|exact Hown].
Defined.
(* ================================================================== *)
(** * The UUID pattern *)

Section UuidFacts.
Import Uuid.

Lemma test_length (shape : list cls) (s : string) :
  test shape s = true -> String.length s = List.length shape.
Proof.
  revert s. induction shape as [|k shape IH]; intros [|c s] H;
    try discriminate H; [reflexivity|].
  cbn [test] in H. apply andb_true_iff in H. destruct H as [_ H].
  cbn [String.length List.length]. rewrite (IH s H). reflexivity.
Qed.

Lemma test_chars (P : ascii -> Prop) (shape : list cls) (s : string) :
  (forall k c, matches k c = true -> P c) ->
  test shape s = true ->
  Forall P (list_ascii_of_string s).
Proof.
  intro HP. revert s. induction shape as [|k shape IH]; intros [|c s] H;
    try discriminate H; [constructor|].
  cbn [test] in H. apply andb_true_iff in H. destruct H as [Hc H].
  cbn [list_ascii_of_string]. constructor; [apply (HP k c Hc)|apply IH, H].
Qed.

Lemma matches_lower (k : cls) (c : ascii) :
  matches k (lower_char c) = matches k c.
Proof.
  destruct k; destruct c as [[] [] [] [] [] [] [] []]; reflexivity.
Qed.

Lemma test_lower (shape : list cls) (s : string) :
  test shape (toLowerCase s) = test shape s.
Proof.
  revert s. induction shape as [|k shape IH]; intros [|c s];
    try reflexivity.
  cbn [toLowerCase test]. rewrite matches_lower, IH. reflexivity.
Qed.

Lemma matches_plain (k : cls) (c : ascii) :
  matches k c = true -> is_hex c = true \/ c = "-"%char.
Proof.
  destruct k; cbn [matches]; intro H.
  - left. exact H.
  - right. apply Ascii.eqb_eq. exact H.
  - left. apply Ascii.eqb_eq in H. subst. reflexivity.
  - left. revert H. unfold is_variant, is_hex, in_range.
    rewrite !orb_true_iff, !andb_true_iff, !Nat.leb_le. lia.
Qed.

(** X30.  What [isValidUUID] accepts has 36 characters, all of them
    hexadecimal digits or dashes, so that it can go into the query of the
    table URL as it is; and the test does not depend on the case of the
    letters. *)
Theorem valid_uuid_is_plain (str : string) :
  isValidUUID (toLowerCase str) = isValidUUID str
  /\ (isValidUUID str = true ->
      String.length str = 36%nat
      /\ Forall (fun c => is_hex c = true \/ c = "-"%char)
                (list_ascii_of_string str)).
Proof.
  unfold isValidUUID. split; [apply test_lower|]. intro H. split.
  - rewrite (test_length _ _ H). reflexivity.
  - apply (test_chars _ uuidRegex str matches_plain H).
Qed.

End UuidFacts.

(* ================================================================== *)
(** * Letter case *)

Lemma same_letter_lower (c d : ascii) :
  same_letter c d = Ascii.eqb (lower_char c) (lower_char d).
Proof.
  assert (H : forallb
                (fun m =>
                   forallb
                     (fun n =>
                        Bool.eqb
                          (same_letter (ascii_of_nat m) (ascii_of_nat n))
                          (Ascii.eqb (lower_char (ascii_of_nat m))
                                     (lower_char (ascii_of_nat n))))
                     (seq 0 256))
                (seq 0 256) = true) by (vm_compute; reflexivity).
  rewrite forallb_forall in H.
  assert (Hin : forall a : ascii, In (nat_of_ascii a) (seq 0 256)).
  { intro a. apply in_seq. pose proof (nat_ascii_bounded a). lia. }
  specialize (H _ (Hin c)). rewrite forallb_forall in H.
  specialize (H _ (Hin d)). rewrite !ascii_nat_embedding in H.
  apply Bool.eqb_prop in H. exact H.
Qed.

Lemma eq_ci_lower (a b : string) :
  eq_ci a b = true <-> toLowerCase a = toLowerCase b.
Proof.
  revert b. induction a as [|c a IH]; intros [|d b]; simpl;
    try (split; [discriminate|discriminate]); [tauto|].
  rewrite andb_true_iff, same_letter_lower, Ascii.eqb_eq, IH. split.
  - intros [-> ->]. reflexivity.
  - intro H. injection H as H1 H2. auto.
Qed.

Lemma toLowerCase_app (a b : string) :
  toLowerCase (a ++ b) = (toLowerCase a ++ toLowerCase b)%string.
Proof. induction a as [|c a IH]; simpl; [|rewrite IH]; reflexivity. Qed.

Lemma toLowerCase_app_inv (a b : string) :
  forall s,
    toLowerCase s = (a ++ b)%string ->
    exists s1 s2,
      s = (s1 ++ s2)%string /\ toLowerCase s1 = a /\ toLowerCase s2 = b.
Proof.
  induction a as [|c a IH]; intros s H.
  - exists "", s. auto.
  - destruct s as [|d s]; simpl in H; [discriminate|].
    injection H as Hc Hs. destruct (IH s Hs) as (s1 & s2 & -> & H1 & H2).
    exists (String d s1), s2. simpl. rewrite Hc, H1. auto.
Qed.

(** The substring test on lower-cased texts decides occurrence up to
    case. *)
Lemma occurs_ci_includes (s q : string) :
  includes (toLowerCase s) (toLowerCase q) = true <-> occurs_ci s q.
Proof.
  rewrite includes_spec. unfold occurs_ci. split.
  - intros (pre & post & H).
    destruct (toLowerCase_app_inv pre _ s H) as (s1 & s23 & -> & H1 & H23).
    destruct (toLowerCase_app_inv _ post s23 H23) as (s2 & s3 & -> & H2 & H3).
    exists s1, s2, s3. split; [reflexivity|]. apply eq_ci_lower, H2.
  - intros (pre & mid & post & -> & H). apply eq_ci_lower in H.
    exists (toLowerCase pre), (toLowerCase post).
    rewrite !toLowerCase_app, H. reflexivity.
Qed.

Lemma eq_ci_year_round (s : string) :
  eq_ci s "year-round" = true <-> toLowerCase s = "year-round".
Proof. apply eq_ci_lower. Qed.

(* ================================================================== *)
(** * Catalogue queries on any parameter *)

Section ServerCatalogFacts.
Import Catalog Routes Server.

Variable categories : list Category.
Variable farms : list Farm.

Lemma filter_with_total {A : Type} (f : A -> bool) (l : list A) :
  filter_with (fun x => Some (f x)) l = Some (filter f l).
Proof.
  induction l as [|x l IH]; simpl; [reflexivity|].
  rewrite IH. destruct (f x); reflexivity.
Qed.

Lemma filter_with_throws {A : Type} (f : A -> option bool) (l : list A) :
  (forall x, f x = None) -> l <> [] -> filter_with f l = None.
Proof.
  intros H Hne. destruct l as [|x l]; [congruence|]. simpl.
  rewrite (H x). reflexivity.
Qed.

Lemma listing_fields (l : Listing) (cat : Category) (item : Item) :
  l = listing cat item
  <-> listing_item l = item /\ category l = cat_name cat
      /\ categoryId l = cat_id cat.
Proof.
  split.
  - intros ->. simpl. auto.
  - destruct l as [i c ci]. simpl. intros (-> & -> & ->). reflexivity.
Qed.

Lemma produce_hit_occurs (q : string) (cat : Category) (item : Item) :
  produce_hit (toLowerCase q) cat item = true
  <-> occurs_ci (item_name item) q \/ occurs_ci (cat_name cat) q.
Proof.
  unfold produce_hit. rewrite orb_true_iff, !occurs_ci_includes. tauto.
Qed.

Lemma farm_hit_occurs (q : string) (farm : Farm) :
  farm_hit (toLowerCase q) farm = true
  <-> occurs_ci (farm_name farm) q
      \/ occurs_ci (farm_location farm) q
      \/ exists s, In s (farm_specialties farm) /\ occurs_ci s q.
Proof.
  unfold farm_hit. rewrite !orb_true_iff, existsb_exists, !occurs_ci_includes.
  split.
  - intros [[H|H]|(s & Hs & H)]; auto.
    right; right. exists s. split; [exact Hs|]. apply occurs_ci_includes, H.
  - intros [H|[H|(s & Hs & H)]]; auto.
    right. exists s. split; [exact Hs|]. apply occurs_ci_includes, H.
Qed.

(** The items that the category parameter selects. *)
Lemma selected_items (category : option Param) (l : Listing) :
  In l (flat_map (fun cat =>
                    if negb (given category) || is_param (cat_id cat) category
                    then map (listing cat) (cat_items cat) else [])
                 categories)
  <-> exists cat item,
        In cat categories /\ In item (cat_items cat) /\ l = listing cat item
        /\ negb (given category) || is_param (cat_id cat) category = true.
Proof.
  apply (in_selected categories
           (fun cat => negb (given category) || is_param (cat_id cat) category)).
Qed.

(** On parameters that are strings or absent the two routes are those of
    [Catalog]. *)
Lemma get_produce_single (category season : option string) :
  get_produce categories (option_map Single category)
              (option_map Single season)
  = Json (Catalog.get_produce categories category season).
Proof.
  unfold get_produce, Catalog.get_produce.
  assert (Hsel : forall cat,
             negb (given (option_map Single category))
             || is_param (cat_id cat) (option_map Single category)
             = category_selected category cat).
  { intro cat. unfold category_selected.
    destruct category as [c|]; reflexivity. }
  rewrite (flat_map_ext _ _ (fun cat => f_equal
             (fun b : bool => if b then map (listing cat) (cat_items cat)
                              else []) (Hsel cat))).
  destruct season as [s|]; cbn [option_map]; [|reflexivity].
  cbn [given truthy_opt]. destruct (negb (String.eqb s "")); [|reflexivity].
  change (in_season (Single s))
    with (fun l : Listing => Some (Catalog.in_season s l)).
  rewrite filter_with_total. reflexivity.
Qed.

Lemma get_search_single (q : option string) :
  get_search categories farms (option_map Single q)
  = match Catalog.get_search categories farms q with
    | BadRequest st e => Failure st e
    | Found s n r =>
        Json {| search_query := s; search_count := n; search_results := r |}
    end.
Proof.
  destruct q as [s|]; [|reflexivity].
  unfold get_search, Catalog.get_search.
  cbn [option_map given short lowered truthy_opt].
  destruct (negb (negb (String.eqb s "")) || (String.length s <? 2)%nat);
    reflexivity.
Qed.

(** C6, as the code has it.  [GET /api/search]: with no [q], with a [q]
    that is a string of fewer than two code units, and with a repeated or
    bracketed [q] whose length is below 2, the answer is 400 and carries no
    results.  With a [q] that is one string Q of two code units or more the
    answer echoes Q, counts the results, and holds exactly the items, each
    with the name and the id of its category, whose name or whose
    category's name has an occurrence of Q up to the case of the letters,
    and exactly the farms whose name, location or one of whose specialties
    has one.  A [q] repeated twice or more, or a bracketed one whose length
    is not below 2, is answered 500. *)
Theorem search_exact :
  get_search categories farms None
  = Failure 400 "Search query must be at least 2 characters"
  /\
  (forall s,
      (String.length s < 2)%nat ->
      get_search categories farms (Some (Single s))
      = Failure 400 "Search query must be at least 2 characters")
  /\
  (forall s,
      (2 <= String.length s)%nat ->
      exists results,
        get_search categories farms (Some (Single s))
        = Json {| search_query := s;
                  search_count := List.length (results_produce results)
                                  + List.length (results_farms results);
                  search_results := results |}
        /\ (forall l, In l (results_produce results)
                      <-> exists cat item,
                            In cat categories /\ In item (cat_items cat)
                            /\ listing_item l = item
                            /\ category l = cat_name cat
                            /\ categoryId l = cat_id cat
                            /\ (occurs_ci (item_name item) s
                                \/ occurs_ci (cat_name cat) s))
        /\ (forall f, In f (results_farms results)
                      <-> In f farms
                          /\ (occurs_ci (farm_name f) s
                              \/ occurs_ci (farm_location f) s
                              \/ exists sp, In sp (farm_specialties f)
                                            /\ occurs_ci sp s)))
  /\
  (forall items,
      get_search categories farms (Some (Many items))
      = if (List.length items <? 2)%nat
        then Failure 400 "Search query must be at least 2 characters"
        else Failure 500 "Something went wrong!")
  /\
  (forall b,
      get_search categories farms (Some (Nested b))
      = if b
        then Failure 400 "Search query must be at least 2 characters"
        else Failure 500 "Something went wrong!").
Proof.
  split; [reflexivity|]. split.
  { intros s H. unfold get_search. cbn [short].
    apply Nat.ltb_lt in H. rewrite H, orb_true_r. reflexivity. }
  split.
  { intros s H.
    assert (Hlen : (String.length s <? 2)%nat = false)
      by (apply Nat.ltb_ge; lia).
    assert (Hne : String.eqb s "" = false).
    { apply String.eqb_neq. intros ->. simpl in H. lia. }
    exists {| results_produce :=
                flat_map (fun cat =>
                            map (listing cat)
                                (filter (produce_hit (toLowerCase s) cat)
                                        (cat_items cat)))
                         categories;
              results_farms := filter (farm_hit (toLowerCase s)) farms |}.
    split.
    - unfold get_search. cbn [given short lowered]. rewrite Hne, Hlen.
      reflexivity.
    - cbn [results_produce results_farms]. split.
      + intro l. rewrite in_flat_map. split.
        * intros (cat & Hcat & Hl). apply in_map_iff in Hl.
          destruct Hl as (item & <- & Hitem). apply filter_In in Hitem.
          destruct Hitem as [Hitem Hhit]. exists cat, item.
          cbn [listing listing_item category categoryId].
          repeat (split; [auto; fail|]). apply produce_hit_occurs, Hhit.
        * intros (cat & item & Hcat & Hitem & H1 & H2 & H3 & Hhit).
          exists cat. split; [exact Hcat|].
          assert (Hl : l = listing cat item)
            by (apply listing_fields; auto).
          rewrite Hl. apply in_map, filter_In.
          split; [exact Hitem|]. apply produce_hit_occurs, Hhit.
      + intro f. rewrite filter_In, farm_hit_occurs. tauto. }
  split.
  - intro items. unfold get_search. cbn [given short lowered negb orb].
    destruct (List.length items <? 2)%nat; reflexivity.
  - intro b. unfold get_search. cbn [given short lowered negb orb].
    destruct b; reflexivity.
Qed.

(** C9, as the code has it.  On a request that carries a season
    parameter, take an item whose season reads "year-round" up to case, in
    a category that the request selects (any category when there is no
    category parameter or an empty one, otherwise the category whose id is
    the parameter).  When the season parameter is one string the item is in
    the answer, with the name and the id of its category, whatever the
    string.  When the season parameter is repeated or bracketed the request
    is answered 500 and returns nothing. *)
Theorem year_round_always_in_season (category : option Param)
    (season : Param) (cat : Category) (item : Item) :
  In cat categories ->
  In item (cat_items cat) ->
  category = None \/ category = Some (Single "")
  \/ category = Some (Single (cat_id cat)) ->
  eq_ci (item_season item) "year-round" = true ->
  (forall s,
      season = Single s ->
      exists body l,
        get_produce categories category (Some season) = Json body
        /\ In l (produce_items body)
        /\ listing_item l = item
        /\ Catalog.category l = cat_name cat
        /\ categoryId l = cat_id cat)
  /\
  ((forall s, season <> Single s) ->
   get_produce categories category (Some season)
   = Failure 500 "Something went wrong!").
Proof.
  intros Hcat Hitem Hsel Hyear. apply eq_ci_year_round in Hyear.
  assert (Hin : In (listing cat item)
                   (flat_map
                      (fun cat =>
                         if negb (given category)
                            || is_param (cat_id cat) category
                         then map (listing cat) (cat_items cat) else [])
                      categories)).
  { apply selected_items. exists cat, item. repeat (split; [auto; fail|]).
    destruct Hsel as [->|[->| ->]]; cbn [given is_param negb orb];
      try reflexivity.
    rewrite String.eqb_refl. apply orb_true_r. }
  split.
  - intros s ->. unfold get_produce. cbv zeta.
    destruct (given (Some (Single s))) eqn:Hg.
    + change (in_season (Single s))
        with (fun l : Listing =>
                Some (includes (toLowerCase (item_season (listing_item l)))
                               (toLowerCase s)
                      || String.eqb
                           (toLowerCase (item_season (listing_item l)))
                           "year-round")).
      rewrite filter_with_total. eexists _, (listing cat item).
      split; [reflexivity|]. cbn [produce_items]. split.
      * apply filter_In. split; [exact Hin|]. cbn [listing listing_item].
        rewrite Hyear. apply orb_true_r.
      * cbn [listing listing_item Catalog.category categoryId]. auto.
    + eexists _, (listing cat item). split; [reflexivity|].
      cbn [produce_items]. split; [exact Hin|].
      cbn [listing listing_item Catalog.category categoryId]. auto.
  - intro Hns. unfold get_produce. cbv zeta.
    assert (Hg : given (Some season) = true).
    { destruct season as [s|items|b]; try reflexivity.
      exfalso. apply (Hns s). reflexivity. }
    rewrite Hg, filter_with_throws; [reflexivity| |].
    + intro x. unfold in_season.
      destruct season as [s|items|b]; try reflexivity.
      exfalso. apply (Hns s). reflexivity.
    + intro E. rewrite E in Hin. contradiction.
Qed.

End ServerCatalogFacts.

Lemma search_exact_witness :
  exists body,
    Server.get_search CatalogDemo.categories CatalogDemo.farms
      (Some (Server.Single "MANGO"))
    = Routes.Json body
    /\ In (Catalog.listing CatalogDemo.fruits CatalogDemo.mango)
          (Catalog.results_produce (Server.search_results body))
    /\ In CatalogDemo.green_valley
          (Catalog.results_farms (Server.search_results body)).
Proof.
  destruct (proj1 (proj2 (proj2
              (search_exact CatalogDemo.categories CatalogDemo.farms)))
              "MANGO") as (results & Hr & Hp & Hf).
  - simpl. lia.
  - eexists. split; [exact Hr|]. cbn [Server.search_results]. split.
    + apply Hp. exists CatalogDemo.fruits, CatalogDemo.mango.
      repeat (split; [simpl; auto; fail|]).
      left. exists "", "Mango", "". split; reflexivity.
    + apply Hf. split; [simpl; auto|]. right; right.
      exists "Mangoes". split; [simpl; auto|].
      exists "", "Mango", "es". split; reflexivity.
Defined.

(** The search folds the accented capitals too: the small e with an acute
    accent, code unit 233, followed by p finds the item. *)
Example search_accented :
  exists body,
    Server.get_search [ServerDemo.leaves] []
      (Some (Server.Single (String (ascii_of_nat 233) "p")))
    = Routes.Json body
    /\ Catalog.results_produce (Server.search_results body)
       = [Catalog.listing ServerDemo.leaves ServerDemo.epinard].
Proof. eexists. split; reflexivity. Qed.

(** C6 as stated fails: with [?q=mango&q=mango] the parameter is not
    shorter than two, the catalogue has an item named Mango, and the answer
    is neither that item nor 400 but 500. *)
Lemma repeated_query_answers_500 :
  occurs_ci (Catalog.item_name CatalogDemo.mango) "mango"
  /\ In CatalogDemo.mango (Catalog.cat_items CatalogDemo.fruits)
  /\ In CatalogDemo.fruits CatalogDemo.categories
  /\ Server.get_search CatalogDemo.categories CatalogDemo.farms
       (Some (Server.Many [Server.Single "mango"; Server.Single "mango"]))
     = Routes.Failure 500 "Something went wrong!".
Proof.
  split; [exists "", "Mango", ""; split; reflexivity|].
  split; [simpl; auto|]. split; [simpl; auto|reflexivity].
Qed.

Lemma year_round_always_in_season_witness :
  exists body,
    Server.get_produce CatalogDemo.categories None
      (Some (Server.Single "july"))
    = Routes.Json body
    /\ In (Catalog.listing CatalogDemo.roots CatalogDemo.cassava)
          (Catalog.produce_items body).
Proof.
  destruct (year_round_always_in_season CatalogDemo.categories None
              (Server.Single "july") CatalogDemo.roots CatalogDemo.cassava)
    as [H _].
  - simpl. auto.
  - simpl. auto.
  - left. reflexivity.
  - reflexivity.
  - destruct (H "july" eq_refl) as (body & l & Hb & Hl & H1 & H2 & H3).
    exists body. split; [exact Hb|].
    assert (E : l = Catalog.listing CatalogDemo.roots CatalogDemo.cassava).
    { destruct l. simpl in *. subst. reflexivity. }
    rewrite <- E. exact Hl.
Defined.

(** C9 as stated fails on two counts.  With [?category=fruits&season=july]
    the year-round cassava, of another category, is not in the answer.  And
    with [?season=july&season=august] the request carries a season
    parameter and is answered 500, with no item at all. *)
Lemma year_round_item_filtered_by_category :
  eq_ci (Catalog.item_season CatalogDemo.cassava) "year-round" = true
  /\ (exists body,
         Server.get_produce CatalogDemo.categories
           (Some (Server.Single "fruits")) (Some (Server.Single "july"))
         = Routes.Json body
         /\ ~ In (Catalog.listing CatalogDemo.roots CatalogDemo.cassava)
                 (Catalog.produce_items body))
  /\ Server.get_produce CatalogDemo.categories None
       (Some (Server.Many [Server.Single "july"; Server.Single "august"]))
     = Routes.Failure 500 "Something went wrong!".
Proof.
  split; [reflexivity|]. split; [|reflexivity].
  eexists. split; [reflexivity|]. simpl. intros [H|[]]. discriminate H.
Qed.

(* ================================================================== *)
(** * The forms on any body and any file *)

Section ServerFormFacts.
Import Json Server.
Import Signups (Response, status, payload, Error, Subscribed, Position,
                Created, crashed).
Import Waitlist (Oracle, date_now, iso_now, write_ok, emailRegex).

(** The duplicate test on a file whose elements all have a string address:
    it throws when the submitted address is not a string and the file is
    not empty, and not otherwise. *)
Lemma some_same_email_strings (e : string) (l : list value) :
  Forall has_address l ->
  some_same_email (Str e) l
  = Some (existsb (fun x => match address x with
                            | Some a => String.eqb a (toLowerCase e)
                            | None => false
                            end) l).
Proof.
  induction 1 as [|x l [a Ha] _ IH]; [reflexivity|].
  cbn [some_same_email existsb]. unfold address at 1. rewrite Ha.
  cbn [lower]. destruct (String.eqb (toLowerCase a) (toLowerCase e));
    [reflexivity|exact IH].
Qed.

Lemma some_same_email_case (e1 e2 : string) (l : list value) :
  toLowerCase e1 = toLowerCase e2 ->
  some_same_email (Str e1) l = some_same_email (Str e2) l.
Proof.
  intro H. induction l as [|x l IH]; [reflexivity|].
  cbn [some_same_email lower]. rewrite H, IH. reflexivity.
Qed.

Lemma some_same_email_last (e : string) (l : list value) (x : value)
    (a : string) :
  Forall has_address l ->
  prop "email" x = Some (Str a) ->
  toLowerCase a = toLowerCase e ->
  some_same_email (Str e) (l ++ [x]) = Some true.
Proof.
  intros Hl Hx Ha.
  rewrite some_same_email_strings.
  - rewrite existsb_app. cbn [existsb]. unfold address at 2. rewrite Hx, Ha.
    rewrite String.eqb_refl. f_equal. rewrite orb_true_r. reflexivity.
  - apply Forall_app. split; [exact Hl|]. repeat constructor.
    exists a. exact Hx.
Qed.

Variable srv : Waitlist.Server.

Lemma waitlist_entry_email (o : Oracle) (b : Submission) :
  prop "email" (waitlist_entry srv o b) = Some (email b).
Proof. reflexivity. Qed.

(** The ways through the waitlist form. *)
Lemma post_waitlist_paths (o : Oracle) (b : Submission) (file : File) :
  let P := post_waitlist srv o b file in
  (status (fst P) = 400%Z /\ snd P = file
   /\ (truthy (email b) = false
       \/ (exists text, toString (email b) = Some text
                        /\ Regex.test emailRegex text = false)
       \/ exists l, loadJSON file = Arr l
                    /\ some_same_email (email b) l = Some true))
  \/ (P = (crashed, file)
      /\ truthy (email b) = true
      /\ (toString (email b) = None
          \/ (forall l, loadJSON file <> Arr l)
          \/ exists l, loadJSON file = Arr l
                       /\ some_same_email (email b) l = None))
  \/ (exists text l,
         truthy (email b) = true
         /\ toString (email b) = Some text
         /\ Regex.test emailRegex text = true
         /\ loadJSON file = Arr l
         /\ some_same_email (email b) l = Some false
         /\ ((write_ok o = false
              /\ P = ({| status := 500;
                         payload := Error "Failed to save waitlist entry" |},
                      file))
             \/ (write_ok o = true
                 /\ snd P = Some (Arr (l ++ [waitlist_entry srv o b]))
                 /\ fst P
                    = if renders (waitlist_mail srv b)
                      then {| status := 201;
                              payload := Position (S (List.length l)) |}
                      else crashed))).
Proof.
  cbv zeta. unfold post_waitlist.
  destruct (truthy (email b)) eqn:Ht; cbn [negb].
  2:{ left. auto. }
  destruct (toString (email b)) as [text|] eqn:Hs.
  2:{ right; left. auto. }
  destruct (Regex.test emailRegex text) eqn:Hv; cbn [negb].
  2:{ left. split; [reflexivity|]. split; [reflexivity|].
      right; left. exists text. auto. }
  destruct (loadJSON file) as [| |x|x|x|l|x] eqn:Hl;
    try (right; left; split; [reflexivity|]; split; [reflexivity|];
         right; left; intros l' E; discriminate E).
  destruct (some_same_email (email b) l) as [[|]|] eqn:Hd.
  - left. split; [reflexivity|]. split; [reflexivity|].
    right; right. exists l. auto.
  - right; right. exists text, l.
    repeat (split; [first [assumption|reflexivity]|]).
    unfold saveJSON. destruct (write_ok o).
    + right. split; [reflexivity|]. rewrite length_app, Nat.add_comm.
      cbn [List.length Nat.add].
      destruct (renders (waitlist_mail srv b)); split; reflexivity.
    + left. auto.
  - right; left. split; [reflexivity|]. split; [reflexivity|].
    right; right. exists l. auto.
Qed.

(** X7.  A waitlist submission that is answered 201 has appended exactly
    one entry, carrying the address as it was sent, and reports its rank.
    One that is answered 400 leaves the file untouched.  One that is
    answered 500 leaves the file untouched too, unless the entry was written
    and the text of the notification mail could not be built (a name, a
    business type or a location that does not convert to a string): then
    the entry stays in the file.  There is no other answer. *)
Theorem waitlist_appends_or_leaves (o : Oracle) (b : Submission)
    (file : File) :
  let r := fst (post_waitlist srv o b file) in
  let file' := snd (post_waitlist srv o b file) in
  (status r = 201%Z
   /\ exists l,
        loadJSON file = Arr l
        /\ payload r = Position (S (List.length l))
        /\ file' = Some (Arr (l ++ [waitlist_entry srv o b]))
        /\ prop "email" (waitlist_entry srv o b) = Some (email b))
  \/ (status r = 400%Z /\ file' = file)
  \/ (status r = 500%Z
      /\ (file' = file
          \/ (srv = Waitlist.Current
              /\ renders (waitlist_mail srv b) = false
              /\ exists l,
                   loadJSON file = Arr l
                   /\ file' = Some (Arr (l ++ [waitlist_entry srv o b]))))).
Proof.
  cbv zeta.
  destruct (post_waitlist_paths o b file)
    as [(H4 & Hf & _)|[(Hc & _)|(text & l & _ & _ & _ & Hl & _ & Hw)]].
  - right; left. auto.
  - right; right. rewrite Hc. cbn [fst snd status crashed]. auto.
  - destruct Hw as [(_ & Hp)|(_ & Hf & Hr)].
    + right; right. rewrite Hp. cbn [fst snd status]. auto.
    + rewrite Hr, Hf. destruct (renders (waitlist_mail srv b)) eqn:Hm.
      * left. split; [reflexivity|]. exists l. auto.
      * right; right. split; [reflexivity|]. right.
        split; [|split; [reflexivity|exists l; auto]].
        destruct srv; [discriminate Hm|reflexivity].
Qed.

Lemma eq_ci_empty (e1 e2 : string) :
  eq_ci e1 e2 = true -> String.eqb e1 "" = String.eqb e2 "".
Proof. destruct e1, e2; simpl; intro H; try discriminate H; reflexivity. Qed.

(** C7, as the code has it.  Two submissions in a row whose addresses are
    strings equal up to the case of their letters, on a file that is absent
    or holds an array of entries that all have a string address: provided
    the first one's write to [waitlist.json], if it comes to one, succeeds,
    the second is answered 400 and leaves the file as the first left it. *)
Theorem duplicate_waitlist_email_rejected (o1 o2 : Oracle)
    (b1 b2 : Submission) (file : File) (e1 e2 : string) :
  email b1 = Str e1 ->
  email b2 = Str e2 ->
  eq_ci e1 e2 = true ->
  string_addresses file ->
  write_ok o1 = true ->
  let file1 := snd (post_waitlist srv o1 b1 file) in
  status (fst (post_waitlist srv o2 b2 file1)) = 400%Z
  /\ snd (post_waitlist srv o2 b2 file1) = file1.
Proof.
  intros H1 H2 Hci (l & Hl & Hall) Hw file1.
  pose proof (eq_ci_empty e1 e2 Hci) as Hempty.
  apply eq_ci_lower in Hci.
  assert (Hsame : Regex.test emailRegex e2 = Regex.test emailRegex e1).
  { rewrite <- (emailRegex_case e2), <- (emailRegex_case e1), Hci.
    reflexivity. }
  assert (Hknown : forall l',
             loadJSON file1 = Arr l' ->
             some_same_email (Str e2) l' = Some true ->
             status (fst (post_waitlist srv o2 b2 file1)) = 400%Z
             /\ snd (post_waitlist srv o2 b2 file1) = file1).
  { intros l' Hl' Hd. unfold post_waitlist. rewrite H2. cbn [truthy toString].
    destruct (String.eqb e2 ""); cbn [negb]; [split; reflexivity|].
    destruct (Regex.test emailRegex e2); cbn [negb]; [|split; reflexivity].
    rewrite Hl', Hd. split; reflexivity. }
  assert (Hpath := post_waitlist_paths o1 b1 file).
  cbv zeta in Hpath. fold file1 in Hpath. rewrite H1 in Hpath.
  cbn [truthy toString] in Hpath.
  destruct Hpath as [(_ & Hf & Hwhy)|[(Hc & _ & Hwhy)|Hpath]].
  - rewrite Hf in *. destruct Hwhy as [Hno|[(text & Ht & Hbad)|(l' & Hl' & Hd)]].
    + unfold post_waitlist. rewrite H2. cbn [truthy]. rewrite <- Hempty.
      apply negb_false_iff in Hno. rewrite Hno. split; reflexivity.
    + injection Ht as <-. unfold post_waitlist. rewrite H2.
      cbn [truthy toString]. rewrite Hsame, Hbad.
      destruct (String.eqb e2 ""); split; reflexivity.
    + apply (Hknown l' Hl').
      rewrite <- (some_same_email_case e1 e2 l' Hci). exact Hd.
  - exfalso. destruct Hwhy as [Hno|[Hno|(l' & Hl' & Hd)]].
    + discriminate Hno.
    + apply (Hno l Hl).
    + rewrite Hl in Hl'. injection Hl' as <-.
      rewrite (some_same_email_strings e1 l Hall) in Hd. discriminate Hd.
  - destruct Hpath as (text & l' & _ & _ & _ & Hl' & _ & Hsaved).
    rewrite Hl in Hl'. injection Hl' as <-.
    destruct Hsaved as [(Hno & _)|(_ & Hf & _)].
    + rewrite Hw in Hno. discriminate Hno.
    + apply (Hknown (l ++ [waitlist_entry srv o1 b1])).
      * rewrite Hf. reflexivity.
      * apply (some_same_email_last e2 l _ e1 Hall); [|exact Hci].
        rewrite waitlist_entry_email, H1. reflexivity.
Qed.

End ServerFormFacts.

Lemma duplicate_waitlist_email_rejected_witness :
  Signups.status
    (fst (Server.post_waitlist Waitlist.Current WaitlistDemo.at_noon
            (ServerDemo.signup (Json.Str "ama@farm.GH") ServerDemo.odd_name)
            (snd (Server.post_waitlist Waitlist.Current WaitlistDemo.at_noon
                    (ServerDemo.signup (Json.Str "Ama@Farm.gh")
                                       ServerDemo.odd_name)
                    None))))
  = 400%Z.
Proof.
  refine (proj1 (duplicate_waitlist_email_rejected Waitlist.Current
                   WaitlistDemo.at_noon WaitlistDemo.at_noon
                   (ServerDemo.signup (Json.Str "Ama@Farm.gh")
                                      ServerDemo.odd_name)
                   (ServerDemo.signup (Json.Str "ama@farm.GH")
                                      ServerDemo.odd_name)
                   None "Ama@Farm.gh" "ama@farm.GH" _ _ _ _ _));
    try reflexivity.
  exists []. split; [reflexivity|constructor].
Defined.

(** C7 as stated fails on two counts.  The first submission's write fails
    (it is answered 500 and stores nothing), and the second, with the same
    address up to case, is answered 201 and stored.  And once the form has
    stored the body [{"email": ["a@b.co"]}], which it does on an empty
    list, two submissions with the same address up to case are both
    answered 500. *)
Lemma same_email_accepted_after_failed_write :
  eq_ci "Ama@Farm.gh" "ama@farm.GH" = true
  /\ Server.post_waitlist Waitlist.Current WaitlistDemo.disk_full
       (ServerDemo.signup (Json.Str "Ama@Farm.gh") Json.Undefined) None
     = ({| Signups.status := 500;
           Signups.payload :=
             Signups.Error "Failed to save waitlist entry" |}, None)
  /\ Signups.status
       (fst (Server.post_waitlist Waitlist.Current WaitlistDemo.at_noon
               (ServerDemo.signup (Json.Str "ama@farm.GH") Json.Undefined)
               None))
     = 201%Z
  /\ Signups.status
       (fst (Server.post_waitlist Waitlist.Current WaitlistDemo.at_noon
               (ServerDemo.signup ServerDemo.listed Json.Undefined) None))
     = 201%Z
  /\ Server.post_waitlist Waitlist.Current WaitlistDemo.at_noon
       (ServerDemo.signup (Json.Str "Ama@Farm.gh") Json.Undefined)
       (snd (Server.post_waitlist Waitlist.Current WaitlistDemo.at_noon
               (ServerDemo.signup ServerDemo.listed Json.Undefined) None))
     = (Signups.crashed,
        snd (Server.post_waitlist Waitlist.Current WaitlistDemo.at_noon
               (ServerDemo.signup ServerDemo.listed Json.Undefined) None))
  /\ Signups.status
       (fst (Server.post_waitlist Waitlist.Current WaitlistDemo.at_noon
               (ServerDemo.signup (Json.Str "ama@farm.GH") Json.Undefined)
               (snd (Server.post_waitlist Waitlist.Current
                       WaitlistDemo.at_noon
                       (ServerDemo.signup ServerDemo.listed Json.Undefined)
                       None))))
     = 500%Z.
Proof. repeat split. Qed.

(* ================================================================== *)
(** * The CSV export of any file *)

Section ServerExportFacts.
Import Json Csv.
Import CsvExport (waitlist_headers, early_headers, newsletter_headers,
                  Attachment, Failure).

Lemma map_with_some {A B : Type} (f : A -> option B) (l : list A)
    (r : list B) :
  Server.map_with f l = Some r <-> Forall2 (fun x y => f x = Some y) l r.
Proof.
  revert r. induction l as [|x l IH]; intro r; cbn [Server.map_with].
  - split.
    + intro H. injection H as <-. constructor.
    + intro H. inversion H. reflexivity.
  - destruct (f x) as [y|] eqn:Hy.
    + destruct (Server.map_with f l) as [r'|] eqn:Hr.
      * split.
        -- intro H. injection H as <-. constructor; [exact Hy|].
           apply IH. reflexivity.
        -- intro H. inversion H as [|? y' ? r'' Hy' Hrest]; subst.
           rewrite Hy in Hy'. injection Hy' as <-.
           apply IH in Hrest. injection Hrest as <-. reflexivity.
      * split; [discriminate|]. intro H.
        inversion H as [|? y' ? r'' _ Hrest]; subst.
        apply IH in Hrest. discriminate Hrest.
    + split; [discriminate|]. intro H.
      inversion H as [|? y' ? r'' Hy' _]; subst.
      rewrite Hy in Hy'. discriminate Hy'.
Qed.

Lemma map_with_none {A B : Type} (f : A -> option B) (l : list A) :
  Server.map_with f l = None <-> exists x, In x l /\ f x = None.
Proof.
  induction l as [|x l IH]; cbn [Server.map_with].
  - split; [discriminate|]. intros (x & Hx & _). contradiction.
  - destruct (f x) as [y|] eqn:Hy.
    + destruct (Server.map_with f l) as [r'|].
      * split; [discriminate|]. intros (z & [<-|Hz] & Hn).
        -- rewrite Hy in Hn. discriminate Hn.
        -- destruct IH as [_ IH']. discriminate IH'. exists z. auto.
      * split; [|reflexivity]. intros _.
        destruct IH as [IH' _]. destruct (IH' eq_refl) as (z & Hz & Hn).
        exists z. split; [right; exact Hz|exact Hn].
    + split; [|reflexivity]. intros _. exists x. split; [left; reflexivity|].
      exact Hy.
Qed.

(** [escape] on a value that converts: what it does to the converted
    text. *)
Lemma escape_converted (v : value) (text : string) :
  toString v = Some text ->
  v <> Undefined ->
  v <> Null ->
  Server.escape v = Some (CsvExport.escape (JString text)).
Proof.
  intros Ht Hu Hn. destruct v; try congruence;
    unfold Server.escape; rewrite Ht; reflexivity.
Qed.

Lemma escape_is_text (v : value) (c : string) :
  Server.escape v = Some c ->
  exists text, c = CsvExport.escape (JString text).
Proof.
  intro H.
  destruct v as [| |b|t|s|l|o];
    try (injection H as <-; exists ""; reflexivity);
    unfold Server.escape in H;
    match type of H with
    | context [toString ?x] =>
        destruct (toString x) as [text|] eqn:Ht; [|discriminate H]
    end;
    injection H as <-; exists text; reflexivity.
Qed.

Lemma escape_throws (v : value) :
  Server.escape v = None <-> toString v = None.
Proof.
  destruct v as [| |b|t|s|l|o]; unfold Server.escape;
    try (split; discriminate);
    match goal with
    | |- context [toString ?x] => destruct (toString x); split;
                                  first [discriminate|reflexivity|idtac]
    end.
Qed.

Lemma escape_closed (delim : ascii) (v : value) (c : string) :
  delim = ","%char \/ delim = nl ->
  Server.escape v = Some c ->
  scan delim false c = Some false.
Proof.
  intros Hd H. destruct (escape_is_text v c H) as (text & ->).
  apply scan_escape, Hd.
Qed.

(** The cells of a row, when every one of them can be written. *)
Lemma line_cells (headers : list string) (r : value) (l : string) :
  headers <> [] ->
  Server.line headers r = Some l ->
  exists cs,
    l = join "," cs
    /\ cells l = cs
    /\ scan nl false l = Some false
    /\ Forall2 (fun h c => exists v, prop h r = Some v
                                     /\ Server.escape v = Some c)
               headers cs.
Proof.
  intros Hne H. unfold Server.line in H.
  destruct (Server.map_with _ headers) as [cs|] eqn:Hcs; [|discriminate H].
  injection H as <-. apply map_with_some in Hcs.
  assert (Hcells : Forall2 (fun h c => exists v, prop h r = Some v
                                                 /\ Server.escape v = Some c)
                           headers cs).
  { clear Hne. induction Hcs as [|h c hs cs' Hc _ IH]; constructor; [|exact IH].
    destruct (prop h r) as [v|]; [|discriminate Hc]. exists v. auto. }
  assert (Hclosed : forall delim, delim = ","%char \/ delim = nl ->
                      forall c, In c cs -> scan delim false c = Some false).
  { intros delim Hd. clear Hne Hcs.
    induction Hcells as [|h c hs cs' (v & _ & Hc) _ IH]; intros c' Hin.
    - contradiction.
    - destruct Hin as [<-|Hin]; [apply (escape_closed delim v _ Hd Hc)|].
      apply IH, Hin. }
  exists cs. split; [reflexivity|]. split; [|split; [|exact Hcells]].
  - unfold cells. apply (split_join_all "," comma_not_quote).
    + intros ->. inversion Hcs. subst. congruence.
    + apply Hclosed. left. reflexivity.
  - apply scan_join. apply Hclosed. right. reflexivity.
Qed.

(** A row cannot be written exactly when it is [null] (or [undefined]) or
    one of its exported values does not convert to a string. *)
Lemma line_throws (headers : list string) (r : value) :
  headers <> [] ->
  Server.line headers r = None
  <-> r = Undefined \/ r = Null
      \/ exists h v, In h headers /\ prop h r = Some v /\ toString v = None.
Proof.
  intro Hne. unfold Server.line.
  destruct (Server.map_with _ headers) as [cs|] eqn:Hcs; cbn [option_map].
  - split; [discriminate|]. intro H. exfalso.
    apply map_with_some in Hcs.
    destruct H as [->|[->|(h & v & Hh & Hp & Hv)]].
    + destruct headers; [congruence|]. inversion Hcs. discriminate.
    + destruct headers; [congruence|]. inversion Hcs. discriminate.
    + clear Hne. induction Hcs as [|h' c hs cs' Hc _ IH]; [contradiction|].
      destruct Hh as [->|Hh]; [|exact (IH Hh)].
      rewrite Hp in Hc. apply escape_throws in Hv. rewrite Hv in Hc.
      discriminate Hc.
  - split; [|reflexivity]. intros _. apply map_with_none in Hcs.
    destruct Hcs as (h & Hh & Hn).
    destruct (prop h r) as [v|] eqn:Hp.
    + right; right. exists h, v. split; [exact Hh|]. split; [exact Hp|].
      apply escape_throws, Hn.
    + destruct r; try discriminate Hp; auto.
Qed.

(** What [send_csv] sends, read back. *)
Lemma send_csv_rows (type : string) (headers : list string) (file : File) :
  headers <> [] ->
  (forall h, In h headers -> plain_name h) ->
  (forall rows lines,
      loadJSON file = Arr rows ->
      Forall2 (fun r l => Server.line headers r = Some l) rows lines ->
      exists body,
        Server.send_csv type headers file
        = Attachment (type ++ "-export.csv") body
        /\ records body = join "," headers :: lines
        /\ List.length (records body) = S (List.length rows)
        /\ cells (join "," headers) = headers)
  /\
  ((forall rows, loadJSON file <> Arr rows)
   \/ (exists rows r, loadJSON file = Arr rows /\ In r rows
                      /\ Server.line headers r = None) ->
   Server.send_csv type headers file
   = Failure 500 "Something went wrong!").
Proof.
  intros Hne Hplain. split.
  - intros rows lines Hl Hlines. unfold Server.send_csv, Server.csv.
    rewrite Hl. apply map_with_some in Hlines as Hmap. rewrite Hmap.
    cbn [option_map]. eexists. split; [reflexivity|].
    assert (Hrec : records (join newline (join "," headers :: lines))
                   = join "," headers :: lines).
    { unfold records. apply (split_join nl nl_not_quote).
      intros l [<-|Hin].
      - apply scan_join. intros p Hp. apply Hplain, Hp.
      - clear Hmap Hl. induction Hlines as [|r l' rs ls Hr _ IH];
          [contradiction|].
        destruct Hin as [<-|Hin]; [|exact (IH Hin)].
        destruct (line_cells headers r l' Hne Hr) as (cs & _ & _ & Hc & _).
        exact Hc. }
    split; [exact Hrec|]. split.
    + rewrite Hrec. cbn [List.length]. f_equal. symmetry.
      clear Hmap Hrec Hl.
      induction Hlines as [|r l' rs ls _ _ IH]; [reflexivity|].
      cbn [List.length]. f_equal. exact IH.
    + unfold cells. apply (split_join_all "," comma_not_quote _ Hne).
      intros l Hin. apply Hplain, Hin.
  - intros [Hno|(rows & r & Hl & Hin & Hr)]; unfold Server.send_csv.
    + destruct (loadJSON file) as [| |x|x|x|l|x]; try reflexivity.
      exfalso. apply (Hno l). reflexivity.
    + rewrite Hl. unfold Server.csv.
      assert (Hmap : Server.map_with (Server.line headers) rows = None).
      { apply map_with_none. exists r. auto. }
      rewrite Hmap. reflexivity.
Qed.

Lemma plain_waitlist_headers (h : string) :
  In h waitlist_headers -> plain_name h.
Proof.
  intro H. repeat (destruct H as [<-|H]; [split; reflexivity|]).
  contradiction.
Qed.

Lemma plain_early_headers (h : string) : In h early_headers -> plain_name h.
Proof.
  intro H. repeat (destruct H as [<-|H]; [split; reflexivity|]).
  contradiction.
Qed.

Lemma plain_newsletter_headers (h : string) :
  In h newsletter_headers -> plain_name h.
Proof.
  intro H. repeat (destruct H as [<-|H]; [split; reflexivity|]).
  contradiction.
Qed.

(** C8, as the code has it.  When [waitlist.json] is absent or holds an
    array each of whose elements can be written as a line, the export is a
    CSV attachment whose records, cut at the line ends outside double
    quotes, are the header line followed by one line per stored element, in
    order; the cells of the header line are the column names; the cells of
    an element's line, cut at the commas outside double quotes, are its
    escaped values, one per column.  A value that converts to a text with a
    comma or a newline in it is written between double quotes.  An element
    cannot be written as a line exactly when it is [null] or one of its
    exported values does not convert to a string; when there is such an
    element, or the file holds something else than an array, the answer
    is 500 and no CSV. *)
Theorem waitlist_export_rows (disk : Server.Disk) :
  (forall rows lines,
      loadJSON (Server.waitlistFile disk) = Arr rows ->
      Forall2 (fun r l => Server.line waitlist_headers r = Some l)
              rows lines ->
      exists body,
        Server.get_export "waitlist" disk
        = Attachment "waitlist-export.csv" body
        /\ records body = join "," waitlist_headers :: lines
        /\ List.length (records body) = S (List.length rows)
        /\ cells (join "," waitlist_headers) = waitlist_headers
        /\ forall r l,
             In r rows -> Server.line waitlist_headers r = Some l ->
             exists cs,
               cells l = cs
               /\ Forall2 (fun h c => exists v, prop h r = Some v
                                                /\ Server.escape v = Some c)
                          waitlist_headers cs)
  /\
  (forall v text,
      toString v = Some text -> v <> Undefined -> v <> Null ->
      Server.escape v
      = Some (if needs_quotes text then wrapped text else doubled text))
  /\
  (forall r,
      Server.line waitlist_headers r = None
      <-> r = Undefined \/ r = Null
          \/ exists h v, In h waitlist_headers /\ prop h r = Some v
                         /\ toString v = None)
  /\
  ((forall rows, loadJSON (Server.waitlistFile disk) <> Arr rows)
   \/ (exists rows r,
          loadJSON (Server.waitlistFile disk) = Arr rows /\ In r rows
          /\ Server.line waitlist_headers r = None) ->
   Server.get_export "waitlist" disk
   = Failure 500 "Something went wrong!").
Proof.
  assert (Hne : waitlist_headers <> []) by discriminate.
  destruct (send_csv_rows "waitlist" waitlist_headers
              (Server.waitlistFile disk) Hne plain_waitlist_headers)
    as [Hok Hbad].
  split; [|split; [|split]].
  - intros rows lines Hl Hlines.
    destruct (Hok rows lines Hl Hlines) as (body & Hb & Hr & Hn & Hh).
    exists body. repeat (split; [assumption|]).
    intros r l _ Hline.
    destruct (line_cells waitlist_headers r l Hne Hline)
      as (cs & _ & Hc & _ & Hcs).
    exists cs. auto.
  - intros v text Ht Hu Hn. rewrite (escape_converted v text Ht Hu Hn).
    rewrite (escape_cases (JString text)). reflexivity.
  - intro r. apply (line_throws waitlist_headers r Hne).
  - exact Hbad.
Qed.

(** X15.  The early-access and newsletter exports: when the file is absent
    or holds an array each of whose elements can be written as a line, the
    export is a CSV attachment named after the type whose records, cut at
    the line ends outside double quotes, are the header line followed by one
    line per stored element, in order, each with one cell per column; when
    an element is [null] or one of its exported values does not convert to
    a string, or the file holds something else than an array, the answer
    is 500. *)
Theorem object_exports_rows (disk : Server.Disk) (type : string)
    (headers : list string) (file : File) :
  (type = "early" /\ headers = early_headers
   /\ file = Server.earlyAccessFile disk)
  \/ (type = "newsletter" /\ headers = newsletter_headers
      /\ file = Server.newsletterFile disk) ->
  (forall rows lines,
      loadJSON file = Arr rows ->
      Forall2 (fun r l => Server.line headers r = Some l) rows lines ->
      exists body,
        Server.get_export type disk = Attachment (type ++ "-export.csv") body
        /\ records body = join "," headers :: lines
        /\ List.length (records body) = S (List.length rows)
        /\ cells (join "," headers) = headers
        /\ forall r l,
             In r rows -> Server.line headers r = Some l ->
             exists cs,
               cells l = cs
               /\ Forall2 (fun h c => exists v, prop h r = Some v
                                                /\ Server.escape v = Some c)
                          headers cs)
  /\
  (forall r,
      Server.line headers r = None
      <-> r = Undefined \/ r = Null
          \/ exists h v, In h headers /\ prop h r = Some v
                         /\ toString v = None)
  /\
  ((forall rows, loadJSON file <> Arr rows)
   \/ (exists rows r, loadJSON file = Arr rows /\ In r rows
                      /\ Server.line headers r = None) ->
   Server.get_export type disk = Failure 500 "Something went wrong!").
Proof.
  intro Hwhich.
  assert (Hne : headers <> [])
    by (destruct Hwhich as [(_ & -> & _)|(_ & -> & _)]; discriminate).
  assert (Hplain : forall h, In h headers -> plain_name h).
  { destruct Hwhich as [(_ & -> & _)|(_ & -> & _)];
      [exact plain_early_headers|exact plain_newsletter_headers]. }
  assert (Hroute : Server.get_export type disk
                   = Server.send_csv type headers file).
  { destruct Hwhich as [(-> & -> & ->)|(-> & -> & ->)]; reflexivity. }
  destruct (send_csv_rows type headers file Hne Hplain) as [Hok Hbad].
  rewrite Hroute. split; [|split].
  - intros rows lines Hl Hlines.
    destruct (Hok rows lines Hl Hlines) as (body & Hb & Hr & Hn & Hh).
    exists body. repeat (split; [assumption|]).
    intros r l _ Hline.
    destruct (line_cells headers r l Hne Hline) as (cs & _ & Hc & _ & Hcs).
    exists cs. auto.
  - intro r. apply (line_throws headers r Hne).
  - exact Hbad.
Qed.

End ServerExportFacts.

Lemma waitlist_export_rows_witness :
  exists body,
    Server.get_export "waitlist" (ServerDemo.on_disk (Some (Json.Arr [ServerDemo.ama])))
    = CsvExport.Attachment "waitlist-export.csv" body
    /\ Csv.records body = [ExportDemo.header_line; ExportDemo.ama_line].
Proof.
  destruct (proj1 (waitlist_export_rows
                     (ServerDemo.on_disk (Some (Json.Arr [ServerDemo.ama]))))
              [ServerDemo.ama] [ExportDemo.ama_line])
    as (body & Hb & Hr & _).
  - reflexivity.
  - repeat constructor.
  - exists body. split; [exact Hb|exact Hr].
Defined.

(** C8 as stated fails: the body [{"email": "ama@farm.gh", "name":
    {"toString": 1}}] is written to the list by the waitlist form itself
    (which then fails to build its mail and answers 500), and the export of
    that stored array is answered 500, with no header row and no row. *)
Lemma stored_entry_breaks_export :
  Server.post_waitlist Waitlist.Current WaitlistDemo.at_noon
    (ServerDemo.signup (Json.Str "ama@farm.gh") ServerDemo.odd_name) None
  = (Signups.crashed,
     Some (Json.Arr
             [Server.waitlist_entry Waitlist.Current WaitlistDemo.at_noon
                (ServerDemo.signup (Json.Str "ama@farm.gh")
                                   ServerDemo.odd_name)]))
  /\ Server.get_export "waitlist"
       (ServerDemo.on_disk
          (snd (Server.post_waitlist Waitlist.Current WaitlistDemo.at_noon
                  (ServerDemo.signup (Json.Str "ama@farm.gh")
                                     ServerDemo.odd_name) None)))
     = CsvExport.Failure 500 "Something went wrong!".
Proof. split; reflexivity. Qed.

Lemma object_exports_rows_witness :
  exists body,
    Server.get_export "newsletter"
      {| Server.waitlistFile := None; Server.earlyAccessFile := None;
         Server.newsletterFile := Some (Json.Arr [ServerDemo.kofi]) |}
    = CsvExport.Attachment "newsletter-export.csv" body
    /\ Csv.records body
       = ["id,email,createdAt"; "sub_1706700000000,Kofi@Farm.gh,"].
Proof.
  destruct (proj1 (object_exports_rows
                     {| Server.waitlistFile := None;
                        Server.earlyAccessFile := None;
                        Server.newsletterFile :=
                          Some (Json.Arr [ServerDemo.kofi]) |}
                     "newsletter" CsvExport.newsletter_headers
                     (Some (Json.Arr [ServerDemo.kofi]))
                     (or_intror (conj eq_refl (conj eq_refl eq_refl))))
              [ServerDemo.kofi] ["sub_1706700000000,Kofi@Farm.gh,"])
    as (body & Hb & Hr & _).
  - reflexivity.
  - repeat constructor.
  - exists body. split; [exact Hb|exact Hr].
Defined.

(* ================================================================== *)
(** * The other forms on any body and any file *)

Section ServerSignupFacts.
Import Json Server.
Import Signups (Response, status, payload, Error, Subscribed, Position,
                Created, crashed).
Import Waitlist (Oracle, date_now, iso_now, write_ok, emailRegex).

Lemma NoDup_add_last {A : Type} (l : list A) (a : A) :
  NoDup l -> ~ In a l -> NoDup (l ++ [a]).
Proof.
  induction 1 as [|x l Hx _ IH]; intro Ha; cbn [app].
  - constructor; [intros []|constructor].
  - constructor.
    + intro Hin. apply in_app_iff in Hin. destruct Hin as [Hin|[<-|[]]].
      * exact (Hx Hin).
      * apply Ha. left. reflexivity.
    + apply IH. intro Hin. apply Ha. right. exact Hin.
Qed.

(** A string address that the duplicate test lets through is the address
    of no stored element. *)
Lemma new_address (e : string) (l : list value) :
  Forall has_address l ->
  some_same_email (Str e) l = Some false ->
  ~ In (Some (toLowerCase e)) (map address l).
Proof.
  intros Hall Hd. rewrite (some_same_email_strings e l Hall) in Hd.
  injection Hd as Hd. intro Hin. apply in_map_iff in Hin.
  destruct Hin as (x & Hx & Hin).
  assert (Ht : existsb (fun x => match address x with
                                 | Some a => String.eqb a (toLowerCase e)
                                 | None => false
                                 end) l = true).
  { apply existsb_exists. exists x. split; [exact Hin|].
    rewrite Hx. apply String.eqb_refl. }
  rewrite Ht in Hd. discriminate Hd.
Qed.

(** The duplicate test throws on a well-formed file only for a submitted
    address that is not a string. *)
Lemma some_same_email_throws (v : value) (l : list value) :
  Forall has_address l ->
  some_same_email v l = None ->
  forall e, v <> Str e.
Proof.
  intros Hall Hd e ->. rewrite (some_same_email_strings e l Hall) in Hd.
  discriminate Hd.
Qed.

(** The ways through the newsletter form. *)
Lemma post_newsletter_paths (o : Oracle) (b : NewsletterBody) (file : File) :
  let P := post_newsletter o b file in
  (status (fst P) = 400%Z /\ snd P = file)
  \/ (P = (crashed, file)
      /\ (toString (nl_email b) = None
          \/ (forall l, loadJSON file <> Arr l)
          \/ exists l, loadJSON file = Arr l
                       /\ some_same_email (nl_email b) l = None))
  \/ (exists text l,
         toString (nl_email b) = Some text
         /\ loadJSON file = Arr l
         /\ some_same_email (nl_email b) l = Some false
         /\ ((write_ok o = false
              /\ P = ({| status := 500;
                         payload := Error "Failed to save subscription" |},
                      file))
             \/ (write_ok o = true
                 /\ snd P = Some (Arr (l ++ [subscriber o b]))
                 /\ fst P
                    = if renders [nl_email b; nl_email b;
                                  or_else (nl_name b) (Str "N/A")]
                      then {| status := 201; payload := Subscribed |}
                      else crashed))).
Proof.
  cbv zeta. unfold post_newsletter.
  destruct (truthy (nl_email b)); cbn [negb].
  2:{ left. auto. }
  destruct (toString (nl_email b)) as [text|] eqn:Hs.
  2:{ right; left. auto. }
  destruct (Regex.test emailRegex text); cbn [negb].
  2:{ left. auto. }
  destruct (loadJSON file) as [| |x|x|x|l|x] eqn:Hl;
    try (right; left; split; [reflexivity|];
         right; left; intros l' E; discriminate E).
  destruct (some_same_email (nl_email b) l) as [[|]|] eqn:Hd.
  - left. auto.
  - right; right. exists text, l.
    repeat (split; [first [assumption|reflexivity]|]).
    unfold saveJSON. destruct (write_ok o).
    + right. split; [reflexivity|].
      destruct (renders _); split; reflexivity.
    + left. auto.
  - right; left. split; [reflexivity|]. right; right. exists l. auto.
Qed.

(** X9.  The newsletter form on a file that holds an array of elements
    with string addresses, no two of them equal up to case.  The file comes
    out as it was or with one more element at the end, which carries the
    address as it was sent.  When the address sent is a string the file
    keeps the two properties.  The answer is 500 only when the write fails,
    or the address sent is not a string, or the name sent does not convert
    to a string for the notification mail. *)
Theorem newsletter_stays_distinct (o : Oracle) (b : NewsletterBody)
    (file : File) (l : list value) :
  loadJSON file = Arr l ->
  Forall has_address l ->
  distinct_addresses l ->
  let r := fst (post_newsletter o b file) in
  let file' := snd (post_newsletter o b file) in
  (file' = file \/ file' = Some (Arr (l ++ [subscriber o b])))
  /\ prop "email" (subscriber o b) = Some (nl_email b)
  /\ (forall e,
         nl_email b = Str e ->
         exists l',
           loadJSON file' = Arr l' /\ Forall has_address l'
           /\ distinct_addresses l')
  /\ (status r = 500%Z ->
      write_ok o = false
      \/ (forall e, nl_email b <> Str e)
      \/ toString (or_else (nl_name b) (Str "N/A")) = None).
Proof.
  intros Hl Hall Hdist. cbv zeta.
  destruct (post_newsletter_paths o b file)
    as [(H4 & Hf)|[(Hc & Hwhy)|(text & l' & Ht & Hl' & Hd & Hw)]].
  - rewrite Hf, H4. split; [left; reflexivity|]. split; [reflexivity|].
    split; [|discriminate]. intros e _. exists l. auto.
  - rewrite Hc. cbn [fst snd]. split; [left; reflexivity|].
    split; [reflexivity|]. split.
    + intros e _. exists l. auto.
    + intros _. right; left.
      destruct Hwhy as [Hno|[Hno|(l' & Hl' & Hd)]].
      * intros e E. rewrite E in Hno. discriminate Hno.
      * exfalso. apply (Hno l Hl).
      * rewrite Hl in Hl'. injection Hl' as <-.
        apply (some_same_email_throws _ l Hall Hd).
  - rewrite Hl in Hl'. injection Hl' as <-.
    destruct Hw as [(Hno & Hp)|(Hok & Hf & Hr)].
    + rewrite Hp. cbn [fst snd]. split; [left; reflexivity|].
      split; [reflexivity|]. split; [|auto].
      intros e _. exists l. auto.
    + rewrite Hf, Hr. split; [right; reflexivity|]. split; [reflexivity|].
      split.
      * intros e He. exists (l ++ [subscriber o b]).
        split; [reflexivity|]. split.
        -- apply Forall_app. split; [exact Hall|]. repeat constructor.
           exists e. cbn. rewrite He. reflexivity.
        -- unfold distinct_addresses. rewrite map_app. cbn [map].
           assert (Ha : address (subscriber o b) = Some (toLowerCase e)).
           { unfold address. cbn. rewrite He. reflexivity. }
           rewrite Ha. apply NoDup_add_last; [exact Hdist|].
           apply new_address; [exact Hall|]. rewrite <- He. exact Hd.
      * cbn [renders forallb]. rewrite Ht.
        destruct (toString (or_else (nl_name b) (Str "N/A"))) eqn:Hn.
        -- cbn. discriminate.
        -- intros _. right; right. reflexivity.
Qed.

(** The ways through the early-access form. *)
Lemma post_early_access_paths (o : Oracle) (b : EarlyBody) (file : File) :
  let P := post_early_access o b file in
  (status (fst P) = 400%Z /\ snd P = file)
  \/ P = (crashed, file)
  \/ (exists l,
         loadJSON file = Arr l
         /\ ((write_ok o = false
              /\ P = ({| status := 500;
                         payload :=
                           Error "Failed to save early access request" |},
                      file))
             \/ (write_ok o = true
                 /\ snd P = Some (Arr (l ++ [early_entry o b]))
                 /\ fst P
                    = if renders (early_mail b)
                      then {| status := 201;
                              payload := Position (S (List.length l)) |}
                      else crashed))).
Proof.
  cbv zeta. unfold post_early_access.
  destruct (negb (truthy (ea_email b)) || negb (truthy (ea_name b))
            || negb (truthy (ea_businessType b))
            || negb (truthy (ea_location b))).
  { left. auto. }
  destruct (toString (ea_email b)) as [text|]; [|right; left; reflexivity].
  destruct (Regex.test emailRegex text); cbn [negb]; [|left; auto].
  destruct (loadJSON file) as [| |x|x|x|l|x] eqn:Hl;
    try (right; left; reflexivity).
  destruct (some_same_email (ea_email b) l) as [[|]|].
  - left. auto.
  - right; right. exists l. split; [reflexivity|].
    unfold saveJSON. destruct (write_ok o).
    + right. split; [reflexivity|]. rewrite length_app, Nat.add_comm.
      cbn [List.length Nat.add].
      destruct (renders (early_mail b)); split; reflexivity.
    + left. auto.
  - right; left. reflexivity.
Qed.

(** X11.  The early-access form.  A request lacking an address, a name, a
    business type or a location is answered 400 and writes nothing.  A
    request answered 201 has appended one element to the file, with the
    four fields as they were sent, and reports the new length of the list
    as position.  A request answered 400 leaves the file untouched.  One
    answered 500 leaves it untouched too, unless the element was written
    and the text of the notification mail could not be built: then the
    element stays in the file.  There is no other answer. *)
Theorem early_access_outcomes (o : Oracle) (b : EarlyBody) (file : File) :
  let r := fst (post_early_access o b file) in
  let file' := snd (post_early_access o b file) in
  (truthy (ea_email b) && truthy (ea_name b) && truthy (ea_businessType b)
   && truthy (ea_location b) = false ->
   r = {| status := 400; payload := Error "Missing required fields" |}
   /\ file' = file)
  /\ (status r = 201%Z ->
      exists l,
        loadJSON file = Arr l
        /\ file' = Some (Arr (l ++ [early_entry o b]))
        /\ payload r = Position (S (List.length l))
        /\ prop "email" (early_entry o b) = Some (ea_email b)
        /\ prop "name" (early_entry o b) = Some (ea_name b)
        /\ prop "businessType" (early_entry o b) = Some (ea_businessType b)
        /\ prop "location" (early_entry o b) = Some (ea_location b))
  /\ (status r = 400%Z -> file' = file)
  /\ (status r = 500%Z ->
      file' = file
      \/ (renders (early_mail b) = false
          /\ exists l,
               loadJSON file = Arr l
               /\ file' = Some (Arr (l ++ [early_entry o b]))))
  /\ (status r = 201%Z \/ status r = 400%Z \/ status r = 500%Z).
Proof.
  cbv zeta. split.
  { intro Hmiss. unfold post_early_access.
    destruct (truthy (ea_email b)), (truthy (ea_name b)),
      (truthy (ea_businessType b)), (truthy (ea_location b));
      try discriminate Hmiss; split; reflexivity. }
  destruct (post_early_access_paths o b file)
    as [(H4 & Hf)|[Hc|(l & Hl & [(_ & Hp)|(_ & Hf & Hr)])]].
  - rewrite H4, Hf. repeat split; try discriminate; auto.
  - rewrite Hc. cbn [fst snd status crashed].
    repeat split; try discriminate; auto.
  - rewrite Hp. cbn [fst snd status].
    repeat split; try discriminate; auto.
  - rewrite Hr, Hf. destruct (renders (early_mail b)) eqn:Hm;
      cbn [status payload crashed].
    + split; [|split; [discriminate|split; [discriminate|auto]]].
      intros _. exists l. repeat split; assumption || reflexivity.
    + split; [discriminate|]. split; [discriminate|].
      split; [|auto]. intros _. right. split; [reflexivity|]. exists l. auto.
Qed.

Lemma filter_with_app {A : Type} (f : A -> option bool) (l : list A)
    (x : A) :
  filter_with f (l ++ [x])
  = match filter_with f l, f x with
    | Some kept, Some b => Some (kept ++ if b then [x] else [])
    | _, _ => None
    end.
Proof.
  induction l as [|y l IH]; cbn [app filter_with].
  - destruct (f x) as [[|]|]; reflexivity.
  - destruct (f y) as [c|]; [|reflexivity]. rewrite IH.
    destruct (filter_with f l) as [kept|]; [|reflexivity].
    destruct (f x) as [d|]; [|reflexivity]. destruct c; reflexivity.
Qed.

(** The count of a status after one more element. *)
Lemma count_status_snoc (text : string) (l : list value) (x : value)
    (n : nat) (st : string) :
  count_status text l = Some n ->
  prop "status" x = Some (Str st) ->
  count_status text (l ++ [x])
  = Some (if String.eqb st text then S n else n).
Proof.
  unfold count_status. intros Hn Hx. rewrite filter_with_app, Hx.
  destruct (filter_with _ l) as [kept|]; [|discriminate Hn].
  cbn [option_map] in *. injection Hn as <-. cbn [is_text].
  destruct (String.eqb st text); rewrite length_app; cbn [List.length];
    f_equal; lia.
Qed.

Variable parseInt : string -> value.

(** The ways through the application form. *)
Lemma post_farm_application_paths (o : Oracle) (b : ApplicationBody)
    (file : File) :
  let P := post_farm_application parseInt o b file in
  (status (fst P) = 400%Z /\ snd P = file)
  \/ P = (crashed, file)
  \/ (exists size l,
         toString (ab_farmSize b) = Some size
         /\ loadJSON file = Arr l
         /\ ((write_ok o = false
              /\ P = ({| status := 500;
                         payload := Error "Failed to save application" |},
                      file))
             \/ (write_ok o = true
                 /\ snd P
                    = Some (Arr (l ++ [application o b (parseInt size)]))
                 /\ fst P
                    = if renders (application_mail b)
                      then {| status := 201;
                              payload := Created ("app_" ++ date_now o) |}
                      else crashed))).
Proof.
  cbv zeta. unfold post_farm_application.
  destruct (negb (truthy (ab_farmName b)) || negb (truthy (ab_location b))
            || negb (truthy (ab_farmSize b))
            || negb (truthy (ab_specialties b))
            || negb (truthy (ab_contactName b)) || negb (truthy (ab_phone b))
            || negb (truthy (ab_email b)) || negb (truthy (ab_experience b))).
  { left. auto. }
  destruct (toString (ab_email b)) as [text|]; [|right; left; reflexivity].
  destruct (Regex.test emailRegex text); cbn [negb]; [|left; auto].
  destruct (toString (ab_farmSize b)) as [size|];
    [|right; left; reflexivity].
  destruct (loadJSON file) as [| |x|x|x|l|x] eqn:Hl;
    try (right; left; reflexivity).
  right; right. exists size, l. split; [reflexivity|]. split; [reflexivity|].
  unfold saveJSON. destruct (write_ok o).
  - right. split; [reflexivity|].
    destruct (renders (application_mail b)); split; reflexivity.
  - left. auto.
Qed.

Lemma stats_after_application (o : Oracle) (b : ApplicationBody)
    (size : value) (file newsletter waitlist early : File)
    (l : list value) (s : Stats) :
  loadJSON file = Arr l ->
  get_stats file newsletter waitlist early = Some s ->
  get_stats (Some (Arr (l ++ [application o b size])))
            newsletter waitlist early
  = Some (one_more_application s).
Proof.
  intros Hl Hs. unfold get_stats in *. rewrite Hl in Hs. cbn [loadJSON].
  destruct (count_status "pending" l) as [p|] eqn:Hp; [|discriminate Hs].
  destruct (count_status "approved" l) as [a|] eqn:Ha; [|discriminate Hs].
  destruct (count_status "rejected" l) as [r|] eqn:Hr; [|discriminate Hs].
  rewrite (count_status_snoc "pending" l (application o b size) p "pending"
             Hp eq_refl),
    (count_status_snoc "approved" l (application o b size) a "pending"
       Ha eq_refl),
    (count_status_snoc "rejected" l (application o b size) r "pending"
       Hr eq_refl).
  cbn [String.eqb Ascii.eqb Bool.eqb].
  destruct (length_of (loadJSON newsletter)); [|discriminate Hs].
  destruct (length_of (loadJSON waitlist)); [|discriminate Hs].
  destruct (length_of (loadJSON early)); [|discriminate Hs].
  injection Hs as <-. unfold one_more_application.
  cbn [applications_total applications_pending applications_approved
       applications_rejected newsletter_total waitlist_total
       earlyAccess_total].
  rewrite length_app, Nat.add_comm. reflexivity.
Qed.

(** X12.  The application form and the statistics, when the statistics can
    be read before the request.  An application answered 201 shows in them
    as one more application and one more pending one, and changes no other
    figure.  One answered 400 leaves the file untouched.  One answered 500
    leaves it untouched too, unless the application was written and the
    text of the notification mail could not be built: it then counts in the
    statistics all the same.  The form looks for no earlier application:
    the request that was answered 201 is answered 201 again when repeated,
    if the write succeeds. *)
Theorem accepted_application_counts_as_pending (o : Oracle)
    (b : ApplicationBody) (file newsletter waitlist early : File)
    (s : Stats) :
  get_stats file newsletter waitlist early = Some s ->
  let r := fst (post_farm_application parseInt o b file) in
  let file' := snd (post_farm_application parseInt o b file) in
  (status r = 201%Z ->
   get_stats file' newsletter waitlist early = Some (one_more_application s))
  /\ (status r = 400%Z -> file' = file)
  /\ (status r = 500%Z ->
      file' = file
      \/ (renders (application_mail b) = false
          /\ get_stats file' newsletter waitlist early
             = Some (one_more_application s)))
  /\ (status r = 201%Z ->
      forall o2,
        write_ok o2 = true ->
        status (fst (post_farm_application parseInt o2 b file')) = 201%Z)
  /\ (status r = 201%Z \/ status r = 400%Z \/ status r = 500%Z).
Proof.
  intro Hs. cbv zeta.
  destruct (post_farm_application_paths o b file)
    as [(H4 & Hf)|[Hc|(size & l & Hsize & Hl & [(_ & Hp)|(_ & Hf & Hr)])]].
  - rewrite H4, Hf. repeat split; try discriminate; auto.
  - rewrite Hc. cbn [fst snd status crashed].
    repeat split; try discriminate; auto.
  - rewrite Hp. cbn [fst snd status].
    repeat split; try discriminate; auto.
  - pose proof (stats_after_application o b (parseInt size) file newsletter
                  waitlist early l s Hl Hs) as Hafter.
    rewrite Hr, Hf. destruct (renders (application_mail b)) eqn:Hm;
      cbn [status crashed].
    + split; [intros _; exact Hafter|].
      split; [discriminate|]. split; [discriminate|]. split; [|auto].
      intros _ o2 Hw2. revert Hr Hm. unfold post_farm_application.
      destruct (negb (truthy (ab_farmName b)) || negb (truthy (ab_location b))
                || negb (truthy (ab_farmSize b))
                || negb (truthy (ab_specialties b))
                || negb (truthy (ab_contactName b))
                || negb (truthy (ab_phone b))
                || negb (truthy (ab_email b))
                || negb (truthy (ab_experience b)));
        [discriminate|].
      destruct (toString (ab_email b)) as [text|]; [|discriminate].
      destruct (Regex.test emailRegex text); cbn [negb]; [|discriminate].
      rewrite Hsize. cbn [loadJSON]. unfold saveJSON. rewrite Hw2.
      intros _ ->. reflexivity.
    + split; [discriminate|]. split; [discriminate|].
      split; [|split; [discriminate|auto]].
      intros _. right. split; [reflexivity|exact Hafter].
Qed.

End ServerSignupFacts.

Lemma newsletter_stays_distinct_witness :
  exists l',
    Json.loadJSON
      (snd (Server.post_newsletter WaitlistDemo.at_noon
              (ServerDemo.subscribe (Json.Str "ama@farm.gh")
                                    ServerDemo.odd_name)
              (Some (Json.Arr [ServerDemo.kofi]))))
    = Json.Arr l'
    /\ distinct_addresses l'.
Proof.
  destruct (newsletter_stays_distinct WaitlistDemo.at_noon
              (ServerDemo.subscribe (Json.Str "ama@farm.gh")
                                    ServerDemo.odd_name)
              (Some (Json.Arr [ServerDemo.kofi])) [ServerDemo.kofi])
    as (_ & _ & H & _).
  - reflexivity.
  - repeat constructor. exists "Kofi@Farm.gh". reflexivity.
  - repeat constructor. simpl. tauto.
  - destruct (H "ama@farm.gh" eq_refl) as (l' & Hl & _ & Hd).
    exists l'. split; [exact Hl|exact Hd].
Defined.

Lemma accepted_application_counts_as_pending_witness :
  Server.get_stats
    (snd (Server.post_farm_application ServerDemo.digits
            WaitlistDemo.at_noon
            (ServerDemo.apply_with (Json.Str "Sunrise Farm")) None))
    None None None
  = Some {| Server.applications_total := 1;
            Server.applications_pending := 1;
            Server.applications_approved := 0;
            Server.applications_rejected := 0;
            Server.newsletter_total := Server.Elements 0;
            Server.waitlist_total := Server.Elements 0;
            Server.earlyAccess_total := Server.Elements 0 |}.
Proof.
  refine (proj1 (accepted_application_counts_as_pending ServerDemo.digits
                   WaitlistDemo.at_noon
                   (ServerDemo.apply_with (Json.Str "Sunrise Farm"))
                   None None None None
                   {| Server.applications_total := 0;
                      Server.applications_pending := 0;
                      Server.applications_approved := 0;
                      Server.applications_rejected := 0;
                      Server.newsletter_total := Server.Elements 0;
                      Server.waitlist_total := Server.Elements 0;
                      Server.earlyAccess_total := Server.Elements 0 |}
                   _) _);
    reflexivity.
Defined.
